(** * claude-code-costs: cost accounting, parsing, aggregation and live tracking

    A shallow embedding of the JavaScript sources

      - lib/parser.js     (class ConversationParser)
      - lib/analyzer.js   (class ConversationAnalyzer)
      - lib/monitor.js    (class ConversationMonitor)
      - lib/config.js     (class ConfigManager, alert thresholds)
      - lib/security.js   (SecurityUtils.safeMerge)
      - index.js          (the CLAUDE_PRICING table)

    Line numbers in the comments are those of the source files as they
    stand: lib/security.js holds SecurityUtils followed by
    ConversationParser.

    Conventions of the embedding.

    - JavaScript numbers are exact: token counts are integers ([Z]), rates,
      costs, durations and burn rates are rationals in canonical form ([Qc]),
      so that [=] is the equality of values.  Rounding of IEEE doubles is not
      modelled.
    - A property that may be absent is an [option]; [x || 0] on a counter is
      [orZero].  A string is truthy when it is present and not empty.
    - A timestamp is the number of milliseconds that [new Date(...)] gives
      for it; strings that [Date] cannot read are not modelled.
    - An object used as a dictionary with string keys is a finite map of its
      own entries when only lookups matter ([gmap]) and a list of entries in
      insertion order when [Object.entries]/[Object.values] is taken of it.
    - [JSON.parse] belongs to the runtime: a line of a log file is
      represented by the outcome of [JSON.parse] on it. *)

From Stdlib Require Import QArith Qcanon ZArith String Ascii Lia.
From stdpp Require Import numbers strings pretty sorting gmap list.

Local Open Scope string_scope.
Local Open Scope list_scope.
Local Open Scope Z_scope.

(** ** Numbers *)

(** [x || 0] for a counter read from a JSON object. *)
Definition orZero (x : option Z) : Z :=
  match x with
  | Some n => n
  | None => 0
  end.

(** A decimal literal [n/d] as a canonical rational. *)
Definition dec (n : Z) (d : positive) : Qc := Q2Qc (n # d).

Definition million : Qc := Qc_of_Z 1000000.

(** The outcome of evaluating an expression that may throw. *)
Inductive completion (A : Type) : Type :=
| Return (a : A)
| Throw (error : string).
Arguments Return {A} a.
Arguments Throw {A} error.

(** ** Pricing table and usage counters *)

Module Rate.
Record t : Type := Build
  { input : Qc; output : Qc; cache_write : Qc; cache_read : Qc }.
End Rate.

Module Usage.
Record t : Type := Build
  { input_tokens : option Z;
    output_tokens : option Z;
    cache_creation_input_tokens : option Z;
    cache_read_input_tokens : option Z }.
End Usage.

Module Tokens.
Record t : Type := Build
  { total : Z; input : Z; output : Z; cacheWrite : Z; cacheRead : Z }.
Definition zero : t := Build 0 0 0 0 0.
(** The five [+=] of the parser on a token record. *)
Definition add (a b : t) : t :=
  Build (total a + total b) (input a + input b) (output a + output b)
        (cacheWrite a + cacheWrite b) (cacheRead a + cacheRead b).
End Tokens.

(** index.js, [CLAUDE_PRICING]. *)
Definition sonnetRate : Rate.t := Rate.Build (dec 3 1) (dec 15 1) (dec 375 100) (dec 3 10).
Definition opusRate : Rate.t := Rate.Build (dec 15 1) (dec 75 1) (dec 1875 100) (dec 15 10).
Definition haiku35Rate : Rate.t := Rate.Build (dec 8 10) (dec 4 1) (dec 1 1) (dec 8 100).
Definition haiku3Rate : Rate.t := Rate.Build (dec 25 100) (dec 125 100) (dec 3 10) (dec 3 100).

Definition CLAUDE_PRICING : gmap string Rate.t :=
  list_to_map
    [ ("claude-opus-4-20250514", opusRate);
      ("claude-sonnet-4-20250514", sonnetRate);
      ("claude-3-7-sonnet-20250219", sonnetRate);
      ("claude-3-7-sonnet-latest", sonnetRate);
      ("claude-3-5-sonnet-20241022", sonnetRate);
      ("claude-3-5-sonnet-20240620", sonnetRate);
      ("claude-3-5-sonnet-latest", sonnetRate);
      ("claude-3-5-haiku-20241022", haiku35Rate);
      ("claude-3-5-haiku-latest", haiku35Rate);
      ("claude-3-opus-20240229", opusRate);
      ("claude-3-opus-latest", opusRate);
      ("claude-3-sonnet-20240229", sonnetRate);
      ("claude-3-haiku-20240307", haiku3Rate);
      ("default", sonnetRate) ].

(** ** ConversationParser: cost and token totals of one usage object *)

(** [this.pricing[model] || this.pricing['default']]: an entry of the table
    is an object, hence truthy. *)
Definition resolvePricing (pricing : gmap string Rate.t) (model : string) : option Rate.t :=
  match pricing !! model with
  | Some r => Some r
  | None => pricing !! "default"
  end.

(** The four products and their sum, lines 210-215 of the parser. *)
Definition costOf (pricing : Rate.t) (usage : Usage.t) : Qc :=
  let inputCost := (Qc_of_Z (orZero (Usage.input_tokens usage)) * Rate.input pricing / million)%Qc in
  let outputCost := (Qc_of_Z (orZero (Usage.output_tokens usage)) * Rate.output pricing / million)%Qc in
  let cacheWriteCost :=
    (Qc_of_Z (orZero (Usage.cache_creation_input_tokens usage)) * Rate.cache_write pricing / million)%Qc in
  let cacheReadCost :=
    (Qc_of_Z (orZero (Usage.cache_read_input_tokens usage)) * Rate.cache_read pricing / million)%Qc in
  (inputCost + outputCost + cacheWriteCost + cacheReadCost)%Qc.

(** [calculateCost(usage, model)].  When neither [model] nor ['default'] is
    in the table, [pricing] is [undefined] and reading [pricing.input]
    throws a TypeError. *)
Definition calculateCost (pricing : gmap string Rate.t)
    (usage : option Usage.t) (model : string) : completion Qc :=
  match usage with
  | None => Return 0%Qc
  | Some u =>
      match resolvePricing pricing model with
      | Some r => Return (costOf r u)
      | None => Throw "TypeError"
      end
  end.

(** [calculateTokens(usage)]. *)
Definition calculateTokens (usage : option Usage.t) : Tokens.t :=
  match usage with
  | None => Tokens.Build 0 0 0 0 0
  | Some u =>
      Tokens.Build
        (orZero (Usage.input_tokens u) + orZero (Usage.output_tokens u)
         + orZero (Usage.cache_creation_input_tokens u)
         + orZero (Usage.cache_read_input_tokens u))
        (orZero (Usage.input_tokens u))
        (orZero (Usage.output_tokens u))
        (orZero (Usage.cache_creation_input_tokens u))
        (orZero (Usage.cache_read_input_tokens u))
  end.

(** ** Strings and objects of the JavaScript runtime *)

(** A string read from a property is truthy when present and not empty. *)
Definition nonEmpty (s : string) : bool :=
  match s with
  | EmptyString => false
  | String _ _ => true
  end.

Definition truthy (s : option string) : option string :=
  match s with
  | Some v => if nonEmpty v then Some v else None
  | None => None
  end.

Definition newline : ascii := ascii_of_nat 10.

(** [s.replace(/\n/g, ' ')]. *)
Fixpoint flattenNewlines (s : string) : string :=
  match s with
  | EmptyString => EmptyString
  | String c rest =>
      String (if Ascii.eqb c newline then " "%char else c) (flattenNewlines rest)
  end.

(** [s.substring(0, 100)]. *)
Definition first100 (s : string) : string := substring 0 100 s.

(** An object whose entries are enumerated: its own properties in insertion
    order.  [objGet] is [o[k]], [objSet] is [o[k] = v]: an existing property
    keeps its place, a new one goes last. *)
Fixpoint objGet {V : Type} (k : string) (o : list (string * V)) : option V :=
  match o with
  | [] => None
  | (k', v) :: rest => if decide (k' = k) then Some v else objGet k rest
  end.

Fixpoint objSet {V : Type} (k : string) (v : V) (o : list (string * V)) : list (string * V) :=
  match o with
  | [] => [(k, v)]
  | (k', v') :: rest =>
      if decide (k' = k) then (k, v) :: rest else (k', v') :: objSet k v rest
  end.

(** [a.slice(-n)]: the last [n] elements. *)
Definition lastN {A : Type} (n : nat) (l : list A) : list A :=
  drop (length l - n) l.

(** ** ConversationParser: the records of a log line *)

Module Metadata.
Record t : Type := Build
  { workingDirectory : option string;
    cwd : option string;
    thread_summary : option string;
    summary : option string }.
End Metadata.

Module ToolUse.
Record t : Type := Build { id : option string; name : option string }.
End ToolUse.

(** [message.message] of an assistant line. *)
Module Payload.
Record t : Type := Build { model : option string; usage : option Usage.t }.
End Payload.

(** The properties of a parsed line that the parser examines.  The
    properties it only copies or collects ([cwd], [user], [service_tier],
    [content], [id], [role], [requestID], [tool_use.input], [is_error]) are
    left out, and with them the collections that nothing below reads
    ([workingDirectories], [userTypes], [serviceTiers], [commands],
    [errors]). *)
Module Message.
Record t : Type := Build
  { type : option string;
    timestamp : option Z;
    sessionId : option string;
    parentUUID : option string;
    summary : option string;
    metadata : option Metadata.t;
    text : option string;
    message : option Payload.t;
    tool_use : option ToolUse.t }.
End Message.

(** The outcome of [JSON.parse(line)]: a SyntaxError, the value [null]
    (whose first property read throws a TypeError), or a value whose
    properties can be read. *)
Inductive Line : Type :=
| Malformed
| JsonNull
| Json (m : Message.t).

(** ** ConversationParser: the conversation being built *)

Module Execution.
Record t : Type := Build
  { timestamp : option Z; id : option string; parentId : option string }.
End Execution.

Module ToolData.
Record t : Type := Build
  { count : Z; totalCost : Qc; errors : Z; executions : list Execution.t }.
End ToolData.

Module ModelData.
Record t : Type := Build { count : Z; cost : Qc; tokens : Tokens.t }.
End ModelData.

Module Burn.
Record t : Type := Build { timestamp : Z; rate : Qc; tokens : Z; cost : Qc }.
End Burn.

(** An element of [conversation.messages]. *)
Module Entry.
Record t : Type := Build
  { type : option string;
    timestamp : option Z;
    parentId : option string;
    model : option string;
    usage : option Usage.t;
    text : option string }.
End Entry.

Module Conversation.
Record t : Type := Build
  { conversationId : string;
    sessionId : string;
    conversationName : string;
    conversationTitle : string;
    totalCost : Qc;
    totalTokens : Tokens.t;
    messageCount : Z;
    startTime : option Z;
    endTime : option Z;
    duration : Qc;
    summary : string;
    firstUserMessage : string;
    messages : list Entry.t;
    toolUsage : list (string * ToolData.t);
    models : list (string * ModelData.t);
    tokenBurnRate : list Burn.t;
    projectPath : string;
    projectName : string }.

Definition set_conversationId (v : string) (c : t) : t :=
  Build v (sessionId c) (conversationName c) (conversationTitle c) (totalCost c)
    (totalTokens c) (messageCount c) (startTime c) (endTime c) (duration c) (summary c)
    (firstUserMessage c) (messages c) (toolUsage c) (models c) (tokenBurnRate c)
    (projectPath c) (projectName c).
Definition set_sessionId (v : string) (c : t) : t :=
  Build (conversationId c) v (conversationName c) (conversationTitle c) (totalCost c)
    (totalTokens c) (messageCount c) (startTime c) (endTime c) (duration c) (summary c)
    (firstUserMessage c) (messages c) (toolUsage c) (models c) (tokenBurnRate c)
    (projectPath c) (projectName c).
Definition set_conversationName (v : string) (c : t) : t :=
  Build (conversationId c) (sessionId c) v (conversationTitle c) (totalCost c)
    (totalTokens c) (messageCount c) (startTime c) (endTime c) (duration c) (summary c)
    (firstUserMessage c) (messages c) (toolUsage c) (models c) (tokenBurnRate c)
    (projectPath c) (projectName c).
Definition set_conversationTitle (v : string) (c : t) : t :=
  Build (conversationId c) (sessionId c) (conversationName c) v (totalCost c)
    (totalTokens c) (messageCount c) (startTime c) (endTime c) (duration c) (summary c)
    (firstUserMessage c) (messages c) (toolUsage c) (models c) (tokenBurnRate c)
    (projectPath c) (projectName c).
Definition set_totalCost (v : Qc) (c : t) : t :=
  Build (conversationId c) (sessionId c) (conversationName c) (conversationTitle c) v
    (totalTokens c) (messageCount c) (startTime c) (endTime c) (duration c) (summary c)
    (firstUserMessage c) (messages c) (toolUsage c) (models c) (tokenBurnRate c)
    (projectPath c) (projectName c).
Definition set_totalTokens (v : Tokens.t) (c : t) : t :=
  Build (conversationId c) (sessionId c) (conversationName c) (conversationTitle c)
    (totalCost c) v (messageCount c) (startTime c) (endTime c) (duration c) (summary c)
    (firstUserMessage c) (messages c) (toolUsage c) (models c) (tokenBurnRate c)
    (projectPath c) (projectName c).
Definition set_messageCount (v : Z) (c : t) : t :=
  Build (conversationId c) (sessionId c) (conversationName c) (conversationTitle c)
    (totalCost c) (totalTokens c) v (startTime c) (endTime c) (duration c) (summary c)
    (firstUserMessage c) (messages c) (toolUsage c) (models c) (tokenBurnRate c)
    (projectPath c) (projectName c).
Definition set_startTime (v : option Z) (c : t) : t :=
  Build (conversationId c) (sessionId c) (conversationName c) (conversationTitle c)
    (totalCost c) (totalTokens c) (messageCount c) v (endTime c) (duration c) (summary c)
    (firstUserMessage c) (messages c) (toolUsage c) (models c) (tokenBurnRate c)
    (projectPath c) (projectName c).
Definition set_endTime (v : option Z) (c : t) : t :=
  Build (conversationId c) (sessionId c) (conversationName c) (conversationTitle c)
    (totalCost c) (totalTokens c) (messageCount c) (startTime c) v (duration c) (summary c)
    (firstUserMessage c) (messages c) (toolUsage c) (models c) (tokenBurnRate c)
    (projectPath c) (projectName c).
Definition set_duration (v : Qc) (c : t) : t :=
  Build (conversationId c) (sessionId c) (conversationName c) (conversationTitle c)
    (totalCost c) (totalTokens c) (messageCount c) (startTime c) (endTime c) v (summary c)
    (firstUserMessage c) (messages c) (toolUsage c) (models c) (tokenBurnRate c)
    (projectPath c) (projectName c).
Definition set_summary (v : string) (c : t) : t :=
  Build (conversationId c) (sessionId c) (conversationName c) (conversationTitle c)
    (totalCost c) (totalTokens c) (messageCount c) (startTime c) (endTime c) (duration c) v
    (firstUserMessage c) (messages c) (toolUsage c) (models c) (tokenBurnRate c)
    (projectPath c) (projectName c).
Definition set_firstUserMessage (v : string) (c : t) : t :=
  Build (conversationId c) (sessionId c) (conversationName c) (conversationTitle c)
    (totalCost c) (totalTokens c) (messageCount c) (startTime c) (endTime c) (duration c)
    (summary c) v (messages c) (toolUsage c) (models c) (tokenBurnRate c)
    (projectPath c) (projectName c).
Definition set_messages (v : list Entry.t) (c : t) : t :=
  Build (conversationId c) (sessionId c) (conversationName c) (conversationTitle c)
    (totalCost c) (totalTokens c) (messageCount c) (startTime c) (endTime c) (duration c)
    (summary c) (firstUserMessage c) v (toolUsage c) (models c) (tokenBurnRate c)
    (projectPath c) (projectName c).
Definition set_toolUsage (v : list (string * ToolData.t)) (c : t) : t :=
  Build (conversationId c) (sessionId c) (conversationName c) (conversationTitle c)
    (totalCost c) (totalTokens c) (messageCount c) (startTime c) (endTime c) (duration c)
    (summary c) (firstUserMessage c) (messages c) v (models c) (tokenBurnRate c)
    (projectPath c) (projectName c).
Definition set_models (v : list (string * ModelData.t)) (c : t) : t :=
  Build (conversationId c) (sessionId c) (conversationName c) (conversationTitle c)
    (totalCost c) (totalTokens c) (messageCount c) (startTime c) (endTime c) (duration c)
    (summary c) (firstUserMessage c) (messages c) (toolUsage c) v (tokenBurnRate c)
    (projectPath c) (projectName c).
Definition set_tokenBurnRate (v : list Burn.t) (c : t) : t :=
  Build (conversationId c) (sessionId c) (conversationName c) (conversationTitle c)
    (totalCost c) (totalTokens c) (messageCount c) (startTime c) (endTime c) (duration c)
    (summary c) (firstUserMessage c) (messages c) (toolUsage c) (models c) v
    (projectPath c) (projectName c).
Definition set_projectPath (v : string) (c : t) : t :=
  Build (conversationId c) (sessionId c) (conversationName c) (conversationTitle c)
    (totalCost c) (totalTokens c) (messageCount c) (startTime c) (endTime c) (duration c)
    (summary c) (firstUserMessage c) (messages c) (toolUsage c) (models c)
    (tokenBurnRate c) v (projectName c).
Definition set_projectName (v : string) (c : t) : t :=
  Build (conversationId c) (sessionId c) (conversationName c) (conversationTitle c)
    (totalCost c) (totalTokens c) (messageCount c) (startTime c) (endTime c) (duration c)
    (summary c) (firstUserMessage c) (messages c) (toolUsage c) (models c)
    (tokenBurnRate c) (projectPath c) v.

(** The object literal of lines 249-272 ([projectName] is added later by
    the analyzer). *)
Definition initial : t :=
  Build "" "" "" "" 0%Qc Tokens.zero 0 None None 0%Qc "" "" [] [] [] [] "" "".
End Conversation.

(** The conversation together with the local variable [lastTimestamp] of
    [parseJSONLFile]. *)
Record ParserState : Type := MkParserState
  { conv : Conversation.t; lastTimestamp : option Z }.

Definition initialState : ParserState := MkParserState Conversation.initial None.

(** ** ConversationParser.parseJSONLFile: the body of the loop *)

Definition isType (m : Message.t) (ty : string) : bool :=
  bool_decide (Message.type m = Some ty).

(** Lines 282-284. *)
Definition extractSessionId (m : Message.t) (c : Conversation.t) : Conversation.t :=
  match truthy (Message.sessionId m) with
  | Some s =>
      if nonEmpty (Conversation.sessionId c) then c else Conversation.set_sessionId s c
  | None => c
  end.

(** Lines 287-301: the metadata of a summary line. *)
Definition extractMetadata (m : Message.t) (c : Conversation.t) : Conversation.t :=
  if isType m "summary" then
    let c :=
      match truthy (Message.summary m) with
      | Some s => Conversation.set_summary s c
      | None => c
      end in
    match Message.metadata m with
    | Some md =>
        let name :=
          match truthy (Metadata.workingDirectory md) with
          | Some d => d
          | None => default "Unknown" (truthy (Metadata.cwd md))
          end in
        let c := Conversation.set_conversationName name c in
        let c := Conversation.set_projectPath (default "" (truthy (Metadata.cwd md))) c in
        let c :=
          match truthy (Metadata.thread_summary md) with
          | Some s => Conversation.set_conversationTitle s c
          | None => c
          end in
        match truthy (Metadata.summary md) with
        | Some s => Conversation.set_conversationTitle s c
        | None => c
        end
    | None => c
    end
  else c.

(** Lines 304-306. *)
Definition captureFirstUserMessage (m : Message.t) (c : Conversation.t) : Conversation.t :=
  if isType m "user" && negb (nonEmpty (Conversation.firstUserMessage c)) then
    match truthy (Message.text m) with
    | Some t => Conversation.set_firstUserMessage (first100 t) c
    | None => c
    end
  else c.

(** Lines 324-343. *)
Definition recordToolUse (m : Message.t) (c : Conversation.t) : Conversation.t :=
  if isType m "tool_use" then
    let toolName := default "unknown" (Message.tool_use m ≫= λ tu, truthy (ToolUse.name tu)) in
    let old :=
      default (ToolData.Build 0 0%Qc 0 []) (objGet toolName (Conversation.toolUsage c)) in
    let execution :=
      Execution.Build (Message.timestamp m) (Message.tool_use m ≫= ToolUse.id)
        (Message.parentUUID m) in
    Conversation.set_toolUsage
      (objSet toolName
         (ToolData.Build (ToolData.count old + 1) (ToolData.totalCost old)
            (ToolData.errors old) (ToolData.executions old ++ [execution]))
         (Conversation.toolUsage c))
      c
  else c.

(** Lines 409-417: the first tool with an execution related to [parent]
    receives the cost. *)
Definition relatedExecution (parent : string) (e : Execution.t) : bool :=
  bool_decide (Execution.id e = Some parent)
  || bool_decide (Execution.parentId e = Some parent).

Fixpoint attributeToolCost (parent : string) (cost : Qc)
    (tools : list (string * ToolData.t)) : list (string * ToolData.t) :=
  match tools with
  | [] => []
  | (toolName, toolData) :: rest =>
      if existsb (relatedExecution parent) (ToolData.executions toolData) then
        (toolName,
         ToolData.Build (ToolData.count toolData) (ToolData.totalCost toolData + cost)%Qc
           (ToolData.errors toolData) (ToolData.executions toolData)) :: rest
      else (toolName, toolData) :: attributeToolCost parent cost rest
  end.

(** [(new Date(a) - new Date(b)) / 1000 / 60]. *)
Definition minutesBetween (a b : Z) : Qc :=
  (Qc_of_Z (a - b) / Qc_of_Z 1000 / Qc_of_Z 60)%Qc.

(** Lines 421-432: the sample pushed on [tokenBurnRate], if any. *)
Definition burnSample (timestamp last : option Z) (tokens : Tokens.t) (cost : Qc)
    : option Burn.t :=
  match timestamp, last with
  | Some t, Some l =>
      let timeDiff := minutesBetween t l in
      if decide (0 < timeDiff)%Qc then
        Some (Burn.Build t (Qc_of_Z (Tokens.total tokens) / timeDiff)%Qc
                (Tokens.total tokens) cost)
      else None
  | _, _ => None
  end.

(** Lines 373-435: an assistant line with usage and model. *)
Definition processAssistant (pricing : gmap string Rate.t) (m : Message.t)
    (st : ParserState) : completion ParserState :=
  if isType m "assistant" then
    match Message.message m with
    | Some payload =>
        match Payload.usage payload, truthy (Payload.model payload) with
        | Some usage, Some model =>
            match calculateCost pricing (Some usage) model with
            | Throw e => Throw e
            | Return cost =>
                let tokens := calculateTokens (Some usage) in
                let c := conv st in
                let c := Conversation.set_totalCost (Conversation.totalCost c + cost)%Qc c in
                let c :=
                  Conversation.set_totalTokens
                    (Tokens.add (Conversation.totalTokens c) tokens) c in
                let c := Conversation.set_messageCount (Conversation.messageCount c + 1) c in
                let old :=
                  default (ModelData.Build 0 0%Qc Tokens.zero)
                    (objGet model (Conversation.models c)) in
                let c :=
                  Conversation.set_models
                    (objSet model
                       (ModelData.Build (ModelData.count old + 1)
                          (ModelData.cost old + cost)%Qc
                          (Tokens.add (ModelData.tokens old) tokens))
                       (Conversation.models c))
                    c in
                let c :=
                  match truthy (Message.parentUUID m) with
                  | Some parent =>
                      Conversation.set_toolUsage
                        (attributeToolCost parent cost (Conversation.toolUsage c)) c
                  | None => c
                  end in
                let c :=
                  match burnSample (Message.timestamp m) (lastTimestamp st) tokens cost with
                  | Some sample =>
                      Conversation.set_tokenBurnRate
                        (Conversation.tokenBurnRate c ++ [sample]) c
                  | None => c
                  end in
                Return (MkParserState c (Message.timestamp m))
            end
        | _, _ => Return st
        end
    | None => Return st
    end
  else Return st.

(** Lines 438-454. *)
Definition pushMessage (m : Message.t) (c : Conversation.t) : Conversation.t :=
  Conversation.set_messages
    (Conversation.messages c ++
     [Entry.Build (Message.type m) (Message.timestamp m) (Message.parentUUID m)
        (Message.message m ≫= Payload.model) (Message.message m ≫= Payload.usage)
        (Message.text m)])
    c.

(** Lines 457-465. *)
Definition trackTimeRange (m : Message.t) (c : Conversation.t) : Conversation.t :=
  match Message.timestamp m with
  | Some t =>
      let c :=
        match Conversation.startTime c with
        | Some s => if decide (t < s) then Conversation.set_startTime (Some t) c else c
        | None => Conversation.set_startTime (Some t) c
        end in
      match Conversation.endTime c with
      | Some e => if decide (e < t) then Conversation.set_endTime (Some t) c else c
      | None => Conversation.set_endTime (Some t) c
      end
  | None => c
  end.

(** One iteration of [for await (const line of rl)], with its
    [try { ... } catch (e) { }]: what was assigned before an exception
    stays assigned, the rest of the iteration is skipped. *)
Definition processLine (pricing : gmap string Rate.t) (st : ParserState) (line : Line)
    : ParserState :=
  match line with
  | Malformed => st
  | JsonNull => st
  | Json m =>
      let c := extractSessionId m (conv st) in
      let c := extractMetadata m c in
      let c := captureFirstUserMessage m c in
      let c := recordToolUse m c in
      let st1 := MkParserState c (lastTimestamp st) in
      match processAssistant pricing m st1 with
      | Throw _ => st1
      | Return st2 =>
          MkParserState (trackTimeRange m (pushMessage m (conv st2))) (lastTimestamp st2)
      end
  end.

(** Lines 480-483. *)
Definition bestTitle (c : Conversation.t) : string :=
  let title :=
    if nonEmpty (Conversation.conversationTitle c) then Conversation.conversationTitle c
    else if nonEmpty (Conversation.summary c) then Conversation.summary c
    else if nonEmpty (Conversation.firstUserMessage c) then Conversation.firstUserMessage c
    else "Untitled conversation" in
  first100 (flattenNewlines title).

(** Lines 471-490, after the loop.  [conversationId] is
    [path.basename(filePath, '.jsonl')]. *)
Definition finish (conversationId : string) (c : Conversation.t) : Conversation.t :=
  let c :=
    match Conversation.endTime c, Conversation.startTime c with
    | Some e, Some s => Conversation.set_duration (minutesBetween e s) c
    | _, _ => c
    end in
  let c := Conversation.set_conversationId conversationId c in
  Conversation.set_conversationTitle (bestTitle c) c.

(** The loop over the lines of the file. *)
Definition parseLines (pricing : gmap string Rate.t) (lines : list Line) : ParserState :=
  foldl (processLine pricing) initialState lines.

(** [parseJSONLFile(filePath)] for a file that passes the path and size
    checks, as a function of its lines. *)
Definition parseJSONLFile (pricing : gmap string Rate.t) (conversationId : string)
    (lines : list Line) : Conversation.t :=
  finish conversationId (conv (parseLines pricing lines)).

(** ** ConversationMonitor: live updates *)

Module Update.
Record t : Type := Build
  { sessionId : string;
    timestamp : Z;
    type : option string;
    cost : option Qc;
    tokens : option Z;
    model : option string;
    tool : option string;
    text : option string }.
End Update.

(** The literal of lines 242-247. *)
Definition fallbackRate : Rate.t := Rate.Build (dec 3 1) (dec 15 1) (dec 375 100) (dec 3 10).

(** [pricing[model] || pricing.default || { ... }]. *)
Definition modelPricing (pricing : gmap string Rate.t) (model : string) : Rate.t :=
  match pricing !! model with
  | Some r => r
  | None => default fallbackRate (pricing !! "default")
  end.

(** Lines 229-272: the update made from one parsed line.  [now] is the
    reading of [Date.now()]. *)
Definition makeUpdate (pricing : gmap string Rate.t) (now : Z) (sessionId : string)
    (m : Message.t) : Update.t :=
  let timestamp := default now (Message.timestamp m) in
  let priced :=
    if isType m "assistant" then
      match Message.message m with
      | Some payload =>
          match Payload.usage payload, truthy (Payload.model payload) with
          | Some usage, Some model =>
              Some (costOf (modelPricing pricing model) usage,
                    Tokens.total (calculateTokens (Some usage)), model)
          | _, _ => None
          end
      | None => None
      end
    else None in
  Update.Build sessionId timestamp (Message.type m)
    (priced ≫= λ p, Some p.1.1) (priced ≫= λ p, Some p.1.2) (priced ≫= λ p, Some p.2)
    (if isType m "tool_use" then Message.tool_use m ≫= ToolUse.name else None)
    (if isType m "user" then first100 <$> truthy (Message.text m) else None).

(** [parseRecentUpdates(lines, sessionId)]: a line whose handler throws
    pushes nothing. *)
Definition parseRecentUpdates (pricing : gmap string Rate.t) (now : Z)
    (lines : list Line) (sessionId : string) : list Update.t :=
  omap (λ line,
          match line with
          | Json m => Some (makeUpdate pricing now sessionId m)
          | Malformed | JsonNull => None
          end) lines.

Module LiveBurn.
Record t : Type := Build { timestamp : Z; rate : Qc; tokens : Z }.
End LiveBurn.

Module Session.
Record t : Type := Build
  { sessionId : string;
    startTime : Z;
    lastUpdate : Z;
    totalCost : Qc;
    totalTokens : Z;
    messages : Z;
    tokenBurnRate : list LiveBurn.t;
    recentActivity : list Update.t }.

(** Lines 132-141. *)
Definition fresh (sessionId : string) (now : Z) : t :=
  Build sessionId now now 0%Qc 0 0 [] [].
End Session.

(** A number is truthy when it is not zero. *)
Definition truthyZ (x : option Z) : option Z :=
  match x with
  | Some n => if decide (n = 0) then None else Some n
  | None => None
  end.

Definition truthyQc (x : option Qc) : option Qc :=
  match x with
  | Some q => if decide (q = 0%Qc) then None else Some q
  | None => None
  end.

(** Lines 158-169: the sample pushed on [session.tokenBurnRate], if any. *)
Definition liveBurnSample (recentActivity : list Update.t) (update : Update.t)
    : option LiveBurn.t :=
  match last recentActivity with
  | Some lastActivity =>
      let timeDiff := minutesBetween (Update.timestamp update) (Update.timestamp lastActivity) in
      match truthyZ (Update.tokens update) with
      | Some tokens =>
          if decide (0 < timeDiff)%Qc then
            Some (LiveBurn.Build (Update.timestamp update) (Qc_of_Z tokens / timeDiff)%Qc tokens)
          else None
      | None => None
      end
  | None => None
  end.

(** Lines 146-173: the body of [updates.forEach]. *)
Definition applyUpdate (session : Session.t) (update : Update.t) : Session.t :=
  let totalCost :=
    match truthyQc (Update.cost update) with
    | Some c => (Session.totalCost session + c)%Qc
    | None => Session.totalCost session
    end in
  let totalTokens :=
    match truthyZ (Update.tokens update) with
    | Some n => Session.totalTokens session + n
    | None => Session.totalTokens session
    end in
  let messages :=
    if bool_decide (Update.type update = Some "assistant")
    then Session.messages session + 1 else Session.messages session in
  let tokenBurnRate :=
    match liveBurnSample (Session.recentActivity session) update with
    | Some sample => Session.tokenBurnRate session ++ [sample]
    | None => Session.tokenBurnRate session
    end in
  Session.Build (Session.sessionId session) (Session.startTime session)
    (Update.timestamp update) totalCost totalTokens messages tokenBurnRate
    (Session.recentActivity session ++ [update]).

(** Lines 175-178. *)
Definition keepRecentActivity (session : Session.t) : Session.t :=
  if decide (100 < length (Session.recentActivity session))%nat then
    Session.Build (Session.sessionId session) (Session.startTime session)
      (Session.lastUpdate session) (Session.totalCost session)
      (Session.totalTokens session) (Session.messages session)
      (Session.tokenBurnRate session) (lastN 100 (Session.recentActivity session))
  else session.

(** Lines 129-178 of [processFileUpdate]: the session map after the lines
    read from the file have been parsed into [updates]. *)
Definition recordUpdates (now : Z) (sessionId : string) (updates : list Update.t)
    (sessionData : gmap string Session.t) : gmap string Session.t :=
  match updates with
  | [] => sessionData
  | _ :: _ =>
      let session := default (Session.fresh sessionId now) (sessionData !! sessionId) in
      <[sessionId := keepRecentActivity (foldl applyUpdate session updates)]> sessionData
  end.

(** ** Alerts *)

(** [config.alerts]. *)
Module Thresholds.
Record t : Type := Build
  { enabled : bool;
    dailyCostThreshold : Qc;
    sessionCostThreshold : Qc;
    tokenBurnRateThreshold : Qc;
    soundEnabled : bool }.
End Thresholds.

(** The defaults of the ConfigManager constructor. *)
Definition defaultThresholds : Thresholds.t :=
  Thresholds.Build true (dec 10 1) (dec 2 1) (dec 10000 1) false.

(** An alert; its [message] text is a rendering of the other properties
    and is left out.  The monitor sets [sessionId], the ConfigManager sets
    [value] and [threshold]. *)
Module Alert.
Record t : Type := Build
  { type : string;
    severity : string;
    sessionId : option string;
    value : option Qc;
    threshold : option Qc }.
End Alert.

(** [a.reduce((sum, r) => sum + r.rate, 0)]. *)
Definition sumRates (samples : list LiveBurn.t) : Qc :=
  foldl (λ sum r, (sum + LiveBurn.rate r)%Qc) 0%Qc samples.

(** Line 301-302. *)
Definition recentAverageBurnRate (tokenBurnRate : list LiveBurn.t) : Qc :=
  let recentBurnRates := lastN 5 tokenBurnRate in
  (sumRates recentBurnRates / Qc_of_Z (Z.of_nat (length recentBurnRates)))%Qc.

(** [checkSessionAlerts(session)]: the alerts emitted on the ['alerts']
    event; nothing is emitted for an empty list. *)
Definition checkSessionAlerts (thresholds : Thresholds.t) (session : Session.t)
    : list Alert.t :=
  if Thresholds.enabled thresholds then
    let costAlerts :=
      if decide (Thresholds.sessionCostThreshold thresholds < Session.totalCost session)%Qc
      then [Alert.Build "session_cost" "warning" (Some (Session.sessionId session)) None None]
      else [] in
    let burnAlerts :=
      match Session.tokenBurnRate session with
      | [] => []
      | _ :: _ =>
          let avgBurnRate := recentAverageBurnRate (Session.tokenBurnRate session) in
          if decide (Thresholds.tokenBurnRateThreshold thresholds < avgBurnRate)%Qc
          then [Alert.Build "token_burn_rate" "critical"
                  (Some (Session.sessionId session)) None None]
          else []
      end in
    costAlerts ++ burnAlerts
  else [].

(** The argument of [ConfigManager.checkAlerts]. *)
Module Stats.
Record t : Type := Build { dailyCost : Qc; sessionCost : Qc; tokenBurnRate : Qc }.
End Stats.

(** [ConfigManager.checkAlerts(stats)]. *)
Definition checkAlerts (thresholds : Thresholds.t) (stats : Stats.t) : list Alert.t :=
  if Thresholds.enabled thresholds then
    (if decide (Thresholds.dailyCostThreshold thresholds < Stats.dailyCost stats)%Qc
     then [Alert.Build "daily_cost" "warning" None (Some (Stats.dailyCost stats))
             (Some (Thresholds.dailyCostThreshold thresholds))]
     else [])
    ++ (if decide (Thresholds.sessionCostThreshold thresholds < Stats.sessionCost stats)%Qc
        then [Alert.Build "session_cost" "warning" None (Some (Stats.sessionCost stats))
                (Some (Thresholds.sessionCostThreshold thresholds))]
        else [])
    ++ (if decide (Thresholds.tokenBurnRateThreshold thresholds < Stats.tokenBurnRate stats)%Qc
        then [Alert.Build "token_burn_rate" "critical" None (Some (Stats.tokenBurnRate stats))
                (Some (Thresholds.tokenBurnRateThreshold thresholds))]
        else [])
  else [].

(** The snapshot returned by [getSessionStats]. *)
Module SessionStats.
Record t : Type := Build
  { sessionId : string;
    startTime : Z;
    lastUpdate : Z;
    duration : Qc;
    totalCost : Qc;
    totalTokens : Z;
    messages : Z;
    avgBurnRate : Qc;
    costPerMinute : Qc;
    tokensPerMinute : Qc;
    recentActivity : list Update.t;
    burnRateHistory : list LiveBurn.t }.
End SessionStats.

(** [getSessionStats(sessionId)], [None] for [null]. *)
Definition getSessionStats (sessionData : gmap string Session.t) (sessionId : string)
    : option SessionStats.t :=
  match sessionData !! sessionId with
  | None => None
  | Some session =>
      let duration := minutesBetween (Session.lastUpdate session) (Session.startTime session) in
      let avgBurnRate :=
        match Session.tokenBurnRate session with
        | [] => 0%Qc
        | _ :: _ =>
            (sumRates (Session.tokenBurnRate session)
             / Qc_of_Z (Z.of_nat (length (Session.tokenBurnRate session))))%Qc
        end in
      Some (SessionStats.Build (Session.sessionId session) (Session.startTime session)
              (Session.lastUpdate session) duration (Session.totalCost session)
              (Session.totalTokens session) (Session.messages session) avgBurnRate
              (if decide (0 < duration)%Qc then (Session.totalCost session / duration)%Qc
               else 0%Qc)
              (if decide (0 < duration)%Qc
               then (Qc_of_Z (Session.totalTokens session) / duration)%Qc else 0%Qc)
              (lastN 10 (Session.recentActivity session))
              (lastN 20 (Session.tokenBurnRate session)))
  end.

(** ** ConversationAnalyzer *)

(** [a.sort(cmp)], a stable sort: [cmpLe x y] tells whether
    [cmp(x, y) <= 0], that is, whether [x] may stay in front of [y]. *)
Fixpoint insertSorted {A : Type} (cmpLe : A → A → bool) (x : A) (l : list A) : list A :=
  match l with
  | [] => [x]
  | y :: rest => if cmpLe x y then x :: y :: rest else y :: insertSorted cmpLe x rest
  end.

Definition sortBy {A : Type} (cmpLe : A → A → bool) (l : list A) : list A :=
  foldr (insertSorted cmpLe) [] l.

(** [(a, b) => key(b) - key(a)]: descending. *)
Definition descQc {A : Type} (key : A → Qc) (a b : A) : bool :=
  bool_decide (key b - key a ≤ 0)%Qc.
Definition descZ {A : Type} (key : A → Z) (a b : A) : bool :=
  bool_decide (key b - key a ≤ 0).
(** [(a, b) => key(a) - key(b)]: ascending. *)
Definition ascZ {A : Type} (key : A → Z) (a b : A) : bool :=
  bool_decide (key a - key b ≤ 0).

(** [a.reduce((sum, c) => sum + f(c), 0)]. *)
Definition sumQc {A : Type} (f : A → Qc) (l : list A) : Qc :=
  foldl (λ sum c, (sum + f c)%Qc) 0%Qc l.
Definition sumZ {A : Type} (f : A → Z) (l : list A) : Z :=
  foldl (λ sum c, sum + f c) 0 l.

Definition getConversationsWithCosts (conversations : list Conversation.t)
    : list Conversation.t :=
  sortBy (descQc Conversation.totalCost)
    (filter (λ c, (0 < Conversation.totalCost c)%Qc) conversations).

Module TotalStats.
Record t : Type := Build
  { totalCost : Qc;
    totalTokens : Z;
    totalMessages : Z;
    totalDuration : Qc;
    conversationCount : nat;
    averageCost : Qc;
    averageTokens : Qc;
    averageDuration : Qc }.
End TotalStats.

Definition getTotalStats (conversations : list Conversation.t) : TotalStats.t :=
  let conversationsWithCosts := getConversationsWithCosts conversations in
  let totalCost := sumQc Conversation.totalCost conversationsWithCosts in
  let totalTokens :=
    sumZ (λ c, Tokens.total (Conversation.totalTokens c)) conversationsWithCosts in
  let totalMessages := sumZ Conversation.messageCount conversationsWithCosts in
  let totalDuration := sumQc Conversation.duration conversationsWithCosts in
  let n := length conversationsWithCosts in
  let count := Qc_of_Z (Z.of_nat n) in
  TotalStats.Build totalCost totalTokens totalMessages totalDuration n
    (if decide (0 < n)%nat then (totalCost / count)%Qc else 0%Qc)
    (if decide (0 < n)%nat then (Qc_of_Z totalTokens / count)%Qc else 0%Qc)
    (if decide (0 < n)%nat then (totalDuration / count)%Qc else 0%Qc).

Module HourBucket.
Record t : Type := Build
  { hour : Z; totalCost : Qc; totalTokens : Z; conversationCount : Z }.
End HourBucket.

(** [Object.values(o)] of an object whose keys are array indices: the
    values in ascending order of the keys. *)
Definition indexValues {V : Type} (o : gmap Z V) : list V :=
  (sortBy (ascZ fst) (map_to_list o)).*2.

Section Hourly.
(** [date.getHours()], the hour of the day in the local time zone. *)
Variable getHours : Z → Z.

(** Lines 108-123. *)
Definition addHourly (hourlyCosts : gmap Z HourBucket.t) (conv : Conversation.t)
    : gmap Z HourBucket.t :=
  if decide (0 < Conversation.totalCost conv)%Qc then
    match Conversation.startTime conv with
    | Some start =>
        let hour := getHours start in
        let old := default (HourBucket.Build hour 0%Qc 0 0) (hourlyCosts !! hour) in
        <[hour :=
            HourBucket.Build (HourBucket.hour old)
              (HourBucket.totalCost old + Conversation.totalCost conv)%Qc
              (HourBucket.totalTokens old + Tokens.total (Conversation.totalTokens conv))
              (HourBucket.conversationCount old + 1)]> hourlyCosts
    | None => hourlyCosts
    end
  else hourlyCosts.

(** Lines 126-130: one iteration of the loop that fills the missing hours. *)
Definition fillHour (hourlyCosts : gmap Z HourBucket.t) (i : Z) : gmap Z HourBucket.t :=
  match hourlyCosts !! i with
  | Some _ => hourlyCosts
  | None => <[i := HourBucket.Build i 0%Qc 0 0]> hourlyCosts
  end.

Definition aggregateHourlyCosts (conversations : list Conversation.t)
    : list HourBucket.t :=
  let hourlyCosts := foldl addHourly ∅ conversations in
  let hourlyCosts := foldl fillHour hourlyCosts (seqZ 0 24) in
  sortBy (ascZ HourBucket.hour) (indexValues hourlyCosts).
End Hourly.

Module ToolAgg.
Record t : Type := Build
  { name : string; totalCount : Z; totalCost : Qc; totalErrors : Z; conversations : Z }.
End ToolAgg.

(** Lines 139-153: the body of the inner [forEach]. *)
Definition addTool (toolUsage : list (string * ToolAgg.t)) (entry : string * ToolData.t)
    : list (string * ToolAgg.t) :=
  let '(toolName, toolData) := entry in
  let old := default (ToolAgg.Build toolName 0 0%Qc 0 0) (objGet toolName toolUsage) in
  objSet toolName
    (ToolAgg.Build (ToolAgg.name old)
       (ToolAgg.totalCount old + ToolData.count toolData)
       (ToolAgg.totalCost old + ToolData.totalCost toolData)%Qc
       (ToolAgg.totalErrors old + ToolData.errors toolData)
       (ToolAgg.conversations old + 1))
    toolUsage.

(** The object [toolUsage] at line 155. *)
Definition toolTotals (conversations : list Conversation.t) : list (string * ToolAgg.t) :=
  foldl (λ acc conv, foldl addTool acc (Conversation.toolUsage conv)) [] conversations.

Definition aggregateToolUsage (conversations : list Conversation.t) : list ToolAgg.t :=
  sortBy (descZ ToolAgg.totalCount) (toolTotals conversations).*2.

Module ModelAgg.
Record t : Type := Build
  { model : string; totalCount : Z; totalCost : Qc; totalTokens : Tokens.t;
    conversations : Z }.
End ModelAgg.

(** Lines 163-181. *)
Definition addModel (modelUsage : list (string * ModelAgg.t)) (entry : string * ModelData.t)
    : list (string * ModelAgg.t) :=
  let '(model, data) := entry in
  let old := default (ModelAgg.Build model 0 0%Qc Tokens.zero 0) (objGet model modelUsage) in
  objSet model
    (ModelAgg.Build (ModelAgg.model old)
       (ModelAgg.totalCount old + ModelData.count data)
       (ModelAgg.totalCost old + ModelData.cost data)%Qc
       (Tokens.add (ModelAgg.totalTokens old) (ModelData.tokens data))
       (ModelAgg.conversations old + 1))
    modelUsage.

Definition modelTotals (conversations : list Conversation.t) : list (string * ModelAgg.t) :=
  foldl (λ acc conv, foldl addModel acc (Conversation.models conv)) [] conversations.

Definition aggregateModelUsage (conversations : list Conversation.t) : list ModelAgg.t :=
  sortBy (descQc ModelAgg.totalCost) (modelTotals conversations).*2.

(** [{ count, cost }] of the per-project breakdowns. *)
Module CountCost.
Record t : Type := Build { count : Z; cost : Qc }.
End CountCost.

Module ProjectStats.
Record t : Type := Build
  { name : string;
    totalCost : Qc;
    totalTokens : Z;
    conversationCount : Z;
    totalDuration : Qc;
    toolUsage : list (string * CountCost.t);
    models : list (string * CountCost.t) }.
End ProjectStats.

(** Lines 339-345 and 348-354. *)
Definition addCountCost (o : list (string * CountCost.t)) (key : string) (count : Z)
    (cost : Qc) : list (string * CountCost.t) :=
  let old := default (CountCost.Build 0 0%Qc) (objGet key o) in
  objSet key (CountCost.Build (CountCost.count old + count) (CountCost.cost old + cost)%Qc) o.

(** Lines 319-355: the body of the [forEach]. *)
Definition addProject (projectStats : list (string * ProjectStats.t))
    (conv : Conversation.t) : list (string * ProjectStats.t) :=
  let name := Conversation.projectName conv in
  let project :=
    default (ProjectStats.Build name 0%Qc 0 0 0%Qc [] []) (objGet name projectStats) in
  objSet name
    (ProjectStats.Build (ProjectStats.name project)
       (ProjectStats.totalCost project + Conversation.totalCost conv)%Qc
       (ProjectStats.totalTokens project + Tokens.total (Conversation.totalTokens conv))
       (ProjectStats.conversationCount project + 1)
       (ProjectStats.totalDuration project + Conversation.duration conv)%Qc
       (foldl (λ o e, addCountCost o e.1 (ToolData.count e.2) (ToolData.totalCost e.2))
          (ProjectStats.toolUsage project) (Conversation.toolUsage conv))
       (foldl (λ o e, addCountCost o e.1 (ModelData.count e.2) (ModelData.cost e.2))
          (ProjectStats.models project) (Conversation.models conv)))
    projectStats.

Definition projectTotals (conversations : list Conversation.t)
    : list (string * ProjectStats.t) :=
  foldl addProject [] conversations.

Definition getProjectStats (conversations : list Conversation.t) : list ProjectStats.t :=
  sortBy (descQc ProjectStats.totalCost) (projectTotals conversations).*2.

(** ** SecurityUtils.safeMerge and ConfigManager.deepMerge *)

(** A value produced by [JSON.parse]. *)
#[warnings="-register-all"]
Inductive JsValue : Type :=
| JNull
| JBool (b : bool)
| JNum (n : Qc)
| JStr (s : string)
| JArr (items : list JsValue)
| JObj (fields : list (string * JsValue)).

(** The own enumerable properties of a value whose [typeof] is ['object'],
    as [{ ...value }] copies them: the fields of an object, the elements of
    an array under their indices. *)
Definition ownProperties (v : JsValue) : list (string * JsValue) :=
  match v with
  | JObj fields => fields
  | JArr items => imap (λ i item, (pretty i, item)) items
  | _ => []
  end.

(** [v && typeof v === 'object']. *)
Definition isObjectLike (v : JsValue) : bool :=
  match v with
  | JObj _ | JArr _ => true
  | _ => false
  end.

Definition forbidden : list string := ["__proto__"; "constructor"; "prototype"].

Definition isForbidden (key : string) : bool := bool_decide (key ∈ forbidden).

(** Lines 111-125 of security.js, the body of [for (const key in source)]
    for one property of the source; [merge] is the recursive call. *)
Definition mergeProperty
    (merge : list (string * JsValue) → JsValue → list (string * JsValue))
    (target output : list (string * JsValue)) (key : string) (value : JsValue)
    : list (string * JsValue) :=
  if isForbidden key then output
  else
    match value with
    | JObj _ =>
        match objGet key target with
        | Some targetValue =>
            if isObjectLike targetValue then
              objSet key (JObj (merge (ownProperties targetValue) value)) output
            else objSet key value output
        | None => objSet key value output
        end
    | _ => objSet key value output
    end.

(** [safeMerge(target, source)], lines 101-129 of security.js; [target] is
    given by its own properties and [output] starts as [{ ...target }]. *)
Fixpoint safeMerge (target : list (string * JsValue)) (source : JsValue) {struct source}
    : list (string * JsValue) :=
  match source with
  | JObj fields =>
      foldl (λ output entry, mergeProperty safeMerge target output entry.1 entry.2)
        target fields
  | _ => target
  end.

(** [ConfigManager.deepMerge]. *)
Definition deepMerge (target : list (string * JsValue)) (source : JsValue)
    : list (string * JsValue) :=
  safeMerge target source.

(** The [defaults] of the ConfigManager constructor. *)
Definition configDefaults : list (string * JsValue) :=
  [ ("alerts",
     JObj [ ("enabled", JBool true);
            ("dailyCostThreshold", JNum (dec 10 1));
            ("sessionCostThreshold", JNum (dec 2 1));
            ("tokenBurnRateThreshold", JNum (dec 10000 1));
            ("soundEnabled", JBool false) ]);
    ("display",
     JObj [ ("currency", JStr "USD");
            ("currencySymbol", JStr "$");
            ("dateFormat", JStr "MM/DD/YYYY");
            ("timeFormat", JStr "12h");
            ("theme", JStr "light");
            ("chartAnimations", JBool true) ]);
    ("export",
     JObj [ ("defaultFormat", JStr "html");
            ("includeRawData", JBool false);
            ("compressOutput", JBool false) ]);
    ("monitoring",
     JObj [ ("autoRefresh", JBool false);
            ("refreshInterval", JNum (dec 300 1));
            ("showNotifications", JBool true) ]);
    ("filters",
     JObj [ ("defaultDateRange", JNum (dec 30 1));
            ("excludeZeroCostConversations", JBool true);
            ("minConversationDuration", JNum (dec 0 1)) ]);
    ("pricing",
     JObj [ ("customPricing", JObj []);
            ("useCachedPricing", JBool true) ]) ].

(** Whether a forbidden key occurs as a property name anywhere in a value. *)
Fixpoint carriesForbiddenKey (v : JsValue) : bool :=
  match v with
  | JObj fields =>
      (fix any (entries : list (string * JsValue)) : bool :=
         match entries with
         | [] => false
         | (key, value) :: rest =>
             isForbidden key || carriesForbiddenKey value || any rest
         end) fields
  | JArr items =>
      (fix any (elements : list JsValue) : bool :=
         match elements with
         | [] => false
         | value :: rest => carriesForbiddenKey value || any rest
         end) items
  | _ => false
  end.

(** ** Readings of a log used to state the properties *)

(** The lines on which [JSON.parse] gave a value with properties. *)
Definition parsedObjects (lines : list Line) : list Message.t :=
  omap (λ line, match line with Json m => Some m | Malformed | JsonNull => None end) lines.

Definition threadSummaryOf (m : Message.t) : option string :=
  if isType m "summary"
  then Message.metadata m ≫= λ md, truthy (Metadata.thread_summary md)
  else None.

Definition summaryFieldOf (m : Message.t) : option string :=
  if isType m "summary"
  then Message.metadata m ≫= λ md, truthy (Metadata.summary md)
  else None.

Definition summaryTextOf (m : Message.t) : option string :=
  if isType m "summary" then truthy (Message.summary m) else None.

Definition userTextOf (m : Message.t) : option string :=
  if isType m "user" then first100 <$> truthy (Message.text m) else None.

(** [o1 || o2] on optional strings. *)
Definition orElse (a b : option string) : option string :=
  match a with
  | Some _ => a
  | None => b
  end.

Definition fallbackTitle : string := "Untitled conversation".

(** The title policy in the words of the specification: thread-summary
    metadata, then summary-field metadata, then the running summary text,
    then the first user message cut to 100 characters, then the literal;
    newlines flattened, cut to 100 characters. *)
Definition claimedTitle (ms : list Message.t) : string :=
  first100
    (flattenNewlines
       (default fallbackTitle
          (orElse (last (omap threadSummaryOf ms))
             (orElse (last (omap summaryFieldOf ms))
                (orElse (last (omap summaryTextOf ms)) (head (omap userTextOf ms))))))).

(** The metadata title that one summary line assigns: its summary field,
    and its thread summary only when it has no summary field. *)
Definition metadataTitleOf (m : Message.t) : option string :=
  orElse (summaryFieldOf m) (threadSummaryOf m).

(** The title policy of the code: the metadata title assigned last, then
    the running summary text, then the first user message cut to 100
    characters, then the literal. *)
Definition resolvedTitle (ms : list Message.t) : string :=
  first100
    (flattenNewlines
       (default fallbackTitle
          (orElse (last (omap metadataTitleOf ms))
             (orElse (last (omap summaryTextOf ms)) (head (omap userTextOf ms)))))).

(** What an assistant line is billed, when it bears a cost: its cost and
    its token record. *)
Definition billed (pricing : gmap string Rate.t) (m : Message.t) : option (Qc * Tokens.t) :=
  if isType m "assistant" then
    payload ← Message.message m;
    usage ← Payload.usage payload;
    model ← truthy (Payload.model payload);
    rate ← resolvePricing pricing model;
    Some (costOf rate usage, calculateTokens (Some usage))
  else None.

Definition costBearing (pricing : gmap string Rate.t) (line : Line) : bool :=
  match line with
  | Json m => bool_decide (is_Some (billed pricing m))
  | Malformed | JsonNull => false
  end.

(** The three properties of the conversation that the title is made of. *)
Definition titleFields (c : Conversation.t) : string * string * string :=
  (Conversation.conversationTitle c, Conversation.summary c,
   Conversation.firstUserMessage c).

(** Their change over one parsed line, read off the line. *)
Definition titleStep (m : Message.t) (fields : string * string * string)
    : string * string * string :=
  (default fields.1.1 (metadataTitleOf m),
   default fields.1.2 (summaryTextOf m),
   if nonEmpty fields.2 then fields.2 else default fields.2 (userTextOf m)).

(** Whether a character occurs in a string. *)
Fixpoint occursIn (c : ascii) (s : string) : bool :=
  match s with
  | EmptyString => false
  | String c' rest => Ascii.eqb c' c || occursIn c rest
  end.

(** A summary line that carries both a thread summary and a summary field
    in its metadata. *)
Definition summaryLineWithBothTitles : Message.t :=
  Message.Build (Some "summary") None None None None
    (Some (Metadata.Build None None (Some "Thread title") (Some "Summary title")))
    None None None.

(** A rate that is a token count divided by a strictly positive number of
    minutes. *)
Definition wellFormedRate (rate : Qc) (tokens : Z) : Prop :=
  ∃ delta : Qc, (0 < delta)%Qc ∧ rate = (Qc_of_Z tokens / delta)%Qc.

(** An assistant line of a given instant and input token count. *)
Definition assistantLine (timestamp : Z) (inputTokens : Z) : Message.t :=
  Message.Build (Some "assistant") (Some timestamp) None None None None None
    (Some (Payload.Build (Some "claude-sonnet-4-20250514")
             (Some (Usage.Build (Some inputTokens) None None None))))
    None.

(** A user line of a given instant. *)
Definition userLine (timestamp : Z) (text : string) : Message.t :=
  Message.Build (Some "user") (Some timestamp) None None None None (Some text) None None.

(** Persisted settings with a [__proto__] property inside a custom pricing
    entry, as [JSON.parse] gives them. *)
Definition settingsWithNestedProto : JsValue :=
  JObj [ ("pricing",
          JObj [ ("customPricing",
                  JObj [ ("my-model",
                          JObj [ ("__proto__", JObj [ ("polluted", JBool true) ]);
                                 ("input", JNum (dec 1 1)) ]) ]) ]) ].

(** The property of a value at a path of keys. *)
Fixpoint atPath (path : list string) (v : JsValue) : option JsValue :=
  match path with
  | [] => Some v
  | key :: rest => objGet key (ownProperties v) ≫= atPath rest
  end.

(** The tail of a log file that is read again at every change of the
    file: two assistant lines one minute apart. *)
Definition twoLineTail : list Line :=
  [Json (assistantLine 0 1000); Json (assistantLine 60000 1000)].

(** [processFileUpdate] run once for each reading of the tail of the file
    of one session. *)
Definition processFileUpdates (pricing : gmap string Rate.t) (now : Z) (sessionId : string)
    (readings : list (list Line)) (sessionData : gmap string Session.t)
    : gmap string Session.t :=
  foldl (λ data lines,
           recordUpdates now sessionId (parseRecentUpdates pricing now lines sessionId) data)
    sessionData readings.

(** A session whose five burn-rate samples are all of 12000 tokens per
    minute. *)
Definition hotSession : Session.t :=
  Session.Build "s" 0 300000 0%Qc 0 0
    (replicate 5 (LiveBurn.Build 60000 (dec 12000 1) 12000)) [].

(** A session whose last sample alone is above 10000 tokens per minute. *)
Definition spikeSession : Session.t :=
  Session.Build "s" 0 300000 0%Qc 0 0
    (replicate 4 (LiveBurn.Build 60000 (dec 1000 1) 1000)
     ++ [LiveBurn.Build 120000 (dec 20000 1) 20000]) [].

(** The hour under which [aggregateHourlyCosts] counts a conversation, if
    it counts it. *)
Definition bucketHour (getHours : Z → Z) (conv : Conversation.t) : option Z :=
  if decide (0 < Conversation.totalCost conv)%Qc
  then getHours <$> Conversation.startTime conv
  else None.

(** The hour of the day in UTC of an instant in milliseconds. *)
Definition utcHours (t : Z) : Z := (t `div` 3600000) `mod` 24.

(** A conversation of a given start, cost and project, everything else as
    in the initial literal. *)
Definition sampleConversation (start : Z) (cost : Qc) (project : string) : Conversation.t :=
  Conversation.set_projectName project
    (Conversation.set_startTime (Some start)
       (Conversation.set_totalCost cost Conversation.initial)).

(** Two objects with the same properties, whatever the order in which the
    properties were added. *)
Definition objEquiv {V : Type} (o o' : list (string * V)) : Prop :=
  ∀ k, objGet k o = objGet k o'.

(** The totals of a project record, without its two breakdowns. *)
Definition projectScalars (p : ProjectStats.t) : string * Qc * Z * Z * Qc :=
  (ProjectStats.name p, ProjectStats.totalCost p, ProjectStats.totalTokens p,
   ProjectStats.conversationCount p, ProjectStats.totalDuration p).

(** Two project records with the same totals and the same entries in
    their per-tool and per-model breakdowns. *)
Definition sameProject (p p' : ProjectStats.t) : Prop :=
  projectScalars p = projectScalars p'
  ∧ objEquiv (ProjectStats.toolUsage p) (ProjectStats.toolUsage p')
  ∧ objEquiv (ProjectStats.models p) (ProjectStats.models p').

Definition sameProjects (o o' : list (string * ProjectStats.t)) : Prop :=
  ∀ k, option_Forall2 sameProject (objGet k o) (objGet k o').

(** Two conversations of two projects that share a tool and a model. *)
Definition conversationA : Conversation.t :=
  Conversation.set_toolUsage
    [("Bash", ToolData.Build 2 (dec 1 4) 0 []); ("Read", ToolData.Build 1 (dec 1 8) 0 [])]
    (Conversation.set_models
       [("claude-sonnet-4-20250514",
         ModelData.Build 3 (dec 1 2) (Tokens.Build 1000 400 600 0 0))]
       (Conversation.set_totalTokens (Tokens.Build 1000 400 600 0 0)
          (sampleConversation 0 (dec 1 2) "alpha"))).

Definition conversationB : Conversation.t :=
  Conversation.set_toolUsage
    [("Read", ToolData.Build 4 (dec 1 2) 0 []); ("Bash", ToolData.Build 1 (dec 1 4) 0 [])]
    (Conversation.set_models
       [("claude-sonnet-4-20250514",
         ModelData.Build 5 (dec 3 4) (Tokens.Build 2000 1500 500 0 0))]
       (Conversation.set_totalTokens (Tokens.Build 2000 1500 500 0 0)
          (sampleConversation 7200000 (dec 3 4) "beta"))).

(** The step of the two per-project breakdowns, for entries of any kind. *)
Definition addBreakdown {E : Type} (key : E → string) (count : E → Z) (cost : E → Qc)
    (o : list (string * CountCost.t)) (e : E) : list (string * CountCost.t) :=
  addCountCost o (key e) (count e) (cost e).

(** A token record whose total is the sum of its four components. *)
Definition balanced (t : Tokens.t) : Prop :=
  Tokens.total t
  = Tokens.input t + Tokens.output t + Tokens.cacheWrite t + Tokens.cacheRead t.

(** ** SecurityUtils: strings *)

Definition doubleQuote : ascii := ascii_of_nat 34.

(** [s.replace(/c/g, r)] for one character [c]. *)
Fixpoint replaceChar (c : ascii) (r : string) (s : string) : string :=
  match s with
  | EmptyString => EmptyString
  | String c' rest =>
      if Ascii.eqb c' c then String.append r (replaceChar c r rest)
      else String c' (replaceChar c r rest)
  end.

(** [escapeHtml(unsafe)], lines 10-21 of security.js. *)
Definition escapeHtml (unsafe : JsValue) : string :=
  match unsafe with
  | JStr s =>
      replaceChar "/" "&#x2F;"
        (replaceChar "'" "&#039;"
           (replaceChar doubleQuote "&quot;"
              (replaceChar ">" "&gt;"
                 (replaceChar "<" "&lt;" (replaceChar "&" "&amp;" s)))))
  | _ => ""
  end.

(** [s.replace(/[...]/g, '')] for a class of characters. *)
Fixpoint removeChars (bad : ascii → bool) (s : string) : string :=
  match s with
  | EmptyString => EmptyString
  | String c rest => if bad c then removeChars bad rest else String c (removeChars bad rest)
  end.

(** [s.replace(/[...]/g, r)] for a class of characters and one character [r]. *)
Fixpoint replaceChars (bad : ascii → bool) (r : ascii) (s : string) : string :=
  match s with
  | EmptyString => EmptyString
  | String c rest => String (if bad c then r else c) (replaceChars bad r rest)
  end.

(** The class [;&|`$<>\] of line 190. *)
Definition isShellMeta (c : ascii) : bool :=
  bool_decide (c ∈ [";"; "&"; "|"; "`"; "$"; "<"; ">"; "\"]%char).

(** [sanitizeShellArg(arg)], lines 184-191. *)
Definition sanitizeShellArg (arg : JsValue) : string :=
  match arg with
  | JStr s => removeChars isShellMeta s
  | _ => ""
  end.

Definition inRange (lo hi c : ascii) : bool :=
  (nat_of_ascii lo <=? nat_of_ascii c)%nat && (nat_of_ascii c <=? nat_of_ascii hi)%nat.

(** The class [a-zA-Z0-9._-] of line 92. *)
Definition isFilenameChar (c : ascii) : bool :=
  inRange "a" "z" c || inRange "A" "Z" c || inRange "0" "9" c
  || Ascii.eqb c "." || Ascii.eqb c "_" || Ascii.eqb c "-".

(** [sanitizeFilename(filename)], lines 83-93; [basename] is
    [path.basename]. *)
Definition sanitizeFilename (basename : string → string) (filename : JsValue) : string :=
  match filename with
  | JStr s =>
      if nonEmpty s then replaceChars (λ c, negb (isFilenameChar c)) "_" (basename s)
      else "unknown"
  | _ => "unknown"
  end.

(** The class [\w]. *)
Definition isWordChar (c : ascii) : bool :=
  inRange "a" "z" c || inRange "A" "Z" c || inRange "0" "9" c || Ascii.eqb c "_".

(** The longest prefix of characters of a class. *)
Fixpoint takeWhileChars (p : ascii → bool) (s : string) : string :=
  match s with
  | EmptyString => EmptyString
  | String c rest => if p c then String c (takeWhileChars p rest) else EmptyString
  end.

(** [text.match(/^\/(\w+)/)] of line 362 of the parser: the first group of
    the match, if the text matches. *)
Definition matchCommand (text : string) : option string :=
  match text with
  | String c rest =>
      if Ascii.eqb c "/" then
        let word := takeWhileChars isWordChar rest in
        if nonEmpty word then Some word else None
      else None
  | EmptyString => None
  end.

(** Readings of strings used to state the properties. *)

(** The entity that stands for a character in escaped HTML. *)
Definition htmlEntity (c : ascii) : string :=
  if Ascii.eqb c "&" then "&amp;"
  else if Ascii.eqb c "<" then "&lt;"
  else if Ascii.eqb c ">" then "&gt;"
  else if Ascii.eqb c doubleQuote then "&quot;"
  else if Ascii.eqb c "'" then "&#039;"
  else if Ascii.eqb c "/" then "&#x2F;"
  else String c EmptyString.

(** A string with every character replaced by a string. *)
Fixpoint expandChars (f : ascii → string) (s : string) : string :=
  match s with
  | EmptyString => EmptyString
  | String c rest => String.append (f c) (expandChars f rest)
  end.

(** Whether every character of a string is of a class. *)
Fixpoint allChars (p : ascii → bool) (s : string) : bool :=
  match s with
  | EmptyString => true
  | String c rest => p c && allChars p rest
  end.

(** ** SecurityUtils.createRateLimiter *)

(** Lines 166-173: the periodic removal of the keys all of whose recorded
    times are out of the window. *)
Definition cleanupRequests (windowMs now : Z) (requests : gmap string (list Z))
    : gmap string (list Z) :=
  if decide (1000 < size requests)%nat then
    filter (λ kv, ¬ Forall (λ time, windowMs ≤ now - time) kv.2) requests
  else requests.

(** One call [rateLimiter(key)] of the closure returned by
    [createRateLimiter(maxRequests, windowMs)], lines 152-176: whether the
    request is allowed, and the map [requests] after the call.  [now] is
    the reading of [Date.now()]. *)
Definition rateLimiter (maxRequests windowMs : Z) (now : Z) (key : string)
    (requests : gmap string (list Z)) : bool * gmap string (list Z) :=
  let userRequests := default [] (requests !! key) in
  let validRequests := filter (λ time, now - time < windowMs) userRequests in
  if decide (maxRequests ≤ Z.of_nat (length validRequests)) then (false, requests)
  else
    let requests := <[key := validRequests ++ [now]]> requests in
    (true, cleanupRequests windowMs now requests).

(** A run of calls on a limiter that starts with an empty map: the allowed
    calls, with their key and instant, and the map at the end. *)
Definition runRateLimiter (maxRequests windowMs : Z) (calls : list (Z * string))
    : list (string * Z) * gmap string (list Z) :=
  foldl (λ acc call,
           let '(allowed, requests) :=
             rateLimiter maxRequests windowMs call.1 call.2 acc.2 in
           (if allowed then acc.1 ++ [(call.2, call.1)] else acc.1, requests))
    ([], ∅) calls.

(** The instants at which a key was allowed inside the window that ends
    at [now]. *)
Definition allowedInWindow (windowMs now : Z) (key : string) (log : list (string * Z))
    : list Z :=
  filter (λ time, now - time < windowMs)
    (omap (λ entry, if decide (entry.1 = key) then Some entry.2 else None) log).

(** ** Readings of a log file used to state further properties *)

(** The cost and the tokens that a line adds to the conversation. *)
Definition lineCost (pricing : gmap string Rate.t) (line : Line) : Qc :=
  match line with
  | Json m => default 0%Qc (fst <$> billed pricing m)
  | Malformed | JsonNull => 0%Qc
  end.

Definition lineTokens (pricing : gmap string Rate.t) (line : Line) : Tokens.t :=
  match line with
  | Json m => default Tokens.zero (snd <$> billed pricing m)
  | Malformed | JsonNull => Tokens.zero
  end.

(** Whether the handler of a parsed line throws in [calculateCost]: an
    assistant line with usage and model, for a table without the model and
    without ['default']. *)
Definition throwsInCost (pricing : gmap string Rate.t) (m : Message.t) : bool :=
  if isType m "assistant" then
    match Message.message m with
    | Some payload =>
        match Payload.usage payload, truthy (Payload.model payload) with
        | Some _, Some model => bool_decide (resolvePricing pricing model = None)
        | _, _ => false
        end
    | None => false
    end
  else false.

(** The lines whose handler runs to its end. *)
Definition storedObjects (pricing : gmap string Rate.t) (lines : list Line)
    : list Message.t :=
  filter (λ m, throwsInCost pricing m = false) (parsedObjects lines).

(** The element of [messages] made from a line. *)
Definition entryOf (m : Message.t) : Entry.t :=
  Entry.Build (Message.type m) (Message.timestamp m) (Message.parentUUID m)
    (Message.message m ≫= Payload.model) (Message.message m ≫= Payload.usage)
    (Message.text m).

(** A tool-use line. *)
Definition toolUseLine (timestamp : Z) (id name : string) : Message.t :=
  Message.Build (Some "tool_use") (Some timestamp) None None None None None None
    (Some (ToolUse.Build (Some id) (Some name))).

(** The projections of a token record, which the parser adds one by one. *)
Definition tokenFields : list (Tokens.t → Z) :=
  [Tokens.total; Tokens.input; Tokens.output; Tokens.cacheWrite; Tokens.cacheRead].

(** The per-model figures of a conversation add up to its totals. *)
Definition modelsAgree (c : Conversation.t) : Prop :=
  sumQc (λ kv, ModelData.cost kv.2) (Conversation.models c) = Conversation.totalCost c
  ∧ sumZ (λ kv, ModelData.count kv.2) (Conversation.models c) = Conversation.messageCount c
  ∧ ∀ p, p ∈ tokenFields →
      sumZ (λ kv, p (ModelData.tokens kv.2)) (Conversation.models c)
      = p (Conversation.totalTokens c).

Definition toolsCounted (n : nat) (tools : list (string * ToolData.t)) : Prop :=
  sumZ (λ kv, ToolData.count kv.2) tools = Z.of_nat n
  ∧ Forall (λ kv, ToolData.errors kv.2 = 0
                  ∧ ToolData.count kv.2 = Z.of_nat (length (ToolData.executions kv.2))
                  ∧ 0 < ToolData.count kv.2) tools
  ∧ NoDup tools.*1.

Definition toolCostBounded (c : Conversation.t) : Prop :=
  (0 ≤ sumQc (λ kv, ToolData.totalCost kv.2) (Conversation.toolUsage c))%Qc
  ∧ (sumQc (λ kv, ToolData.totalCost kv.2) (Conversation.toolUsage c)
     ≤ Conversation.totalCost c)%Qc.

Definition spans (ts : list Z) (startTime endTime : option Z) : Prop :=
  match startTime, endTime with
  | Some s, Some e => s ∈ ts ∧ e ∈ ts ∧ Forall (λ t, s ≤ t ≤ e) ts
  | None, None => ts = []
  | _, _ => False
  end.

(** [update.cost] and [update.tokens] as the numbers that [+=] adds: nothing
    for a property that is absent. *)
Definition updateCost (update : Update.t) : Qc := default 0%Qc (Update.cost update).
Definition updateTokens (update : Update.t) : Z := default 0 (Update.tokens update).

(** ** ConversationMonitor.readLastLines *)

(** [s.split('\n')]: the pieces between the newlines, of which there is
    always at least one. *)
Fixpoint splitNewline (s : string) : list string :=
  match s with
  | EmptyString => [EmptyString]
  | String c rest =>
      if Ascii.eqb c newline then EmptyString :: splitNewline rest
      else
        match splitNewline rest with
        | part :: parts => String c part :: parts
        | [] => [String c EmptyString]
        end
  end.

(** [a.pop()] leaves [withoutLast a] in the array and returns [last a]. *)
Definition withoutLast {A : Type} (l : list A) : list A := take (length l - 1) l.

(** [a.slice(-n)]; [-0] is [0], so that for [n = 0] it is the whole array. *)
Definition sliceLast {A : Type} (n : nat) (l : list A) : list A :=
  if decide (n = 0%nat) then l else lastN n l.

(** The variables [lines] and [remainder] of the promise. *)
Module ReadState.
Record t : Type := Build { lines : list string; remainder : string }.
Definition initial : t := Build [] EmptyString.
End ReadState.

(** The handler of ['data'], lines 201-210. *)
Definition onData (numLines : nat) (st : ReadState.t) (chunk : string) : ReadState.t :=
  let parts := splitNewline (String.append (ReadState.remainder st) chunk) in
  let remainder := default EmptyString (last parts) in
  let lines := ReadState.lines st ++ withoutLast parts in
  let lines :=
    if decide (numLines < length lines)%nat
    then drop (length lines - numLines) lines else lines in
  ReadState.Build lines remainder.

(** The handler of ['end'], lines 212-217. *)
Definition onEnd (numLines : nat) (st : ReadState.t) : list string :=
  let lines :=
    if nonEmpty (ReadState.remainder st)
    then ReadState.lines st ++ [ReadState.remainder st] else ReadState.lines st in
  sliceLast numLines lines.

(** [readLastLines(filePath, numLines)] for a file that the stream delivers
    in the chunks [chunks]. *)
Definition readLastLines (numLines : nat) (chunks : list string) : list string :=
  onEnd numLines (foldl (onData numLines) ReadState.initial chunks).

(** The content of the file, and its lines: the pieces between the
    newlines, without the piece after the last newline when it is empty. *)
Definition fileContent (chunks : list string) : string :=
  foldr String.append EmptyString chunks.

Definition fileLines (content : string) : list string :=
  let parts := splitNewline content in
  withoutLast parts
  ++ (if nonEmpty (default EmptyString (last parts))
      then [default EmptyString (last parts)] else []).

(** ** ConversationAnalyzer: the conversations of a directory and the error report *)

(** A log file of a project directory: the name of the project directory,
    the base name of the file and the lines of the file. *)
Module LogFile.
Record t : Type := Build { projectDir : string; name : string; lines : list Line }.
End LogFile.

(** The conversations that [analyzeAllConversations] collects from files that
    can be read: each is parsed and given the name of its directory. *)
Definition analyzeAllConversations (pricing : gmap string Rate.t) (files : list LogFile.t)
    : list Conversation.t :=
  (λ file, Conversation.set_projectName (LogFile.projectDir file)
             (parseJSONLFile pricing (LogFile.name file) (LogFile.lines file))) <$> files.

(** Lines 217-227 of the analyzer: the body of the inner [forEach] of
    [getErrorStats], and the object [errorsByTool] that it builds. *)
Definition addToolErrors (errorsByTool : list (string * Z)) (entry : string * ToolData.t)
    : list (string * Z) :=
  let '(toolName, toolData) := entry in
  if decide (0 < ToolData.errors toolData) then
    let old :=
      match objGet toolName errorsByTool with
      | Some n => if decide (n = 0) then 0 else n
      | None => 0
      end in
    objSet toolName (old + ToolData.errors toolData) errorsByTool
  else errorsByTool.

Definition errorsByTool (conversations : list Conversation.t) : list (string * Z) :=
  foldl (λ acc conv, foldl addToolErrors acc (Conversation.toolUsage conv)) [] conversations.

(** The number of tool-use lines of a file. *)
Definition toolUseLines (lines : list Line) : Z :=
  Z.of_nat (length (filter (λ m, isType m "tool_use" = true) (parsedObjects lines))).

(** ** ConversationAnalyzer.getTokenBurnStats *)

(** A burn-rate sample with the conversation it comes from,
    [{ ...burn, conversationId, conversationTitle }]. *)
Module BurnMoment.
Record t : Type := Build
  { timestamp : Z; rate : Qc; tokens : Z; cost : Qc;
    conversationId : string; conversationTitle : string }.
End BurnMoment.

Module TokenBurnStats.
Record t : Type := Build
  { averageBurnRate : Qc; maxBurnRate : Qc; highBurnMoments : list BurnMoment.t }.
End TokenBurnStats.

(** Lines 286-296: the samples of all conversations. *)
Definition allBurnRates (conversations : list Conversation.t) : list BurnMoment.t :=
  conv ← conversations;
  (λ burn, BurnMoment.Build (Burn.timestamp burn) (Burn.rate burn) (Burn.tokens burn)
             (Burn.cost burn) (Conversation.conversationId conv)
             (Conversation.conversationTitle conv)) <$> Conversation.tokenBurnRate conv.

(** [getTokenBurnStats()]: [sort] sorts [allBurnRates] in place, so that
    the sum is taken over the sorted array. *)
Definition getTokenBurnStats (conversations : list Conversation.t) : TokenBurnStats.t :=
  match allBurnRates conversations with
  | [] => TokenBurnStats.Build 0%Qc 0%Qc []
  | first :: rest =>
      let sortedByRate := sortBy (descQc BurnMoment.rate) (first :: rest) in
      let averageBurnRate :=
        (sumQc BurnMoment.rate sortedByRate
         / Qc_of_Z (Z.of_nat (length sortedByRate)))%Qc in
      TokenBurnStats.Build averageBurnRate
        (default 0%Qc (BurnMoment.rate <$> head sortedByRate))
        (take 20 sortedByRate)
  end.

(** The value that [safeMerge] assigns to [output[key]] for a property
    [key: value] of the source that it does not skip. *)
Definition mergedValue (target : list (string * JsValue)) (key : string) (value : JsValue)
    : JsValue :=
  match value, objGet key target with
  | JObj _, Some targetValue =>
      if isObjectLike targetValue then JObj (safeMerge (ownProperties targetValue) value)
      else value
  | _, _ => value
  end.

(** ** ConversationAnalyzer.getSessionStats *)

(** An element of [idleTimeAnalysis]. *)
Module IdleTime.
Record t : Type := Build
  { conversationId : string; title : string;
    averageGap : Qc; maxGap : Qc; idlePercentage : Qc }.
End IdleTime.

Module DurationStats.
Record t : Type := Build
  { averageDuration : Qc;
    longestSession : option Conversation.t;
    shortestSession : option Conversation.t;
    totalSessions : nat;
    idleTimeAnalysis : list IdleTime.t }.
End DurationStats.

(** Lines 254-263: the positive gaps, in minutes, between consecutive
    messages that both have a timestamp. *)
Fixpoint messageGaps (messages : list Entry.t) : list Qc :=
  match messages with
  | previous :: rest =>
      match rest with
      | current :: _ =>
          match Entry.timestamp current, Entry.timestamp previous with
          | Some t, Some t' =>
              let gap := minutesBetween t t' in
              if decide (0 < gap)%Qc then gap :: messageGaps rest else messageGaps rest
          | _, _ => messageGaps rest
          end
      | [] => []
      end
  | [] => []
  end.

(** [Math.max(...a)] for an array that is not empty. *)
Definition mathMax (first : Qc) (rest : list Qc) : Qc :=
  foldl (λ m x, if decide (m < x)%Qc then x else m) first rest.

(** Lines 253-274: the body of [sessions.map]. *)
Definition idleTimeOf (session : Conversation.t) : IdleTime.t :=
  let gaps := messageGaps (Conversation.messages session) in
  let avgGap :=
    match gaps with
    | [] => 0%Qc
    | _ :: _ => (foldl Qcplus 0%Qc gaps / Qc_of_Z (Z.of_nat (length gaps)))%Qc
    end in
  let maxGap :=
    match gaps with
    | [] => 0%Qc
    | first :: rest => mathMax first rest
    end in
  IdleTime.Build (Conversation.conversationId session)
    (Conversation.conversationTitle session) avgGap maxGap
    (if decide (0 < Conversation.duration session)%Qc
     then (maxGap / Conversation.duration session * Qc_of_Z 100)%Qc else 0%Qc).

Module ConversationAnalyzer.
(** [getSessionStats()] of the analyzer.  [sort] sorts [sessions] in place,
    so that [sessions.map] and [sessions.reduce] run over the sorted
    array. *)
Definition getSessionStats (conversations : list Conversation.t) : DurationStats.t :=
  match filter (λ c, (0 < Conversation.duration c)%Qc) conversations with
  | [] => DurationStats.Build 0%Qc None None 0 []
  | first :: rest =>
      let sortedByDuration := sortBy (descQc Conversation.duration) (first :: rest) in
      let idleTimeAnalysis :=
        filter (λ s, (Qc_of_Z 5 < IdleTime.maxGap s)%Qc) (idleTimeOf <$> sortedByDuration) in
      DurationStats.Build
        (sumQc Conversation.duration sortedByDuration
         / Qc_of_Z (Z.of_nat (length sortedByDuration)))%Qc
        (head sortedByDuration) (last sortedByDuration) (length sortedByDuration)
        (take 10 (sortBy (descQc IdleTime.maxGap) idleTimeAnalysis))
  end.
End ConversationAnalyzer.

(** ** ConversationMonitor.handleFileChange *)

(** The fields [lastCheckedFiles] and [activeSession] of the monitor. *)
Module WatchState.
Record t : Type := Build
  { lastCheckedFiles : gmap string Z; activeSession : option string }.
Definition initial : t := Build ∅ None.
End WatchState.

Section Watching.
(** [path.basename(filePath, '.jsonl')]. *)
Variable sessionIdOf : string → string.

(** [handleFileChange(filePath, eventType)] for a file whose [stat] gives
    the modification time [mtime]: the new state and, when
    [processFileUpdate] is started, the file it is started for. *)
Definition handleFileChange (st : WatchState.t) (filePath : string) (mtime : Z)
    : WatchState.t * option (string * Z) :=
  let fresh :=
    match WatchState.lastCheckedFiles st !! filePath with
    | Some lastChecked => bool_decide (lastChecked < mtime)
    | None => true
    end in
  if fresh then
    (WatchState.Build (<[filePath := mtime]> (WatchState.lastCheckedFiles st))
       (Some (sessionIdOf filePath)),
     Some (filePath, mtime))
  else (st, None).

(** The notifications of the watchers, handled one after the other: the
    final state and the processings started, in order. *)
Definition handleFileChanges (events : list (string * Z))
    : WatchState.t * list (string * Z) :=
  foldl (λ acc event,
           let '(st, started) := acc in
           let '(st', processing) := handleFileChange st event.1 event.2 in
           (st', started ++ option_list processing))
    (WatchState.initial, []) events.
End Watching.

(** The modification times among [events] that belong to [filePath]. *)
Definition mtimesOf (filePath : string) (events : list (string * Z)) : list Z :=
  (filter (λ event, event.1 = filePath) events).*2.

(** What holds after any sequence of notifications. *)
Definition watchInvariant (sessionIdOf : string → string) (events : list (string * Z)) (st : WatchState.t)
    (started : list (string * Z)) : Prop :=
  (∀ filePath,
     match WatchState.lastCheckedFiles st !! filePath with
     | Some lastChecked =>
         last (mtimesOf filePath started) = Some lastChecked
         ∧ Forall (λ t, t ≤ lastChecked) (mtimesOf filePath events)
     | None => mtimesOf filePath events = []
     end)
  ∧ started `sublist_of` events
  ∧ (∀ filePath, StronglySorted Z.lt (mtimesOf filePath started))
  ∧ WatchState.activeSession st = (λ event, sessionIdOf event.1) <$> last started.

(** * Theorems *)

Lemma million_nonzero : million <> 0%Qc.
Proof. intros H. discriminate H. Qed.

Lemma costOf_formula (r : Rate.t) (u : Usage.t) :
  costOf r u =
  ((Qc_of_Z (orZero (Usage.input_tokens u)) * Rate.input r
    + Qc_of_Z (orZero (Usage.output_tokens u)) * Rate.output r
    + Qc_of_Z (orZero (Usage.cache_creation_input_tokens u)) * Rate.cache_write r
    + Qc_of_Z (orZero (Usage.cache_read_input_tokens u)) * Rate.cache_read r)
   / million)%Qc.
Proof.
  unfold costOf. field. apply million_nonzero.
Qed.



Lemma calculateTokens_balanced (usage : option Usage.t) : balanced (calculateTokens usage).
Proof. destruct usage; unfold balanced; simpl; lia. Qed.

Lemma Tokens_add_balanced (a b : Tokens.t) :
  balanced a → balanced b → balanced (Tokens.add a b).
Proof. unfold balanced, Tokens.add. simpl. lia. Qed.

Lemma processAssistant_totalTokens pricing m st st' :
  processAssistant pricing m st = Return st' →
  balanced (Conversation.totalTokens (conv st)) →
  balanced (Conversation.totalTokens (conv st')).
Proof.
  unfold processAssistant, calculateCost. intros H Hb.
  destruct (isType m "assistant"); [|by simplify_eq].
  destruct (Message.message m) as [payload|]; [|by simplify_eq].
  destruct (Payload.usage payload) as [usage|]; [|by simplify_eq].
  destruct (truthy (Payload.model payload)) as [model|]; [|by simplify_eq].
  destruct (resolvePricing pricing model) as [rate|]; [|done].
  injection H as <-.
  assert (Hsum : balanced (Tokens.add (Conversation.totalTokens (conv st))
                             (calculateTokens (Some usage)))).
  { apply Tokens_add_balanced; auto using calculateTokens_balanced. }
  destruct (truthy (Message.parentUUID m)); destruct (burnSample _ _ _ _); exact Hsum.
Qed.

Lemma processLine_totalTokens pricing st line :
  balanced (Conversation.totalTokens (conv st)) →
  balanced (Conversation.totalTokens (conv (processLine pricing st line))).
Proof.
  intros Hb. destruct line as [| |m]; [done..|]. unfold processLine.
  set (c := recordToolUse m _).
  assert (Hc : balanced (Conversation.totalTokens c)).
  { subst c. unfold recordToolUse, captureFirstUserMessage, extractMetadata,
      extractSessionId. repeat (case_match; simpl; try done). }
  destruct (processAssistant _ _ _) as [st2|e] eqn:E; [|done].
  apply processAssistant_totalTokens in E; [|done].
  simpl. unfold trackTimeRange, pushMessage. repeat (case_match; simpl; try done).
Qed.

(** C2.  For every usage object, absent or present, the record returned by
    [calculateTokens] has [total = input + output + cacheWrite + cacheRead],
    its four components being the usage's counters with an absent counter
    read as zero; the same holds of the tokens of a live update and of the
    token totals of every parsed conversation. *)
Theorem calculateTokens_total (usage : option Usage.t) :
  let t := calculateTokens usage in
  (Tokens.total t = Tokens.input t + Tokens.output t + Tokens.cacheWrite t + Tokens.cacheRead t
   ∧ Tokens.input t = orZero (usage ≫= Usage.input_tokens)
   ∧ Tokens.output t = orZero (usage ≫= Usage.output_tokens)
   ∧ Tokens.cacheWrite t = orZero (usage ≫= Usage.cache_creation_input_tokens)
   ∧ Tokens.cacheRead t = orZero (usage ≫= Usage.cache_read_input_tokens))
  ∧ (∀ (pricing : gmap string Rate.t) (now : Z) (sessionId : string) (m : Message.t)
       (tokens : Z),
        Update.tokens (makeUpdate pricing now sessionId m) = Some tokens →
        ∃ u, Message.message m ≫= Payload.usage = Some u
             ∧ tokens = orZero (Usage.input_tokens u) + orZero (Usage.output_tokens u)
                        + orZero (Usage.cache_creation_input_tokens u)
                        + orZero (Usage.cache_read_input_tokens u))
  ∧ (∀ (pricing : gmap string Rate.t) (conversationId : string) (lines : list Line),
        balanced (Conversation.totalTokens (parseJSONLFile pricing conversationId lines))).
Proof.
  split; [|split].
  - destruct usage as [u|]; simpl; repeat split; reflexivity.
  - intros pricing now sessionId m tokens. unfold makeUpdate. simpl.
    destruct (isType m "assistant"); [|done].
    destruct (Message.message m) as [payload|]; simpl; [|done].
    destruct (Payload.usage payload) as [u|]; simpl; [|done].
    destruct (truthy (Payload.model payload)); simpl; [|done].
    intros [= <-]. by exists u.
  - intros pricing conversationId lines. unfold parseJSONLFile.
    assert (H : balanced (Conversation.totalTokens (conv (parseLines pricing lines)))).
    { induction lines as [|line lines IH] using rev_ind; [reflexivity|].
      unfold parseLines in *. rewrite foldl_app. by apply processLine_totalTokens. }
    unfold finish.
    by destruct (Conversation.endTime (conv (parseLines pricing lines))),
      (Conversation.startTime (conv (parseLines pricing lines))).
Qed.

Lemma calculateTokens_total_witness :
  ∃ u, Some (Usage.Build (Some 1200) None (Some 300) None) = Some u
       ∧ 1500 = orZero (Usage.input_tokens u) + orZero (Usage.output_tokens u)
                + orZero (Usage.cache_creation_input_tokens u)
                + orZero (Usage.cache_read_input_tokens u).
Proof.
  exact (proj1 (proj2 (calculateTokens_total None)) ∅ 0 "s"
           (Message.Build (Some "assistant") None None None None None None
              (Some (Payload.Build (Some "claude-sonnet-4-20250514")
                       (Some (Usage.Build (Some 1200) None (Some 300) None))))
              None)
           1500 eq_refl).
Defined.

(** ** Malformed lines *)

Lemma parseLines_app (pricing : gmap string Rate.t) (pre post : list Line) :
  parseLines pricing (pre ++ post)
  = foldl (processLine pricing) (parseLines pricing pre) post.
Proof. unfold parseLines. apply foldl_app. Qed.

(** C3 (as amended).  A line that is not valid JSON changes nothing in the
    state of the parser, so it adds no element to [messages] and there is no
    count of it; the conversation parsed from a file, and the updates
    parsed from the tail of a file, are those of the file without the
    line. *)
Theorem malformed_line_is_skipped (pricing : gmap string Rate.t) (conversationId : string)
    (now : Z) (sessionId : string) (st : ParserState) (pre post : list Line) :
  processLine pricing st Malformed = st
  ∧ parseJSONLFile pricing conversationId (pre ++ Malformed :: post)
    = parseJSONLFile pricing conversationId (pre ++ post)
  ∧ parseRecentUpdates pricing now [Malformed] sessionId = []
  ∧ parseRecentUpdates pricing now (pre ++ Malformed :: post) sessionId
    = parseRecentUpdates pricing now (pre ++ post) sessionId.
Proof.
  split; [reflexivity|]. split; [|split; [reflexivity|]].
  - unfold parseJSONLFile. by rewrite !parseLines_app.
  - unfold parseRecentUpdates. by rewrite !omap_app.
Qed.

(** C3 as stated fails: no observable of the parser state goes up by one on
    a malformed line, and the live parser returns nothing for it. *)
Lemma no_parse_error_counter :
  ¬ (∃ counter : ParserState → Z,
        counter (processLine CLAUDE_PRICING initialState Malformed)
        = counter initialState + 1)
  ∧ ¬ (∃ counter : list Update.t → Z,
          counter (parseRecentUpdates ∅ 0 [Malformed] "s")
          = counter (parseRecentUpdates ∅ 0 [] "s") + 1).
Proof.
  split; intros [counter H]; simpl in H; lia.
Qed.

(** ** The title of a conversation *)

Lemma extractSessionId_titleFields m c :
  titleFields (extractSessionId m c) = titleFields c.
Proof.
  unfold extractSessionId.
  destruct (truthy _); [destruct (nonEmpty _)|]; reflexivity.
Qed.

Lemma recordToolUse_titleFields m c :
  titleFields (recordToolUse m c) = titleFields c.
Proof. unfold recordToolUse. destruct (isType _ _); reflexivity. Qed.

Lemma trackTimeRange_titleFields m c :
  titleFields (trackTimeRange m c) = titleFields c.
Proof.
  unfold trackTimeRange. destruct (Message.timestamp m) as [t|]; [|reflexivity].
  destruct (Conversation.startTime c) as [s|]; simpl;
    repeat (case_decide || case_match); reflexivity.
Qed.

Lemma processAssistant_titleFields pricing m st st' :
  processAssistant pricing m st = Return st' →
  titleFields (conv st') = titleFields (conv st).
Proof.
  unfold processAssistant. intros H.
  repeat (case_match; simplify_eq; try reflexivity).
Qed.

Lemma front_titleFields m c :
  titleFields (captureFirstUserMessage m (extractMetadata m c))
  = titleStep m (titleFields c).
Proof.
  unfold captureFirstUserMessage, extractMetadata, titleStep, metadataTitleOf,
    summaryFieldOf, threadSummaryOf, summaryTextOf, userTextOf, titleFields.
  assert (Hty : isType m "summary" = true → isType m "user" = false).
  { unfold isType. intros H%bool_decide_eq_true. apply bool_decide_eq_false.
    rewrite H. discriminate. }
  destruct (isType m "summary"); simpl.
  - rewrite Hty by done. simpl.
    destruct (Message.metadata m) as [md|]; simpl.
    + destruct (truthy (Message.summary m)), (truthy (Metadata.thread_summary md)),
        (truthy (Metadata.summary md)); simpl;
        destruct (nonEmpty (Conversation.firstUserMessage c)); reflexivity.
    + destruct (truthy (Message.summary m)); simpl;
        destruct (nonEmpty (Conversation.firstUserMessage c)); reflexivity.
  - destruct (isType m "user"), (nonEmpty (Conversation.firstUserMessage c)) eqn:E;
      simpl; rewrite ?E; try reflexivity.
    destruct (truthy (Message.text m)); reflexivity.
Qed.

Lemma processLine_titleFields pricing st m :
  titleFields (conv (processLine pricing st (Json m)))
  = titleStep m (titleFields (conv st)).
Proof.
  unfold processLine.
  destruct (processAssistant _ _ _) as [st2|e] eqn:E; simpl.
  - rewrite trackTimeRange_titleFields.
    change (titleFields (pushMessage m (conv st2))) with (titleFields (conv st2)).
    rewrite (processAssistant_titleFields _ _ _ _ E). simpl.
    by rewrite recordToolUse_titleFields, front_titleFields, extractSessionId_titleFields.
  - by rewrite recordToolUse_titleFields, front_titleFields, extractSessionId_titleFields.
Qed.

Lemma parseLines_titleFields pricing lines :
  titleFields (conv (parseLines pricing lines))
  = foldl (λ fields m, titleStep m fields) ("", "", "") (parsedObjects lines).
Proof.
  induction lines as [|line lines IH] using rev_ind; [reflexivity|].
  rewrite parseLines_app. unfold parsedObjects in *. rewrite omap_app, foldl_app.
  destruct line as [| |m]; try exact IH.
  change (titleFields (conv (processLine pricing (parseLines pricing lines) (Json m)))
          = titleStep m (foldl (λ fields m, titleStep m fields) ("", "", "")
                           (parsedObjects lines))).
  by rewrite processLine_titleFields, IH.
Qed.

Lemma truthy_nonEmpty o s : truthy o = Some s → nonEmpty s = true.
Proof.
  unfold truthy. destruct o as [v|]; [|done].
  destruct (nonEmpty v) eqn:E; naive_solver.
Qed.

Lemma first100_nonEmpty s : nonEmpty s = true → nonEmpty (first100 s) = true.
Proof. destruct s; [done|reflexivity]. Qed.

Lemma metadataTitleOf_nonEmpty m s : metadataTitleOf m = Some s → nonEmpty s = true.
Proof.
  unfold metadataTitleOf, summaryFieldOf, threadSummaryOf, orElse.
  destruct (isType m "summary"); [|done].
  destruct (Message.metadata m) as [md|]; simpl; [|done].
  destruct (truthy (Metadata.summary md)) eqn:E1; intros ?; simplify_eq;
    eauto using truthy_nonEmpty.
Qed.

Lemma summaryTextOf_nonEmpty m s : summaryTextOf m = Some s → nonEmpty s = true.
Proof.
  unfold summaryTextOf. destruct (isType m "summary"); [|done].
  apply truthy_nonEmpty.
Qed.

Lemma userTextOf_nonEmpty m s : userTextOf m = Some s → nonEmpty s = true.
Proof.
  unfold userTextOf. destruct (isType m "user"); [|done].
  destruct (truthy (Message.text m)) as [t|] eqn:E; simpl; [|done].
  intros ?; simplify_eq. eauto using first100_nonEmpty, truthy_nonEmpty.
Qed.

(** After the loop the three properties hold the metadata title assigned
    last, the summary text assigned last and the first user text. *)
Lemma titleStep_fold (ms : list Message.t) :
  foldl (λ fields m, titleStep m fields) ("", "", "") ms
  = (default "" (last (omap metadataTitleOf ms)),
     default "" (last (omap summaryTextOf ms)),
     default "" (head (omap userTextOf ms))).
Proof.
  induction ms as [|m ms IH] using rev_ind; [reflexivity|].
  rewrite foldl_app, IH, !omap_app, !last_app. simpl. unfold titleStep. simpl.
  f_equal; [f_equal|].
  - destruct (metadataTitleOf m); reflexivity.
  - destruct (summaryTextOf m); reflexivity.
  - destruct (omap userTextOf ms) as [|u us] eqn:E; simpl.
    + destruct (userTextOf m); reflexivity.
    + assert (Hu : u ∈ omap userTextOf ms) by (rewrite E; left).
      apply list_elem_of_omap in Hu as (m' & _ & Hu).
      by rewrite (userTextOf_nonEmpty _ _ Hu).
Qed.

Lemma last_omap_nonEmpty {A} (f : A → option string) (l : list A) s :
  (∀ a v, f a = Some v → nonEmpty v = true) →
  last (omap f l) = Some s → nonEmpty s = true.
Proof.
  intros Hf Hl. assert (Hs : s ∈ omap f l).
  { apply last_Some in Hl as [l' ->]. set_solver. }
  apply list_elem_of_omap in Hs as (a & _ & Ha). eauto.
Qed.

Lemma head_omap_nonEmpty {A} (f : A → option string) (l : list A) s :
  (∀ a v, f a = Some v → nonEmpty v = true) →
  head (omap f l) = Some s → nonEmpty s = true.
Proof.
  intros Hf Hl. assert (Hs : s ∈ omap f l).
  { destruct (omap f l); simplify_eq/=. left. }
  apply list_elem_of_omap in Hs as (a & _ & Ha). eauto.
Qed.

Lemma substring_length_le (n : nat) (s : string) :
  (String.length (substring 0 n s) ≤ n)%nat.
Proof.
  revert s. induction n as [|n IH]; intros [|c s]; simpl; try lia.
  specialize (IH s). lia.
Qed.

Lemma substring_occursIn c (n : nat) (s : string) :
  occursIn c s = false → occursIn c (substring 0 n s) = false.
Proof.
  revert s. induction n as [|n IH]; intros [|c' s]; simpl; try done.
  intros [-> H]%orb_false_iff. by rewrite IH.
Qed.

Lemma flattenNewlines_occursIn (s : string) :
  occursIn newline (flattenNewlines s) = false.
Proof.
  induction s as [|c s IH]; [done|]. simpl. rewrite IH, orb_false_r.
  destruct (Ascii.eqb c newline) eqn:E; [reflexivity|exact E].
Qed.

Lemma bestTitle_resolved (c : Conversation.t) (ms : list Message.t) :
  titleFields c
  = (default "" (last (omap metadataTitleOf ms)),
     default "" (last (omap summaryTextOf ms)),
     default "" (head (omap userTextOf ms))) →
  bestTitle c = resolvedTitle ms.
Proof.
  unfold titleFields. intros [= Ht Hs Hu].
  unfold bestTitle, resolvedTitle. rewrite Ht, Hs, Hu. do 2 f_equal.
  destruct (last (omap metadataTitleOf ms)) as [t|] eqn:Et; simpl.
  { by rewrite (last_omap_nonEmpty _ _ _ metadataTitleOf_nonEmpty Et). }
  destruct (last (omap summaryTextOf ms)) as [t|] eqn:Es; simpl.
  { by rewrite (last_omap_nonEmpty _ _ _ summaryTextOf_nonEmpty Es). }
  destruct (head (omap userTextOf ms)) as [t|] eqn:Eu; simpl; [|done].
  by rewrite (head_omap_nonEmpty _ _ _ userTextOf_nonEmpty Eu).
Qed.

Lemma finish_title (conversationId : string) (c : Conversation.t) :
  Conversation.conversationTitle (finish conversationId c) = bestTitle c.
Proof.
  unfold finish.
  destruct (Conversation.endTime c), (Conversation.startTime c); reflexivity.
Qed.

(** C4 (as amended).  The title of the conversation parsed from a file is
    made from: the metadata title that a summary line assigned last, where
    one line assigns its metadata summary field and, only when that is
    absent or empty, its metadata thread summary; else the summary text
    assigned last; else the first user text cut to 100 characters; else the
    literal "Untitled conversation".  Whatever the source, newlines are
    replaced by spaces and the result has at most 100 characters. *)
Theorem title_resolution (pricing : gmap string Rate.t) (conversationId : string)
    (lines : list Line) :
  let title :=
    Conversation.conversationTitle (parseJSONLFile pricing conversationId lines) in
  title = resolvedTitle (parsedObjects lines)
  ∧ (String.length title ≤ 100)%nat
  ∧ occursIn newline title = false.
Proof.
  cbv zeta. unfold parseJSONLFile. rewrite finish_title.
  split; [|split].
  - apply bestTitle_resolved.
    by rewrite parseLines_titleFields, titleStep_fold.
  - apply substring_length_le.
  - apply substring_occursIn, flattenNewlines_occursIn.
Qed.

(** C4 as stated fails: with a thread summary and a summary field on the
    same line, the title is the summary field. *)
Lemma summary_field_overrides_thread_summary :
  Conversation.conversationTitle
    (parseJSONLFile CLAUDE_PRICING "c1" [Json summaryLineWithBothTitles])
  = "Summary title"
  ∧ claimedTitle (parsedObjects [Json summaryLineWithBothTitles]) = "Thread title"
  ∧ Conversation.conversationTitle
      (parseJSONLFile CLAUDE_PRICING "c1" [Json summaryLineWithBothTitles])
    ≠ claimedTitle (parsedObjects [Json summaryLineWithBothTitles]).
Proof.
  split; [reflexivity|]. split; [reflexivity|]. discriminate.
Qed.

(** ** Burn-rate samples *)

Lemma front_tokenBurnRate m c :
  Conversation.tokenBurnRate
    (recordToolUse m (captureFirstUserMessage m (extractMetadata m (extractSessionId m c))))
  = Conversation.tokenBurnRate c.
Proof.
  unfold recordToolUse, captureFirstUserMessage, extractMetadata, extractSessionId.
  repeat (case_match; simpl; try reflexivity).
Qed.

Lemma back_tokenBurnRate m c :
  Conversation.tokenBurnRate (trackTimeRange m (pushMessage m c))
  = Conversation.tokenBurnRate c.
Proof.
  unfold trackTimeRange, pushMessage.
  repeat (case_match; simpl; try reflexivity).
Qed.

Lemma processAssistant_billed pricing m st :
  match billed pricing m with
  | Some (cost, tokens) =>
      ∃ c, processAssistant pricing m st = Return (MkParserState c (Message.timestamp m))
           ∧ Conversation.tokenBurnRate c
             = Conversation.tokenBurnRate (conv st)
               ++ option_list (burnSample (Message.timestamp m) (lastTimestamp st) tokens cost)
  | None =>
      processAssistant pricing m st = Return st
      ∨ ∃ e, processAssistant pricing m st = Throw e
  end.
Proof.
  unfold billed, processAssistant, calculateCost.
  destruct (isType m "assistant"); [|by left].
  destruct (Message.message m) as [payload|]; simpl; [|by left].
  destruct (Payload.usage payload) as [usage|]; simpl; [|by left].
  destruct (truthy (Payload.model payload)) as [model|]; simpl; [|by left].
  destruct (resolvePricing pricing model) as [rate|]; simpl; [|right; eauto].
  eexists. split; [reflexivity|].
  destruct (truthy (Message.parentUUID m));
    destruct (burnSample _ _ _ _); simpl; by rewrite ?app_nil_r.
Qed.

Lemma processLine_billed pricing st m cost tokens :
  billed pricing m = Some (cost, tokens) →
  Conversation.tokenBurnRate (conv (processLine pricing st (Json m)))
  = Conversation.tokenBurnRate (conv st)
    ++ option_list (burnSample (Message.timestamp m) (lastTimestamp st) tokens cost)
  ∧ lastTimestamp (processLine pricing st (Json m)) = Message.timestamp m.
Proof.
  intros Hb. unfold processLine.
  match goal with |- context [processAssistant pricing m ?s] =>
    pose proof (processAssistant_billed pricing m s) as H end.
  rewrite Hb in H. destruct H as (c & -> & Hc). simpl in *.
  by rewrite back_tokenBurnRate, Hc, front_tokenBurnRate.
Qed.

Lemma processLine_not_costBearing pricing st line :
  costBearing pricing line = false →
  Conversation.tokenBurnRate (conv (processLine pricing st line))
  = Conversation.tokenBurnRate (conv st)
  ∧ lastTimestamp (processLine pricing st line) = lastTimestamp st.
Proof.
  destruct line as [| |m]; [done..|]. simpl costBearing.
  intros Hb%bool_decide_eq_false. rewrite <-eq_None_not_Some in Hb.
  unfold processLine.
  match goal with |- context [processAssistant pricing m ?s] =>
    pose proof (processAssistant_billed pricing m s) as H end.
  rewrite Hb in H. destruct H as [->|[e ->]]; simpl.
  - by rewrite back_tokenBurnRate, front_tokenBurnRate.
  - by rewrite front_tokenBurnRate.
Qed.

Lemma foldl_not_costBearing pricing st lines :
  Forall (λ line, costBearing pricing line = false) lines →
  Conversation.tokenBurnRate (conv (foldl (processLine pricing) st lines))
  = Conversation.tokenBurnRate (conv st)
  ∧ lastTimestamp (foldl (processLine pricing) st lines) = lastTimestamp st.
Proof.
  intros H. revert st. induction H as [|line lines Hl _ IH]; intros st; [done|].
  simpl. destruct (IH (processLine pricing st line)) as [-> ->].
  by apply processLine_not_costBearing.
Qed.

Lemma wellFormedRate_nonneg rate tokens :
  wellFormedRate rate tokens → 0 ≤ tokens → (0 ≤ rate)%Qc.
Proof.
  intros (delta & Hd & ->) Ht. unfold Qcdiv.
  apply Qcmult_nonneg_nonneg.
  - rewrite <-Z2Qc_inj_0. exact (proj1 (Z2Qc_inj_le 0 tokens) Ht).
  - apply Qclt_le_weak. by apply Qcinv_pos.
Qed.

Lemma burnSample_wellFormed timestamp last tokens cost sample :
  burnSample timestamp last tokens cost = Some sample →
  wellFormedRate (Burn.rate sample) (Burn.tokens sample).
Proof.
  unfold burnSample. destruct timestamp as [t|], last as [l|]; try done.
  case_decide; [|done]. intros [= <-]. simpl. by eexists.
Qed.

Lemma liveBurnSample_wellFormed activity update sample :
  liveBurnSample activity update = Some sample →
  wellFormedRate (LiveBurn.rate sample) (LiveBurn.tokens sample).
Proof.
  unfold liveBurnSample. destruct (last activity); [|done].
  destruct (truthyZ _); [|done]. case_decide; [|done]. intros [= <-]. simpl. by eexists.
Qed.

Lemma parseLines_wellFormed pricing lines :
  Forall (λ sample, wellFormedRate (Burn.rate sample) (Burn.tokens sample))
    (Conversation.tokenBurnRate (conv (parseLines pricing lines))).
Proof.
  induction lines as [|line lines IH] using rev_ind; [constructor|].
  rewrite parseLines_app. simpl.
  destruct (costBearing pricing line) eqn:E.
  - destruct line as [| |m]; [done..|]. simpl in E.
    apply bool_decide_eq_true in E as [[cost tokens] E].
    destruct (processLine_billed pricing (parseLines pricing lines) m _ _ E) as [-> _].
    apply Forall_app. split; [exact IH|].
    destruct (burnSample _ _ _ _) eqn:Es; simpl; [|constructor].
    repeat constructor. eauto using burnSample_wellFormed.
  - by destruct (processLine_not_costBearing pricing (parseLines pricing lines) line E)
      as [-> _].
Qed.

Lemma applyUpdate_tokenBurnRate session update :
  Session.tokenBurnRate (applyUpdate session update)
  = Session.tokenBurnRate session
    ++ option_list (liveBurnSample (Session.recentActivity session) update).
Proof.
  unfold applyUpdate. simpl. destruct (liveBurnSample _ _); simpl; by rewrite ?app_nil_r.
Qed.

Lemma foldl_applyUpdate_wellFormed session updates :
  Forall (λ sample, wellFormedRate (LiveBurn.rate sample) (LiveBurn.tokens sample))
    (Session.tokenBurnRate session) →
  Forall (λ sample, wellFormedRate (LiveBurn.rate sample) (LiveBurn.tokens sample))
    (Session.tokenBurnRate (foldl applyUpdate session updates)).
Proof.
  revert session. induction updates as [|u us IH]; intros session H; [done|].
  simpl. apply IH. rewrite applyUpdate_tokenBurnRate. apply Forall_app. split; [done|].
  destruct (liveBurnSample _ _) eqn:E; simpl; [|constructor].
  repeat constructor. eauto using liveBurnSample_wellFormed.
Qed.

Lemma finish_tokenBurnRate (conversationId : string) (c : Conversation.t) :
  Conversation.tokenBurnRate (finish conversationId c) = Conversation.tokenBurnRate c.
Proof.
  unfold finish.
  destruct (Conversation.endTime c), (Conversation.startTime c); reflexivity.
Qed.




(** ** Alerts *)

Lemma lastN_length {A} (n : nat) (l : list A) :
  length (lastN n l) = (n `min` length l)%nat.
Proof. unfold lastN. rewrite length_drop. lia. Qed.

Lemma lastN_suffix {A} (n : nat) (l : list A) :
  take (length l - n) l ++ lastN n l = l.
Proof. apply take_drop. Qed.

(** C8.  With alerts enabled and a burn-rate history that is not empty,
    [checkSessionAlerts] compares the threshold with the arithmetic mean of
    the last five samples (of all of them when there are fewer): it emits
    exactly one alert of type token_burn_rate, of severity critical, when
    the mean is strictly above [tokenBurnRateThreshold], and none otherwise.
    [ConfigManager.checkAlerts] does the same with the rate it is handed. *)
Theorem burn_rate_alert_on_recent_mean (thresholds : Thresholds.t) (session : Session.t)
    (stats : Stats.t) :
  Thresholds.enabled thresholds = true →
  Session.tokenBurnRate session ≠ [] →
  let recent := lastN 5 (Session.tokenBurnRate session) in
  let mean := (sumQc LiveBurn.rate recent / Qc_of_Z (Z.of_nat (length recent)))%Qc in
  (∃ older, Session.tokenBurnRate session = older ++ recent)
  ∧ length recent = (5 `min` length (Session.tokenBurnRate session))%nat
  ∧ filter (λ a, Alert.type a = "token_burn_rate") (checkSessionAlerts thresholds session)
    = (if decide (Thresholds.tokenBurnRateThreshold thresholds < mean)%Qc
       then [Alert.Build "token_burn_rate" "critical" (Some (Session.sessionId session))
               None None]
       else [])
  ∧ filter (λ a, Alert.type a = "token_burn_rate") (checkAlerts thresholds stats)
    = (if decide (Thresholds.tokenBurnRateThreshold thresholds < Stats.tokenBurnRate stats)%Qc
       then [Alert.Build "token_burn_rate" "critical" None (Some (Stats.tokenBurnRate stats))
               (Some (Thresholds.tokenBurnRateThreshold thresholds))]
       else []).
Proof.
  intros Hen Hne recent mean. split; [|split; [|split]].
  - eexists. symmetry. apply lastN_suffix.
  - apply lastN_length.
  - unfold checkSessionAlerts. rewrite Hen.
    destruct (Session.tokenBurnRate session) as [|r rs] eqn:E; [done|].
    rewrite filter_app.
    replace (filter _ (if decide _ then _ else _)) with (@nil Alert.t)
      by (by case_decide).
    simpl. fold recent. unfold recentAverageBurnRate. fold recent.
    change (sumRates recent) with (sumQc LiveBurn.rate recent). fold mean.
    by case_decide.
  - unfold checkAlerts. rewrite Hen. rewrite !filter_app.
    repeat case_decide; reflexivity.
Qed.

(** Five samples of 12000 tokens per minute against a threshold of 10000:
    exactly one critical alert. *)
Lemma burn_rate_alert_on_recent_mean_witness :
  filter (λ a, Alert.type a = "token_burn_rate")
    (checkSessionAlerts defaultThresholds hotSession)
  = [Alert.Build "token_burn_rate" "critical" (Some "s") None None].
Proof.
  exact (proj1 (proj2 (proj2
           (burn_rate_alert_on_recent_mean defaultThresholds hotSession
              (Stats.Build 0%Qc 0%Qc 0%Qc) eq_refl ltac:(discriminate))))).
Defined.

(** A last sample of 20000 tokens per minute after four of 1000: the mean is
    4800 and nothing is emitted. *)
Lemma last_sample_alone_raises_no_alert :
  LiveBurn.rate <$> last (Session.tokenBurnRate spikeSession) = Some (dec 20000 1)
  ∧ checkSessionAlerts defaultThresholds spikeSession = [].
Proof. split; reflexivity. Qed.

(** ** The memory of a live session *)

Lemma keepRecentActivity_tokenBurnRate session :
  Session.tokenBurnRate (keepRecentActivity session) = Session.tokenBurnRate session.
Proof. unfold keepRecentActivity. by case_decide. Qed.

Lemma keepRecentActivity_bound session :
  (length (Session.recentActivity (keepRecentActivity session)) ≤ 100)%nat.
Proof.
  unfold keepRecentActivity. case_decide; simpl; [|lia].
  rewrite lastN_length. lia.
Qed.

(** What is bounded: the stored activity after each processed reading, and
    the two lists of a snapshot. *)
Lemma recentActivity_bounded now sessionId update updates sessionData session :
  recordUpdates now sessionId (update :: updates) sessionData !! sessionId = Some session →
  (length (Session.recentActivity session) ≤ 100)%nat.
Proof.
  unfold recordUpdates. rewrite lookup_insert_eq. intros [= <-].
  apply keepRecentActivity_bound.
Qed.

Lemma snapshot_bounded sessionData sessionId snapshot :
  getSessionStats sessionData sessionId = Some snapshot →
  (length (SessionStats.recentActivity snapshot) ≤ 10)%nat
  ∧ (length (SessionStats.burnRateHistory snapshot) ≤ 20)%nat.
Proof.
  unfold getSessionStats. destruct (sessionData !! sessionId) as [session|]; [|done].
  intros [= <-]. simpl. rewrite !lastN_length. lia.
Qed.

Lemma twoLineTail_adds_sample pricing now sessionId session :
  (length (Session.tokenBurnRate session) + 1
   ≤ length (Session.tokenBurnRate
               (keepRecentActivity
                  (foldl applyUpdate session
                     (parseRecentUpdates pricing now twoLineTail sessionId)))))%nat.
Proof.
  rewrite keepRecentActivity_tokenBurnRate. cbn [parseRecentUpdates twoLineTail omap
    list_omap foldl]. rewrite !applyUpdate_tokenBurnRate, !length_app.
  replace (liveBurnSample _ (makeUpdate pricing now sessionId (assistantLine 60000 1000)))
    with (Some (LiveBurn.Build 60000 (Qc_of_Z 1000 / minutesBetween 60000 0)%Qc 1000)).
  - simpl. lia.
  - unfold applyUpdate. cbn [Session.recentActivity]. unfold liveBurnSample.
    rewrite last_snoc. reflexivity.
Qed.

Lemma processFileUpdates_grows pricing now sessionId (n : nat) sessionData :
  ∃ session,
    processFileUpdates pricing now sessionId (replicate (S n) twoLineTail) sessionData
    !! sessionId = Some session
    ∧ (n < length (Session.tokenBurnRate session))%nat.
Proof.
  unfold processFileUpdates. induction n as [|n IH].
  - cbn [replicate foldl]. unfold recordUpdates at 1.
    cbn [parseRecentUpdates twoLineTail omap list_omap]. rewrite lookup_insert_eq.
    eexists. split; [reflexivity|].
    pose proof (twoLineTail_adds_sample pricing now sessionId
                  (default (Session.fresh sessionId now) (sessionData !! sessionId))) as H.
    eapply Nat.lt_le_trans; [|exact H]. lia.
  - destruct IH as (session & Hs & Hn).
    rewrite replicate_S_end, foldl_app. cbn [foldl]. unfold recordUpdates at 1.
    cbn [parseRecentUpdates twoLineTail omap list_omap]. rewrite lookup_insert_eq.
    eexists. split; [reflexivity|]. rewrite Hs. cbn [default].
    pose proof (twoLineTail_adds_sample pricing now sessionId session) as H.
    eapply Nat.lt_le_trans; [|exact H]. lia.
Qed.

(** C9 fails on the code: the stored burn-rate list of a session is never
    cut.  Whatever the bound, reading the same two-line tail of a file
    often enough leaves more samples than that in
    [session.tokenBurnRate]. *)
Theorem tokenBurnRate_grows_without_bound (bound : nat) :
  ∃ (readings : list (list Line)) (session : Session.t),
    Forall (λ lines, (length lines ≤ 50)%nat) readings
    ∧ processFileUpdates ∅ 0 "s" readings ∅ !! "s" = Some session
    ∧ (bound < length (Session.tokenBurnRate session))%nat.
Proof.
  destruct (processFileUpdates_grows ∅ 0 "s" bound ∅) as (session & Hs & Hn).
  exists (replicate (S bound) twoLineTail), session. split; [|done].
  apply Forall_replicate. simpl. lia.
Qed.

(** ** Merging persisted settings *)

Lemma objGet_objSet_ne {V} (k k' : string) (v : V) (o : list (string * V)) :
  k ≠ k' → objGet k' (objSet k v o) = objGet k' o.
Proof.
  intros Hne. induction o as [|[k0 v0] o IH]; simpl.
  - by rewrite decide_False.
  - destruct (decide (k0 = k)) as [->|]; simpl.
    + by rewrite !decide_False.
    + by rewrite IH.
Qed.

Lemma objGet_objSet_eq {V} (k : string) (v : V) (o : list (string * V)) :
  objGet k (objSet k v o) = Some v.
Proof.
  induction o as [|[k0 v0] o IH]; simpl.
  - by rewrite decide_True.
  - destruct (decide (k0 = k)) as [->|]; simpl.
    + by rewrite decide_True.
    + by rewrite decide_False.
Qed.

(** What the filter does achieve: a source that is not a plain object
    leaves the copy of the target as it is, and at the top level a
    forbidden key keeps the value that the target had for it. *)
Lemma safeMerge_not_an_object target source :
  (∀ fields, source ≠ JObj fields) → safeMerge target source = target.
Proof. intros H. destruct source; try reflexivity. by destruct (H fields). Qed.

Lemma safeMerge_top_level target source key :
  isForbidden key = true →
  objGet key (safeMerge target source) = objGet key target.
Proof.
  intros Hk. destruct source as [| | | | |fields]; try reflexivity. simpl.
  generalize target at 2 3 as output. induction fields as [|[k v] fields IH];
    intros output; [reflexivity|].
  cbn [foldl]. rewrite IH. unfold mergeProperty. cbn [fst snd].
  destruct (isForbidden k) eqn:Ek; [reflexivity|].
  assert (k ≠ key) by (intros ->; congruence).
  repeat case_match; by rewrite objGet_objSet_ne.
Qed.

(** C10 fails on the code: a nested object of the source for which the
    defaults have no object is assigned whole.  Merging the defaults, which
    carry no forbidden key, with settings that have a [__proto__] property
    inside a custom pricing entry gives a configuration that carries that
    property, with the value of the settings. *)
Theorem deepMerge_keeps_nested_forbidden_key :
  carriesForbiddenKey (JObj configDefaults) = false
  ∧ carriesForbiddenKey (JObj (deepMerge configDefaults settingsWithNestedProto)) = true
  ∧ atPath ["pricing"; "customPricing"; "my-model"; "__proto__"]
      (JObj (deepMerge configDefaults settingsWithNestedProto))
    = Some (JObj [("polluted", JBool true)]).
Proof. split; [reflexivity|]. split; reflexivity. Qed.

(** ** Sorting *)

Section Sorting.
Context {A : Type} (cmpLe : A → A → bool).

Lemma insertSorted_Permutation (x : A) (l : list A) : insertSorted cmpLe x l ≡ₚ x :: l.
Proof.
  induction l as [|y l IH]; simpl; [done|].
  destruct (cmpLe x y); [done|]. rewrite IH. apply Permutation_swap.
Qed.

Lemma sortBy_Permutation (l : list A) : sortBy cmpLe l ≡ₚ l.
Proof.
  induction l as [|x l IH]; simpl; [done|].
  unfold sortBy in *. simpl. by rewrite insertSorted_Permutation, IH.
Qed.

Lemma sortBy_length (l : list A) : length (sortBy cmpLe l) = length l.
Proof. by rewrite sortBy_Permutation. Qed.

Context (R : relation A).
Hypothesis cmpLe_true : ∀ a b, cmpLe a b = true → R a b.
Hypothesis cmpLe_false : ∀ a b, cmpLe a b = false → R b a.

Lemma insertSorted_Sorted (x : A) (l : list A) :
  Sorted R l → Sorted R (insertSorted cmpLe x l).
Proof.
  induction 1 as [|y l Hl IH Hhd]; simpl; [by repeat constructor|].
  destruct (cmpLe x y) eqn:E.
  - repeat constructor; auto.
  - constructor; [done|].
    destruct Hhd as [|z l Hz]; simpl in *.
    + by repeat constructor; auto.
    + destruct (cmpLe x z); constructor; auto.
Qed.

Lemma sortBy_Sorted (l : list A) : Sorted R (sortBy cmpLe l).
Proof.
  induction l as [|x l IH]; [constructor|].
  unfold sortBy in *. simpl. by apply insertSorted_Sorted.
Qed.
End Sorting.

Lemma ascZ_sorted_keys {A} (key : A → Z) (l : list A) :
  Sorted Z.le (key <$> sortBy (ascZ key) l).
Proof.
  apply (Sorted_fmap key (λ a b, key a ≤ key b)); [done|].
  apply sortBy_Sorted; unfold ascZ; intros a b H.
  - apply bool_decide_eq_true in H. lia.
  - apply bool_decide_eq_false in H. lia.
Qed.

Lemma descZ_sorted_keys {A} (key : A → Z) (l : list A) :
  Sorted (flip Z.le) (key <$> sortBy (descZ key) l).
Proof.
  apply (Sorted_fmap key (λ a b, key b ≤ key a)); [done|].
  apply sortBy_Sorted; unfold descZ; intros a b H.
  - apply bool_decide_eq_true in H. lia.
  - apply bool_decide_eq_false in H. lia.
Qed.

Lemma Qcle_minus_nonpos (x y : Qc) : (x - y ≤ 0)%Qc ↔ (x ≤ y)%Qc.
Proof.
  rewrite (Qcplus_le_mono_r (x - y) 0 y).
  replace (x - y + y)%Qc with x by ring. by rewrite Qcplus_0_l.
Qed.

Lemma descQc_sorted_keys {A} (key : A → Qc) (l : list A) :
  Sorted (flip Qcle) (key <$> sortBy (descQc key) l).
Proof.
  apply (Sorted_fmap key (λ a b, (key b ≤ key a)%Qc)); [done|].
  apply sortBy_Sorted; unfold descQc; intros a b H.
  - apply bool_decide_eq_true in H. by apply Qcle_minus_nonpos.
  - apply bool_decide_eq_false in H. rewrite Qcle_minus_nonpos in H.
    apply Qclt_le_weak. by apply Qcnot_le_lt.
Qed.

Lemma descQc_StronglySorted {A} (key : A → Qc) (l : list A) :
  StronglySorted (λ a b, (key b ≤ key a)%Qc) (sortBy (descQc key) l).
Proof.
  apply Sorted_StronglySorted.
  - intros x y z Hxy Hyz. by etrans.
  - apply sortBy_Sorted; unfold descQc; intros a b H.
    + apply bool_decide_eq_true in H. by apply Qcle_minus_nonpos.
    + apply bool_decide_eq_false in H. rewrite Qcle_minus_nonpos in H.
      apply Qclt_le_weak. by apply Qcnot_le_lt.
Qed.

(** ** Hourly buckets *)

Lemma Sorted_seqZ_24 : Sorted Z.le (seqZ 0 24).
Proof.
  change (seqZ 0 24)
    with [0; 1; 2; 3; 4; 5; 6; 7; 8; 9; 10; 11; 12; 13; 14; 15; 16; 17; 18; 19; 20;
          21; 22; 23].
  repeat constructor; lia.
Qed.

Section HourlyFacts.
Variable getHours : Z → Z.
Hypothesis getHours_range : ∀ t, 0 ≤ getHours t < 24.

Lemma addHourly_bucketHour (m : gmap Z HourBucket.t) (c : Conversation.t) :
  addHourly getHours m c
  = match bucketHour getHours c with
    | Some h =>
        let old := default (HourBucket.Build h 0%Qc 0 0) (m !! h) in
        <[h := HourBucket.Build (HourBucket.hour old)
                 (HourBucket.totalCost old + Conversation.totalCost c)%Qc
                 (HourBucket.totalTokens old + Tokens.total (Conversation.totalTokens c))
                 (HourBucket.conversationCount old + 1)]> m
    | None => m
    end.
Proof.
  unfold addHourly, bucketHour. case_decide; [|done].
  by destruct (Conversation.startTime c).
Qed.

Lemma bucketHour_Some (c : Conversation.t) (h : Z) :
  bucketHour getHours c = Some h → 0 ≤ h < 24 ∧ (0 < Conversation.totalCost c)%Qc.
Proof.
  unfold bucketHour. case_decide; [|done].
  destruct (Conversation.startTime c) as [t|]; [|done].
  intros [= <-]. auto.
Qed.

Lemma foldl_addHourly_inv (convs l : list Conversation.t) (m : gmap Z HourBucket.t) :
  (∀ c, c ∈ l → c ∈ convs) →
  (∀ k b, m !! k = Some b →
          HourBucket.hour b = k ∧ 0 ≤ k < 24 ∧ (0 ≤ HourBucket.totalCost b)%Qc
          ∧ ∃ c, c ∈ convs ∧ bucketHour getHours c = Some k) →
  ∀ k b, foldl (addHourly getHours) m l !! k = Some b →
         HourBucket.hour b = k ∧ 0 ≤ k < 24 ∧ (0 ≤ HourBucket.totalCost b)%Qc
         ∧ ∃ c, c ∈ convs ∧ bucketHour getHours c = Some k.
Proof.
  revert m. induction l as [|c l IH]; intros m Hl Hm; [exact Hm|].
  simpl. apply IH; [intros c' Hc'; apply Hl; by right|].
  intros k b. rewrite addHourly_bucketHour.
  destruct (bucketHour getHours c) as [h|] eqn:Eh; [|by apply Hm].
  destruct (bucketHour_Some _ _ Eh) as [Hrange Hpos].
  destruct (decide (h = k)) as [->|Hne].
  - rewrite lookup_insert_eq. intros [= <-]. simpl.
    assert (HourBucket.hour (default (HourBucket.Build k 0%Qc 0 0) (m !! k)) = k
            ∧ (0 ≤ HourBucket.totalCost (default (HourBucket.Build k 0%Qc 0 0) (m !! k)))%Qc)
      as [Hh Hc].
    { destruct (m !! k) as [old|] eqn:Eold; simpl; [|done].
      destruct (Hm _ _ Eold) as (? & _ & ? & _). done. }
    split; [done|]. split; [done|]. split.
    + apply Qcplus_nonneg_nonneg; [done|]. by apply Qclt_le_weak.
    + exists c. split; [apply Hl; left|done].
  - rewrite lookup_insert_ne by done. apply Hm.
Qed.

Lemma foldl_fillHour_lookup (l : list Z) (m : gmap Z HourBucket.t) (k : Z) :
  foldl fillHour m l !! k
  = match m !! k with
    | Some b => Some b
    | None => if decide (k ∈ l) then Some (HourBucket.Build k 0%Qc 0 0) else None
    end.
Proof.
  revert m. induction l as [|i l IH]; intros m.
  - cbn [foldl]. destruct (m !! k); [done|]. case_decide as H; [|done].
    by apply elem_of_nil in H.
  - cbn [foldl]. rewrite IH. unfold fillHour.
    destruct (m !! i) as [bi|] eqn:Ei.
    + destruct (m !! k) as [bk|] eqn:Ek; [done|].
      assert (k ≠ i) by congruence.
      apply decide_ext. rewrite elem_of_cons. tauto.
    + destruct (decide (i = k)) as [->|Hne].
      * rewrite lookup_insert_eq, Ei. rewrite decide_True; [done|left].
      * rewrite lookup_insert_ne by done. destruct (m !! k); [done|].
        apply decide_ext. rewrite elem_of_cons. split; [tauto|].
        intros [->|?]; done.
Qed.

Lemma hourlyCosts_filled (convs : list Conversation.t) :
  let m := foldl fillHour (foldl (addHourly getHours) ∅ convs) (seqZ 0 24) in
  (∀ k, 0 ≤ k < 24 → is_Some (m !! k))
  ∧ (∀ k b, m !! k = Some b →
            HourBucket.hour b = k ∧ 0 ≤ k < 24 ∧ (0 ≤ HourBucket.totalCost b)%Qc
            ∧ ((∃ c, c ∈ convs ∧ bucketHour getHours c = Some k)
               ∨ b = HourBucket.Build k 0%Qc 0 0)).
Proof.
  intros m. subst m. split.
  - intros k Hk. rewrite foldl_fillHour_lookup.
    destruct (_ !! k); [done|].
    rewrite decide_True; [done|]. apply elem_of_seqZ. lia.
  - intros k b. rewrite foldl_fillHour_lookup.
    destruct (foldl (addHourly getHours) ∅ convs !! k) as [b'|] eqn:E.
    + intros [= <-].
      destruct (foldl_addHourly_inv convs convs ∅ (λ _ H, H)
                  ltac:(intros ??; by rewrite lookup_empty) _ _ E) as (? & ? & ? & ?).
      auto.
    + case_decide as Hin; [|done]. intros [= <-]. simpl.
      apply elem_of_seqZ in Hin. repeat split; try lia; [done|by right].
Qed.

End HourlyFacts.

(** ** Objects as dictionaries *)

Section Objects.
Context {V : Type}.
Implicit Types o : list (string * V).

Lemma objGet_objSet (k k' : string) (v : V) o :
  objGet k' (objSet k v o) = if decide (k = k') then Some v else objGet k' o.
Proof.
  case_decide as H; [subst; apply objGet_objSet_eq|by apply objGet_objSet_ne].
Qed.

Lemma objGet_None o k : objGet k o = None ↔ k ∉ o.*1.
Proof.
  induction o as [|[k0 v0] o IH]; simpl.
  - split; [intros _; apply not_elem_of_nil|done].
  - rewrite not_elem_of_cons. case_decide as Hk.
    + split; [done|]. intros [Hne _]. by destruct Hne.
    + rewrite IH. split; [intros ?; split; [congruence|done]|by intros [_ ?]].
Qed.

Lemma objSet_keys (k : string) (v : V) o :
  (objSet k v o).*1 = if decide (k ∈ o.*1) then o.*1 else o.*1 ++ [k].
Proof.
  induction o as [|[k0 v0] o IH].
  - cbn [objSet fmap list_fmap fst]. destruct (decide (k ∈ [])) as [H|]; [|done].
    by apply elem_of_nil in H.
  - cbn [objSet]. destruct (decide (k0 = k)) as [->|Hne].
    + cbn [fmap list_fmap fst]. destruct (decide (k ∈ k :: o.*1)) as [|H]; [done|].
      destruct H. left.
    + cbn [fmap list_fmap fst] in *. rewrite IH.
      destruct (decide (k ∈ o.*1)) as [Hin|Hnin];
        destruct (decide (k ∈ k0 :: o.*1)) as [H|H]; try done.
      * destruct H. by right.
      * apply elem_of_cons in H as [->|H]; [by destruct Hne|by destruct Hnin].
Qed.

Lemma objSet_NoDup (k : string) (v : V) o : NoDup o.*1 → NoDup (objSet k v o).*1.
Proof.
  intros H. rewrite objSet_keys. case_decide; [done|].
  apply NoDup_app. split; [done|]. split; [|apply NoDup_singleton].
  intros x Hx ->%list_elem_of_singleton. done.
Qed.

Lemma elem_of_objGet o k v : NoDup o.*1 → (k, v) ∈ o ↔ objGet k o = Some v.
Proof.
  induction o as [|[k0 v0] o IH]; simpl; intros Hnd.
  - split; [intros []%elem_of_nil|done].
  - apply NoDup_cons in Hnd as [Hk0 Hnd]. rewrite elem_of_cons, IH by done.
    case_decide as Hk.
    + subst k0. split.
      * intros [[= ->]|Hg]; [done|].
        destruct Hk0. apply dec_stable. rewrite <-objGet_None. congruence.
      * intros [= ->]. by left.
    + split; [intros [[= -> ->]|Hg]; [done|exact Hg]|by right].
Qed.

Lemma objEquiv_Permutation o o' :
  NoDup o.*1 → NoDup o'.*1 → objEquiv o o' → o ≡ₚ o'.
Proof.
  intros Hnd Hnd' Heq. apply NoDup_Permutation.
  - by apply (NoDup_fmap_1 fst).
  - by apply (NoDup_fmap_1 fst).
  - intros [k v]. by rewrite !elem_of_objGet, Heq.
Qed.
End Objects.

Global Instance objEquiv_equivalence {V} : Equivalence (@objEquiv V).
Proof.
  split.
  - by intros o k.
  - intros o o' H k. by rewrite H.
  - intros o1 o2 o3 H1 H2 k. by rewrite H1, H2.
Qed.

(** A left fold whose steps commute gives the same result, up to an
    equivalence, on a list and on a rearrangement of it. *)
Lemma foldl_Permutation_R {A B} (R : relation B) `{!Equivalence R} (f : B → A → B) :
  (∀ b b' x, R b b' → R (f b x) (f b' x)) →
  (∀ b x y, R (f (f b x) y) (f (f b y) x)) →
  ∀ l l', l ≡ₚ l' → ∀ b b', R b b' → R (foldl f b l) (foldl f b' l').
Proof.
  intros Hproper Hcomm.
  assert (Hacc : ∀ l b b', R b b' → R (foldl f b l) (foldl f b' l)).
  { induction l as [|x l IH]; intros b b' Hb; simpl; [done|]. apply IH. auto. }
  induction 1 as [|x l l' _ IH|x y l|l1 l2 l3 _ IH1 _ IH2]; intros b b' Hb; simpl.
  - done.
  - apply IH. auto.
  - apply Hacc. etrans; [apply Hcomm|]. auto.
  - etrans; [apply IH1; reflexivity|]. by apply IH2.
Qed.

Lemma foldl_Permutation {A B} (f : B → A → B) :
  (∀ b x y, f (f b x) y = f (f b y) x) →
  ∀ l l', l ≡ₚ l' → ∀ b, foldl f b l = foldl f b l'.
Proof.
  intros Hcomm l l' Hl b.
  apply (foldl_Permutation_R (=) f); [by intros ??? ->|done|done|done].
Qed.

Lemma foldl_bind {A B C} (f : B → C → B) (g : A → list C) (b : B) (l : list A) :
  foldl (λ acc a, foldl f acc (g a)) b l = foldl f b (l ≫= g).
Proof.
  revert b. induction l as [|a l IH]; intros b; [done|].
  simpl. by rewrite IH, foldl_app.
Qed.

(** ** Aggregates do not depend on the order of the conversations *)

Lemma sumQc_Permutation {A} (f : A → Qc) (l l' : list A) :
  l ≡ₚ l' → sumQc f l = sumQc f l'.
Proof.
  intros H. unfold sumQc. apply foldl_Permutation; [|done].
  intros b x y. ring.
Qed.

Lemma sumZ_Permutation {A} (f : A → Z) (l l' : list A) :
  l ≡ₚ l' → sumZ f l = sumZ f l'.
Proof.
  intros H. unfold sumZ. apply foldl_Permutation; [|done].
  intros b x y. lia.
Qed.

Lemma getConversationsWithCosts_Permutation (convs convs' : list Conversation.t) :
  convs ≡ₚ convs' → getConversationsWithCosts convs ≡ₚ getConversationsWithCosts convs'.
Proof.
  intros H. unfold getConversationsWithCosts. by rewrite !sortBy_Permutation, H.
Qed.

Lemma getTotalStats_Permutation (convs convs' : list Conversation.t) :
  convs ≡ₚ convs' → getTotalStats convs = getTotalStats convs'.
Proof.
  intros H%getConversationsWithCosts_Permutation. unfold getTotalStats.
  rewrite (sumQc_Permutation Conversation.totalCost _ _ H).
  rewrite (sumQc_Permutation Conversation.duration _ _ H).
  rewrite (sumZ_Permutation Conversation.messageCount _ _ H).
  rewrite (sumZ_Permutation (λ c, Tokens.total (Conversation.totalTokens c)) _ _ H).
  by rewrite (Permutation_length H).
Qed.

Lemma objGet_addTool (k : string) (o : list (string * ToolAgg.t)) (e : string * ToolData.t) :
  objGet k (addTool o e)
  = if decide (e.1 = k)
    then
      let old := default (ToolAgg.Build e.1 0 0%Qc 0 0) (objGet e.1 o) in
      Some (ToolAgg.Build (ToolAgg.name old)
              (ToolAgg.totalCount old + ToolData.count e.2)
              (ToolAgg.totalCost old + ToolData.totalCost e.2)%Qc
              (ToolAgg.totalErrors old + ToolData.errors e.2)
              (ToolAgg.conversations old + 1))
    else objGet k o.
Proof. destruct e as [n d]. unfold addTool. by rewrite objGet_objSet. Qed.

Lemma addTool_proper (o o' : list (string * ToolAgg.t)) (e : string * ToolData.t) :
  objEquiv o o' → objEquiv (addTool o e) (addTool o' e).
Proof. intros H k. by rewrite !objGet_addTool, !H. Qed.

Lemma addTool_comm (o : list (string * ToolAgg.t)) (x y : string * ToolData.t) :
  objEquiv (addTool (addTool o x) y) (addTool (addTool o y) x).
Proof.
  intros k. rewrite !objGet_addTool.
  destruct x as [n1 d1], y as [n2 d2]. cbn [fst snd].
  destruct (decide (n1 = k)) as [->|H1], (decide (n2 = k)) as [->|H2];
    rewrite ?decide_True by done; rewrite ?decide_False by done; try done.
  destruct (objGet k o); simpl; (f_equal; f_equal; first [lia|ring]).
Qed.

Lemma addTool_NoDup (o : list (string * ToolAgg.t)) (e : string * ToolData.t) :
  NoDup o.*1 → NoDup (addTool o e).*1.
Proof. destruct e. apply objSet_NoDup. Qed.

Lemma foldl_NoDup {V E} (step : list (string * V) → E → list (string * V)) :
  (∀ o e, NoDup o.*1 → NoDup (step o e).*1) →
  ∀ es o, NoDup o.*1 → NoDup (foldl step o es).*1.
Proof. intros Hstep. induction es as [|e es IH]; intros o Ho; simpl; auto. Qed.

Lemma toolTotals_Permutation (convs convs' : list Conversation.t) :
  convs ≡ₚ convs' →
  objEquiv (toolTotals convs) (toolTotals convs')
  ∧ (toolTotals convs).*2 ≡ₚ (toolTotals convs').*2.
Proof.
  intros H. unfold toolTotals. rewrite !foldl_bind.
  assert (He : objEquiv (foldl addTool [] (convs ≫= Conversation.toolUsage))
                 (foldl addTool [] (convs' ≫= Conversation.toolUsage))).
  { apply (foldl_Permutation_R objEquiv);
      [apply addTool_proper|apply addTool_comm|by rewrite H|done]. }
  split; [done|]. apply fmap_Permutation, objEquiv_Permutation; [| |done];
    apply foldl_NoDup; auto using addTool_NoDup, NoDup_nil_2.
Qed.

Lemma Tokens_add_comm (a b c : Tokens.t) :
  Tokens.add (Tokens.add a b) c = Tokens.add (Tokens.add a c) b.
Proof. unfold Tokens.add. simpl. f_equal; lia. Qed.

Lemma objGet_addModel (k : string) (o : list (string * ModelAgg.t))
    (e : string * ModelData.t) :
  objGet k (addModel o e)
  = if decide (e.1 = k)
    then
      let old := default (ModelAgg.Build e.1 0 0%Qc Tokens.zero 0) (objGet e.1 o) in
      Some (ModelAgg.Build (ModelAgg.model old)
              (ModelAgg.totalCount old + ModelData.count e.2)
              (ModelAgg.totalCost old + ModelData.cost e.2)%Qc
              (Tokens.add (ModelAgg.totalTokens old) (ModelData.tokens e.2))
              (ModelAgg.conversations old + 1))
    else objGet k o.
Proof. destruct e as [n d]. unfold addModel. by rewrite objGet_objSet. Qed.

Lemma addModel_proper (o o' : list (string * ModelAgg.t)) (e : string * ModelData.t) :
  objEquiv o o' → objEquiv (addModel o e) (addModel o' e).
Proof. intros H k. by rewrite !objGet_addModel, !H. Qed.

Lemma addModel_comm (o : list (string * ModelAgg.t)) (x y : string * ModelData.t) :
  objEquiv (addModel (addModel o x) y) (addModel (addModel o y) x).
Proof.
  intros k. rewrite !objGet_addModel.
  destruct x as [n1 d1], y as [n2 d2]. cbn [fst snd].
  destruct (decide (n1 = k)) as [->|H1], (decide (n2 = k)) as [->|H2];
    rewrite ?decide_True by done; rewrite ?decide_False by done; try done.
  destruct (objGet k o); simpl;
    (f_equal; f_equal; first [lia|ring|apply Tokens_add_comm]).
Qed.

Lemma addModel_NoDup (o : list (string * ModelAgg.t)) (e : string * ModelData.t) :
  NoDup o.*1 → NoDup (addModel o e).*1.
Proof. destruct e. apply objSet_NoDup. Qed.

Lemma modelTotals_Permutation (convs convs' : list Conversation.t) :
  convs ≡ₚ convs' →
  objEquiv (modelTotals convs) (modelTotals convs')
  ∧ (modelTotals convs).*2 ≡ₚ (modelTotals convs').*2.
Proof.
  intros H. unfold modelTotals. rewrite !foldl_bind.
  assert (He : objEquiv (foldl addModel [] (convs ≫= Conversation.models))
                 (foldl addModel [] (convs' ≫= Conversation.models))).
  { apply (foldl_Permutation_R objEquiv);
      [apply addModel_proper|apply addModel_comm|by rewrite H|done]. }
  split; [done|]. apply fmap_Permutation, objEquiv_Permutation; [| |done];
    apply foldl_NoDup; auto using addModel_NoDup, NoDup_nil_2.
Qed.

(** Two lists sorted by the same key, the keys of one a rearrangement of
    the keys of the other, show the same sequence of keys. *)
Lemma descZ_keys_unique {A} (key : A → Z) (l l' : list A) :
  key <$> l ≡ₚ key <$> l' →
  key <$> sortBy (descZ key) l = key <$> sortBy (descZ key) l'.
Proof.
  intros H. apply (Sorted_unique_strong (flip Z.le)).
  - unfold flip. intros x1 x2 _ _ H1 H2. lia.
  - apply descZ_sorted_keys.
  - apply descZ_sorted_keys.
  - by rewrite !sortBy_Permutation.
Qed.

Lemma descQc_keys_unique {A} (key : A → Qc) (l l' : list A) :
  key <$> l ≡ₚ key <$> l' →
  key <$> sortBy (descQc key) l = key <$> sortBy (descQc key) l'.
Proof.
  intros H. apply (Sorted_unique_strong (flip Qcle)).
  - unfold flip. intros x1 x2 _ _ H1 H2. by apply Qcle_antisym.
  - apply descQc_sorted_keys.
  - apply descQc_sorted_keys.
  - by rewrite !sortBy_Permutation.
Qed.

Lemma objGet_addCountCost (k key : string) (o : list (string * CountCost.t))
    (count : Z) (cost : Qc) :
  objGet k (addCountCost o key count cost)
  = if decide (key = k)
    then
      let old := default (CountCost.Build 0 0%Qc) (objGet key o) in
      Some (CountCost.Build (CountCost.count old + count) (CountCost.cost old + cost)%Qc)
    else objGet k o.
Proof. unfold addCountCost. by rewrite objGet_objSet. Qed.

Section Breakdown.
Context {E : Type} (key : E → string) (count : E → Z) (cost : E → Qc).
Local Abbreviation add := (addBreakdown key count cost).

Lemma breakdown_proper o o' e : objEquiv o o' → objEquiv (add o e) (add o' e).
Proof. intros H k. unfold addBreakdown. by rewrite !objGet_addCountCost, !H. Qed.

Lemma breakdown_comm o x y : objEquiv (add (add o x) y) (add (add o y) x).
Proof.
  intros k. unfold addBreakdown. rewrite !objGet_addCountCost.
  destruct (decide (key x = k)) as [Hx|Hx], (decide (key y = k)) as [Hy|Hy];
    rewrite ?Hx, ?Hy; rewrite ?decide_True by done; rewrite ?decide_False by congruence;
    try done.
  destruct (objGet k o); simpl; (f_equal; f_equal; first [lia|ring]).
Qed.

Lemma breakdown_fold_proper o o' es :
  objEquiv o o' → objEquiv (foldl add o es) (foldl add o' es).
Proof.
  intros H.
  apply (foldl_Permutation_R objEquiv);
    [apply breakdown_proper|apply breakdown_comm|done|done].
Qed.

Lemma breakdown_fold_comm o es es' :
  objEquiv (foldl add (foldl add o es) es') (foldl add (foldl add o es') es).
Proof.
  rewrite <-!foldl_app.
  apply (foldl_Permutation_R objEquiv);
    [apply breakdown_proper|apply breakdown_comm|apply Permutation_app_comm|done].
Qed.
End Breakdown.

Lemma objGet_addProject (k : string) (o : list (string * ProjectStats.t))
    (c : Conversation.t) :
  objGet k (addProject o c)
  = if decide (Conversation.projectName c = k)
    then
      let project :=
        default (ProjectStats.Build (Conversation.projectName c) 0%Qc 0 0 0%Qc [] [])
          (objGet (Conversation.projectName c) o) in
      Some (ProjectStats.Build (ProjectStats.name project)
              (ProjectStats.totalCost project + Conversation.totalCost c)%Qc
              (ProjectStats.totalTokens project + Tokens.total (Conversation.totalTokens c))
              (ProjectStats.conversationCount project + 1)
              (ProjectStats.totalDuration project + Conversation.duration c)%Qc
              (foldl (λ o e, addCountCost o e.1 (ToolData.count e.2) (ToolData.totalCost e.2))
                 (ProjectStats.toolUsage project) (Conversation.toolUsage c))
              (foldl (λ o e, addCountCost o e.1 (ModelData.count e.2) (ModelData.cost e.2))
                 (ProjectStats.models project) (Conversation.models c)))
    else objGet k o.
Proof. unfold addProject. by rewrite objGet_objSet. Qed.

Global Instance sameProject_equivalence : Equivalence sameProject.
Proof.
  split.
  - by intros p.
  - intros p p' (H1 & H2 & H3). by split; [|split].
  - intros p1 p2 p3 (H1 & H2 & H3) (H1' & H2' & H3').
    split; [congruence|]. split; etrans; eauto.
Qed.

Global Instance sameProjects_equivalence : Equivalence sameProjects.
Proof.
  split.
  - intros o k. destruct (objGet k o); by constructor.
  - intros o o' H k. destruct (H k); constructor. by symmetry.
  - intros o1 o2 o3 H1 H2 k. specialize (H1 k). specialize (H2 k).
    destruct (objGet k o1), (objGet k o2), (objGet k o3); inv H1; inv H2; constructor.
    by etrans.
Qed.

Lemma default_sameProject (zero : ProjectStats.t) (p p' : option ProjectStats.t) :
  option_Forall2 sameProject p p' → sameProject (default zero p) (default zero p').
Proof. by destruct 1. Qed.

Lemma addProject_proper (o o' : list (string * ProjectStats.t)) (c : Conversation.t) :
  sameProjects o o' → sameProjects (addProject o c) (addProject o' c).
Proof.
  intros H k. rewrite !objGet_addProject. case_decide; [|apply H].
  constructor. cbv zeta.
  destruct (default_sameProject
              (ProjectStats.Build (Conversation.projectName c) 0%Qc 0 0 0%Qc [] [])
              _ _ (H (Conversation.projectName c))) as (Hs & Ht & Hm).
  unfold projectScalars in Hs. injection Hs as Hn Hc Hk Hcc Hd.
  split; [|split]; simpl.
  - unfold projectScalars. simpl. by rewrite Hn, Hc, Hk, Hcc, Hd.
  - by apply (breakdown_fold_proper fst (λ e, ToolData.count e.2)
                (λ e, ToolData.totalCost e.2)).
  - by apply (breakdown_fold_proper fst (λ e, ModelData.count e.2)
                (λ e, ModelData.cost e.2)).
Qed.

Lemma addProject_comm (o : list (string * ProjectStats.t)) (x y : Conversation.t) :
  sameProjects (addProject (addProject o x) y) (addProject (addProject o y) x).
Proof.
  intros k. rewrite !objGet_addProject.
  destruct (decide (Conversation.projectName x = k)) as [Hx|Hx],
    (decide (Conversation.projectName y = k)) as [Hy|Hy];
    rewrite ?Hx, ?Hy; rewrite ?decide_True by done; rewrite ?decide_False by congruence;
    try reflexivity.
  constructor. cbv zeta. destruct (objGet k o) as [p|]; simpl.
  - split; [|split]; simpl.
    + unfold projectScalars. simpl.
      repeat apply (f_equal2 pair); first [done|lia|ring].
    + apply (breakdown_fold_comm fst (λ e, ToolData.count e.2)
               (λ e, ToolData.totalCost e.2)).
    + apply (breakdown_fold_comm fst (λ e, ModelData.count e.2)
               (λ e, ModelData.cost e.2)).
  - split; [|split]; simpl.
    + unfold projectScalars. simpl.
      repeat apply (f_equal2 pair); first [done|lia|ring].
    + apply (breakdown_fold_comm fst (λ e, ToolData.count e.2)
               (λ e, ToolData.totalCost e.2)).
    + apply (breakdown_fold_comm fst (λ e, ModelData.count e.2)
               (λ e, ModelData.cost e.2)).
Qed.

Lemma addProject_NoDup (o : list (string * ProjectStats.t)) (c : Conversation.t) :
  NoDup o.*1 → NoDup (addProject o c).*1.
Proof. apply objSet_NoDup. Qed.

Lemma objGet_fmap {V W} (f : V → W) (k : string) (o : list (string * V)) :
  objGet k (prod_map id f <$> o) = f <$> objGet k o.
Proof.
  induction o as [|[k0 v0] o IH]; [done|]. simpl. by case_decide.
Qed.

Lemma fmap_keys {V W} (f : V → W) (o : list (string * V)) :
  (prod_map id f <$> o).*1 = o.*1.
Proof. induction o as [|[k v] o IH]; [done|]. cbn. f_equal. exact IH. Qed.

Lemma projectTotals_Permutation (convs convs' : list Conversation.t) :
  convs ≡ₚ convs' →
  sameProjects (projectTotals convs) (projectTotals convs')
  ∧ ProjectStats.totalCost <$> (projectTotals convs).*2
    ≡ₚ ProjectStats.totalCost <$> (projectTotals convs').*2.
Proof.
  intros H. unfold projectTotals.
  assert (He : sameProjects (foldl addProject [] convs) (foldl addProject [] convs')).
  { apply (foldl_Permutation_R sameProjects);
      [apply addProject_proper|apply addProject_comm|done|done]. }
  split; [done|].
  assert (Hc : ∀ o : list (string * ProjectStats.t),
             ProjectStats.totalCost <$> o.*2
             = (prod_map id ProjectStats.totalCost <$> o).*2).
  { intros o. rewrite <-!list_fmap_compose. by apply list_fmap_ext; intros ? []. }
  rewrite !Hc. apply fmap_Permutation, objEquiv_Permutation.
  - rewrite fmap_keys.
    apply foldl_NoDup; auto using addProject_NoDup, NoDup_nil_2.
  - rewrite fmap_keys.
    apply foldl_NoDup; auto using addProject_NoDup, NoDup_nil_2.
  - intros k. rewrite !objGet_fmap. destruct (He k) as [p p' (Hs & _)|]; [|done].
    simpl. unfold projectScalars in Hs. congruence.
Qed.



(** The order of the properties of the per-tool object does depend on the
    order of the conversations. *)
Lemma toolTotals_order_differs :
  (toolTotals [conversationA; conversationB]).*1 = ["Bash"; "Read"]
  ∧ (toolTotals [conversationB; conversationA]).*1 = ["Read"; "Bash"].
Proof. split; reflexivity. Qed.

Lemma utcHours_range (t : Z) : 0 ≤ utcHours t < 24.
Proof. unfold utcHours. apply Z.mod_pos_bound. lia. Qed.


(** * Further properties of the code *)

(** ** SecurityUtils: strings *)

Lemma string_append_cons (c : ascii) (a b : string) :
  String.append (String c a) b = String c (String.append a b).
Proof. reflexivity. Qed.

Lemma string_append_assoc (a b c : string) :
  String.append a (String.append b c) = String.append (String.append a b) c.
Proof.
  induction a as [|x a IH]; [done|].
  change (String x (String.append a (String.append b c))
          = String x (String.append (String.append a b) c)).
  by rewrite IH.
Qed.

Lemma replaceChar_append c r a b :
  replaceChar c r (String.append a b)
  = String.append (replaceChar c r a) (replaceChar c r b).
Proof.
  induction a as [|c' a IH]; [done|].
  change (replaceChar c r (String.append (String c' a) b))
    with (if Ascii.eqb c' c then String.append r (replaceChar c r (String.append a b))
          else String c' (replaceChar c r (String.append a b))).
  change (replaceChar c r (String c' a))
    with (if Ascii.eqb c' c then String.append r (replaceChar c r a)
          else String c' (replaceChar c r a)).
  rewrite IH. destruct (Ascii.eqb c' c); [apply string_append_assoc|done].
Qed.

Lemma replaceChar_absent c r s : occursIn c s = false → replaceChar c r s = s.
Proof.
  induction s as [|c' s IH]; simpl; [done|].
  intros [-> H]%orb_false_iff. by rewrite IH.
Qed.

Lemma occursIn_append c a b :
  occursIn c (String.append a b) = occursIn c a || occursIn c b.
Proof. induction a as [|c' a IH]; simpl; [done|]. by rewrite IH, orb_assoc. Qed.

Lemma escapeHtml_cons (c : ascii) (s : string) :
  escapeHtml (JStr (String c s)) = String.append (htmlEntity c) (escapeHtml (JStr s)).
Proof.
  unfold escapeHtml, htmlEntity.
  cbn [replaceChar].
  destruct (Ascii.eqb c "&") eqn:E1.
  { rewrite !replaceChar_append. reflexivity. }
  cbn [replaceChar]. destruct (Ascii.eqb c "<") eqn:E2.
  { rewrite !replaceChar_append. reflexivity. }
  cbn [replaceChar]. destruct (Ascii.eqb c ">") eqn:E3.
  { rewrite !replaceChar_append. reflexivity. }
  cbn [replaceChar]. destruct (Ascii.eqb c doubleQuote) eqn:E4.
  { rewrite !replaceChar_append. reflexivity. }
  cbn [replaceChar]. destruct (Ascii.eqb c "'") eqn:E5.
  { rewrite !replaceChar_append. reflexivity. }
  cbn [replaceChar]. destruct (Ascii.eqb c "/") eqn:E6; reflexivity.
Qed.

Lemma htmlEntity_safe (c d : ascii) :
  d ∈ ["<"; ">"; doubleQuote; "'"; "/"]%char → occursIn d (htmlEntity c) = false.
Proof.
  intros Hd. unfold htmlEntity.
  repeat (match goal with |- context [Ascii.eqb c ?x] =>
            destruct (Ascii.eqb c x) eqn:? end).
  1-6: by repeat (apply elem_of_cons in Hd as [->|Hd]; [reflexivity|]);
    apply elem_of_nil in Hd.
  simpl. rewrite orb_false_r.
  repeat (apply elem_of_cons in Hd as [->|Hd]; [done|]). by apply elem_of_nil in Hd.
Qed.

(** X1.  [escapeHtml] of a string is the string with each of the six
    characters & < > " ' / replaced by its entity and every other character
    kept: the six successive replacements do not escape one another's
    output.  The result contains none of < > " ' /.  What is not a string
    gives the empty string. *)
Theorem escapeHtml_entities (unsafe : JsValue) :
  (∀ s, unsafe = JStr s → escapeHtml unsafe = expandChars htmlEntity s)
  ∧ (∀ d, d ∈ ["<"; ">"; doubleQuote; "'"; "/"]%char →
          occursIn d (escapeHtml unsafe) = false)
  ∧ ((∀ s, unsafe ≠ JStr s) → escapeHtml unsafe = "").
Proof.
  assert (Hexp : ∀ s, escapeHtml (JStr s) = expandChars htmlEntity s).
  { induction s as [|c s IH]; [done|]. by rewrite escapeHtml_cons, IH. }
  split; [by intros s ->|]. split.
  - intros d Hd. destruct unsafe as [| | |s| |]; try reflexivity.
    rewrite Hexp. induction s as [|c s IH]; [done|].
    simpl. by rewrite occursIn_append, IH, htmlEntity_safe.
  - intros H. destruct unsafe as [| | |s| |]; try reflexivity. by destruct (H s).
Qed.

Lemma escapeHtml_entities_witness :
  escapeHtml (JStr "<a href='x'>&</a>")
  = expandChars htmlEntity "<a href='x'>&</a>".
Proof. exact (proj1 (escapeHtml_entities (JStr "<a href='x'>&</a>")) _ eq_refl). Defined.

Lemma removeChars_clean (bad : ascii → bool) (s : string) :
  allChars (λ c, negb (bad c)) (removeChars bad s) = true.
Proof.
  induction s as [|c s IH]; simpl; [done|].
  destruct (bad c) eqn:E; simpl; [done|]. by rewrite E, IH.
Qed.

Lemma removeChars_unchanged (bad : ascii → bool) (s : string) :
  allChars (λ c, negb (bad c)) s = true → removeChars bad s = s.
Proof.
  induction s as [|c s IH]; simpl; [done|].
  intros [Hc Hs]%andb_true_iff. apply negb_true_iff in Hc. by rewrite Hc, IH.
Qed.

(** X2.  The result of [sanitizeShellArg] contains none of the characters
    ; & | ` $ < > \; an argument without them is returned as it is, so
    sanitizing twice is sanitizing once; what is not a string gives the
    empty string. *)
Theorem sanitizeShellArg_clean (arg : JsValue) :
  allChars (λ c, negb (isShellMeta c)) (sanitizeShellArg arg) = true
  ∧ (∀ s, arg = JStr s → allChars (λ c, negb (isShellMeta c)) s = true →
          sanitizeShellArg arg = s)
  ∧ sanitizeShellArg (JStr (sanitizeShellArg arg)) = sanitizeShellArg arg
  ∧ ((∀ s, arg ≠ JStr s) → sanitizeShellArg arg = "").
Proof.
  assert (H1 : allChars (λ c, negb (isShellMeta c)) (sanitizeShellArg arg) = true).
  { destruct arg; try reflexivity. apply removeChars_clean. }
  split; [done|]. split; [|split].
  - intros s -> Hs. by apply removeChars_unchanged.
  - by apply removeChars_unchanged.
  - intros H. destruct arg as [| | |s| |]; try reflexivity. by destruct (H s).
Qed.

Lemma sanitizeShellArg_clean_witness :
  sanitizeShellArg (JStr "report.html") = "report.html".
Proof.
  exact (proj1 (proj2 (sanitizeShellArg_clean (JStr "report.html"))) _ eq_refl eq_refl).
Defined.

Lemma replaceChars_length bad r s :
  String.length (replaceChars bad r s) = String.length s.
Proof. induction s as [|c s IH]; simpl; [done|]. by rewrite IH. Qed.

(** X3.  Whatever [path.basename] returns, every character of the result
    of [sanitizeFilename] is a letter, a digit, a dot, an underscore or a
    hyphen, so the result holds no path separator; for a string that is not
    empty the result has the length of the base name, and an empty string
    or a value that is not a string gives "unknown". *)
Theorem sanitizeFilename_safe (basename : string → string) (filename : JsValue) :
  allChars isFilenameChar (sanitizeFilename basename filename) = true
  ∧ occursIn "/" (sanitizeFilename basename filename) = false
  ∧ occursIn "\" (sanitizeFilename basename filename) = false
  ∧ (∀ s, filename = JStr s → nonEmpty s = true →
          String.length (sanitizeFilename basename filename) = String.length (basename s))
  ∧ ((∀ s, filename = JStr s → s = "") → sanitizeFilename basename filename = "unknown").
Proof.
  assert (Hall : allChars isFilenameChar (sanitizeFilename basename filename) = true).
  { unfold sanitizeFilename. destruct filename as [| | |s| |]; try reflexivity.
    destruct (nonEmpty s); [|reflexivity].
    induction (basename s) as [|c b IH]; simpl; [done|].
    rewrite IH, andb_true_r. by destruct (isFilenameChar c) eqn:E. }
  assert (Hno : ∀ d, isFilenameChar d = false →
                     occursIn d (sanitizeFilename basename filename) = false).
  { intros d Hd. revert Hall. induction (sanitizeFilename basename filename) as [|c b IH];
      simpl; [done|].
    intros [Hc Hb]%andb_true_iff. rewrite IH by done. rewrite orb_false_r.
    apply Ascii.eqb_neq. intros ->. congruence. }
  split; [done|]. split; [by apply Hno|]. split; [by apply Hno|]. split.
  - intros s -> Hs. unfold sanitizeFilename. rewrite Hs. apply replaceChars_length.
  - intros H. unfold sanitizeFilename. destruct filename as [| | |s| |]; try reflexivity.
    by rewrite (H s eq_refl).
Qed.

Lemma sanitizeFilename_safe_witness :
  String.length (sanitizeFilename (λ s, s) (JStr "a b.jsonl")) = String.length "a b.jsonl".
Proof.
  exact (proj1 (proj2 (proj2 (proj2
           (sanitizeFilename_safe (λ s, s) (JStr "a b.jsonl"))))) _ eq_refl eq_refl).
Defined.

Lemma takeWhileChars_split (p : ascii → bool) (s : string) :
  ∃ rest, s = String.append (takeWhileChars p s) rest
          ∧ allChars p (takeWhileChars p s) = true
          ∧ match rest with String c _ => p c = false | EmptyString => True end.
Proof.
  induction s as [|c s (rest & Hs & Hall & Hrest)]; simpl.
  - by exists "".
  - destruct (p c) eqn:E.
    + exists rest. rewrite string_append_cons, <-Hs.
      split; [done|]. split; [simpl; by rewrite E|done].
    + by exists (String c s).
Qed.

Lemma takeWhileChars_append (p : ascii → bool) (w rest : string) :
  allChars p w = true →
  match rest with String c _ => p c = false | EmptyString => True end →
  takeWhileChars p (String.append w rest) = w.
Proof.
  intros Hw Hrest. induction w as [|c w IH].
  - change (String.append "" rest) with rest.
    destruct rest as [|c r]; simpl; [done|]. by rewrite Hrest.
  - rewrite string_append_cons. simpl in *.
    apply andb_true_iff in Hw as [-> Hw]. by rewrite IH.
Qed.

(** X4.  A user text holds a slash command exactly when it is a slash,
    then one or more word characters, then either nothing or a character
    that is not a word character; the command is that run of word
    characters. *)
Theorem matchCommand_spec (text command : string) :
  matchCommand text = Some command
  ↔ nonEmpty command = true
    ∧ allChars isWordChar command = true
    ∧ ∃ rest, text = String "/" (String.append command rest)
              ∧ match rest with
                | String c _ => isWordChar c = false
                | EmptyString => True
                end.
Proof.
  unfold matchCommand. split.
  - destruct text as [|c t]; [done|].
    destruct (Ascii.eqb c "/") eqn:E; [|done]. apply Ascii.eqb_eq in E as ->.
    destruct (nonEmpty (takeWhileChars isWordChar t)) eqn:En; [|done].
    intros [= <-]. destruct (takeWhileChars_split isWordChar t) as (rest & Ht & Hall & Hr).
    split; [done|]. split; [done|]. exists rest. by rewrite <-Ht.
  - intros (Hn & Hall & rest & -> & Hr). simpl.
    by rewrite takeWhileChars_append, Hn.
Qed.

Lemma matchCommand_spec_witness : matchCommand "/clear all" = Some "clear".
Proof.
  apply (proj2 (matchCommand_spec "/clear all" "clear")).
  split; [reflexivity|]. split; [reflexivity|]. exists " all". split; reflexivity.
Defined.

(** ** The rate limiter *)

Lemma cleanupRequests_lookup windowMs now requests key times :
  cleanupRequests windowMs now requests !! key = Some times →
  requests !! key = Some times.
Proof.
  unfold cleanupRequests. destruct (decide (1000 < size requests)%nat); [|done].
  intros Hf%map_lookup_filter_Some. by destruct Hf.
Qed.

Lemma cleanupRequests_dropped windowMs now requests key times :
  requests !! key = Some times →
  cleanupRequests windowMs now requests !! key = None →
  Forall (λ time, windowMs ≤ now - time) times.
Proof.
  unfold cleanupRequests. destruct (decide (1000 < size requests)%nat); [|congruence].
  intros Hk Hnone. apply dec_stable. intros Hnot.
  assert (filter (λ kv : string * list Z, ¬ Forall (λ time, windowMs ≤ now - time) kv.2)
            requests !! key = Some times) as Hsome.
  { by apply map_lookup_filter_Some. }
  congruence.
Qed.

Lemma filter_idemp {A} (P : A → Prop) `{∀ x, Decision (P x)} (l : list A) :
  filter P (filter P l) = filter P l.
Proof.
  induction l as [|x l IH]; [done|].
  rewrite filter_cons. destruct (decide (P x)); [|done].
  by rewrite filter_cons_True, IH.
Qed.

Lemma filter_submseteq_mono {A} (P : A → Prop) `{∀ x, Decision (P x)} (l k : list A) :
  l ⊆+ k → filter P l ⊆+ filter P k.
Proof.
  induction 1 as [|x l k _ IH|x y l|x l k _ IH|l1 l2 l3 _ IH1 _ IH2].
  - done.
  - rewrite !filter_cons. destruct (decide (P x)); [by constructor|done].
  - rewrite !filter_cons. destruct (decide (P x)), (decide (P y)); try done.
    by constructor.
  - rewrite filter_cons. destruct (decide (P x)); [by constructor|done].
  - by etrans.
Qed.

Lemma filter_submseteq_weaken {A} (P Q : A → Prop)
    `{∀ x, Decision (P x), ∀ x, Decision (Q x)} (l : list A) :
  (∀ x, P x → Q x) → filter P l ⊆+ filter Q l.
Proof.
  intros HPQ. induction l as [|x l IH]; [done|].
  rewrite !filter_cons. destruct (decide (P x)) as [HP|HP].
  - rewrite decide_True by auto. by constructor.
  - destruct (decide (Q x)); [by constructor|done].
Qed.

(** The invariant of a run: the stored lists are no longer than
    [maxRequests], and every allowed instant of a key that is still inside
    the window is in the stored list of the key. *)
Lemma runRateLimiter_invariant (maxRequests windowMs : Z) (calls : list (Z * string)) :
  Sorted Z.le calls.*1 →
  (∀ key times, (runRateLimiter maxRequests windowMs calls).2 !! key = Some times →
                Z.of_nat (length times) ≤ maxRequests)
  ∧ (∀ key now, Forall (λ t, t ≤ now) calls.*1 →
       allowedInWindow windowMs now key (runRateLimiter maxRequests windowMs calls).1
       ⊆+ default [] ((runRateLimiter maxRequests windowMs calls).2 !! key)).
Proof.
  induction calls as [|[now key] calls IH] using rev_ind.
  { intros _. simpl. split; [intros ??; by rewrite lookup_empty|].
    intros key now _. by rewrite lookup_empty. }
  rewrite fmap_app. intros Hsorted.
  assert (Hpre : Sorted Z.le calls.*1 ∧ Forall (λ t, t ≤ now) calls.*1).
  { apply Sorted_StronglySorted in Hsorted; [|intros ???; lia].
    apply StronglySorted_app in Hsorted as (Hall & Hl1 & _).
    split; [by apply StronglySorted_Sorted|].
    apply Forall_forall. intros t Ht. apply (Hall t now Ht). simpl. left. }
  destruct Hpre as [Hs Hle]. specialize (IH Hs).
  unfold runRateLimiter in *. rewrite foldl_app. cbn [foldl].
  destruct (foldl _ _ calls) as [log requests]. destruct IH as [Hlen Hsub].
  cbn [fst snd] in *. unfold rateLimiter.
  set (valid := filter (λ time, now - time < windowMs) (default [] (requests !! key))).
  assert (Hvalid : allowedInWindow windowMs now key log ⊆+ valid).
  { unfold allowedInWindow. subst valid.
    rewrite <-filter_idemp.
    apply filter_submseteq_mono, (Hsub key now Hle). }
  destruct (decide (maxRequests ≤ Z.of_nat (length valid))) as [Hfull|Hroom].
  - cbn [fst snd]. split; [done|]. intros k T HT. apply Forall_app in HT as [HT1 _]. by apply Hsub.
  - cbn [fst snd]. split.
    + intros k times Hk%cleanupRequests_lookup.
      destruct (decide (key = k)) as [->|Hne].
      * rewrite lookup_insert_eq in Hk. injection Hk as <-.
        rewrite length_app. simpl. lia.
      * rewrite lookup_insert_ne in Hk by done. eauto.
    + intros k T HT. apply Forall_app in HT as [HT1 HT2].
      cbn [fmap list_fmap fst] in HT2. apply Forall_cons in HT2 as [HT2 _].
      assert (Hbefore :
        allowedInWindow windowMs T k (log ++ [(key, now)])
        ⊆+ default [] (<[key := valid ++ [now]]> requests !! k)).
      { unfold allowedInWindow. rewrite omap_app, filter_app.
        destruct (decide (key = k)) as [->|Hne].
        - rewrite lookup_insert_eq. cbn [omap list_omap fst snd default from_option id].
          rewrite decide_True by done. cbn [option_list app].
          apply submseteq_app.
          + etrans; [|exact Hvalid]. unfold allowedInWindow.
            apply filter_submseteq_weaken. intros t. lia.
          + rewrite filter_cons. destruct (decide (T - now < windowMs)); [done|].
            apply submseteq_nil_l.
        - rewrite lookup_insert_ne by done. cbn [omap list_omap fst snd].
          rewrite decide_False by done. cbn [option_list app].
          rewrite filter_nil, app_nil_r. by apply Hsub. }
      destruct (cleanupRequests windowMs now (<[key := valid ++ [now]]> requests) !! k)
        as [times|] eqn:Hk.
      * apply cleanupRequests_lookup in Hk. by rewrite Hk in Hbefore.
      * destruct (<[key := valid ++ [now]]> requests !! k) as [times|] eqn:Hk';
          [|exact Hbefore].
        pose proof (cleanupRequests_dropped _ _ _ _ _ Hk' Hk) as Hold.
        cbn [default from_option id] in *.
        destruct (allowedInWindow windowMs T k (log ++ [(key, now)])) as [|t ts] eqn:Hw;
          [done|].
        assert (Ht : t ∈ allowedInWindow windowMs T k (log ++ [(key, now)])).
        { rewrite Hw. left. }
        assert (Ht' : t ∈ times).
        { eapply elem_of_submseteq; [|exact Hbefore]. left. }
        unfold allowedInWindow in Ht. apply list_elem_of_filter in Ht as [Ht _].
        rewrite Forall_forall in Hold. specialize (Hold t Ht'). lia.
Qed.

(** X5.  For calls made at instants that do not decrease, on a limiter
    that starts empty: no key ever has more than [maxRequests] recorded
    instants, and in the window of [windowMs] that ends at any instant not
    before the last call, at most [maxRequests] calls of a key were
    allowed. *)
Theorem rateLimiter_window_bound (maxRequests windowMs : Z) (calls : list (Z * string)) :
  Sorted Z.le calls.*1 →
  (∀ key times, (runRateLimiter maxRequests windowMs calls).2 !! key = Some times →
                Z.of_nat (length times) ≤ maxRequests)
  ∧ (∀ key now, Forall (λ t, t ≤ now) calls.*1 →
       Z.of_nat (length (allowedInWindow windowMs now key
                           (runRateLimiter maxRequests windowMs calls).1))
       ≤ Z.max 0 maxRequests).
Proof.
  intros Hsorted.
  destruct (runRateLimiter_invariant maxRequests windowMs calls Hsorted) as [Hlen Hsub].
  split; [exact Hlen|]. intros key now Hnow.
  specialize (Hsub key now Hnow). apply submseteq_length in Hsub.
  destruct ((runRateLimiter maxRequests windowMs calls).2 !! key) as [times|] eqn:E.
  - specialize (Hlen key times E). simpl in Hsub. lia.
  - simpl in Hsub. lia.
Qed.

Lemma threeCalls_sorted : Sorted Z.le [(0, "a"); (10, "a"); (20, "a")].*1.
Proof. cbn. repeat first [lia | constructor]. Qed.

Lemma rateLimiter_window_bound_witness :
  Z.of_nat (length (allowedInWindow 100 20 "a"
                      (runRateLimiter 2 100 [(0, "a"); (10, "a"); (20, "a")]).1))
  ≤ Z.max 0 2.
Proof.
  apply (proj2 (rateLimiter_window_bound 2 100 [(0, "a"); (10, "a"); (20, "a")]
                  threeCalls_sorted)).
  cbn. repeat first [lia | constructor].
Defined.

(** A third call inside the window of two allowed calls is refused and
    leaves the map as it was. *)
Lemma rateLimiter_refuses_third :
  (runRateLimiter 2 100 [(0, "a"); (10, "a"); (20, "a")]).1 = [("a", 0); ("a", 10)]
  ∧ (runRateLimiter 2 100 [(0, "a"); (10, "a"); (20, "a")]).2
    = (runRateLimiter 2 100 [(0, "a"); (10, "a")]).2.
Proof. split; reflexivity. Qed.

(** ** The conversation built from a file *)

(** The parts of the conversation that the handler of a line changes
    before and after its assistant branch. *)
Lemma front_fields m c :
  let c' := recordToolUse m (captureFirstUserMessage m (extractMetadata m
              (extractSessionId m c))) in
  Conversation.totalCost c' = Conversation.totalCost c
  ∧ Conversation.totalTokens c' = Conversation.totalTokens c
  ∧ Conversation.messageCount c' = Conversation.messageCount c
  ∧ Conversation.models c' = Conversation.models c
  ∧ Conversation.messages c' = Conversation.messages c
  ∧ Conversation.startTime c' = Conversation.startTime c
  ∧ Conversation.endTime c' = Conversation.endTime c
  ∧ Conversation.toolUsage c' = Conversation.toolUsage (recordToolUse m c)
  ∧ Conversation.sessionId c' = Conversation.sessionId (extractSessionId m c).
Proof.
  unfold recordToolUse, captureFirstUserMessage, extractMetadata, extractSessionId.
  repeat (case_match; simpl; try done).
Qed.

Lemma back_fields m c :
  let c' := trackTimeRange m (pushMessage m c) in
  Conversation.totalCost c' = Conversation.totalCost c
  ∧ Conversation.totalTokens c' = Conversation.totalTokens c
  ∧ Conversation.messageCount c' = Conversation.messageCount c
  ∧ Conversation.models c' = Conversation.models c
  ∧ Conversation.toolUsage c' = Conversation.toolUsage c
  ∧ Conversation.sessionId c' = Conversation.sessionId c
  ∧ Conversation.messages c' = Conversation.messages c ++ [entryOf m]
  ∧ Conversation.startTime c' = Conversation.startTime (trackTimeRange m c)
  ∧ Conversation.endTime c' = Conversation.endTime (trackTimeRange m c).
Proof.
  cbv zeta. unfold trackTimeRange, pushMessage, entryOf.
  destruct (Message.timestamp m) as [t|]; [|done].
  destruct (Conversation.startTime c) as [s|] eqn:Es,
    (Conversation.endTime c) as [e|] eqn:Ee;
    repeat first [progress simpl | progress rewrite ?Es, ?Ee | case_decide]; done.
Qed.

Lemma processAssistant_cases pricing m st :
  (throwsInCost pricing m = true ∧ billed pricing m = None
   ∧ ∃ e, processAssistant pricing m st = Throw e)
  ∨ (throwsInCost pricing m = false ∧ billed pricing m = None
     ∧ processAssistant pricing m st = Return st)
  ∨ (throwsInCost pricing m = false
     ∧ ∃ cost tokens model c,
         billed pricing m = Some (cost, tokens)
         ∧ processAssistant pricing m st = Return (MkParserState c (Message.timestamp m))
         ∧ Conversation.totalCost c = (Conversation.totalCost (conv st) + cost)%Qc
         ∧ Conversation.totalTokens c = Tokens.add (Conversation.totalTokens (conv st)) tokens
         ∧ Conversation.messageCount c = Conversation.messageCount (conv st) + 1
         ∧ Conversation.models c
           = (let old := default (ModelData.Build 0 0%Qc Tokens.zero)
                           (objGet model (Conversation.models (conv st))) in
              objSet model
                (ModelData.Build (ModelData.count old + 1) (ModelData.cost old + cost)%Qc
                   (Tokens.add (ModelData.tokens old) tokens))
                (Conversation.models (conv st)))
         ∧ Conversation.toolUsage c
           = match truthy (Message.parentUUID m) with
             | Some parent =>
                 attributeToolCost parent cost (Conversation.toolUsage (conv st))
             | None => Conversation.toolUsage (conv st)
             end
         ∧ Conversation.messages c = Conversation.messages (conv st)
         ∧ Conversation.startTime c = Conversation.startTime (conv st)
         ∧ Conversation.endTime c = Conversation.endTime (conv st)
         ∧ Conversation.sessionId c = Conversation.sessionId (conv st)).
Proof.
  unfold throwsInCost, billed, processAssistant, calculateCost.
  destruct (isType m "assistant"); [|by right; left].
  destruct (Message.message m) as [payload|]; simpl; [|by right; left].
  destruct (Payload.usage payload) as [usage|]; simpl; [|by right; left].
  destruct (truthy (Payload.model payload)) as [model|]; simpl; [|by right; left].
  destruct (resolvePricing pricing model) as [rate|] eqn:Er; simpl.
  - right; right. split; [done|].
    eexists _, _, model, _. split; [reflexivity|]. split; [reflexivity|].
    destruct (truthy (Message.parentUUID m));
      destruct (burnSample _ _ _ _); simpl; done.
  - left. eauto.
Qed.

Lemma Tokens_add_zero (t : Tokens.t) : Tokens.add t Tokens.zero = t.
Proof. destruct t. unfold Tokens.add. simpl. f_equal; lia. Qed.

Lemma costBearing_billed pricing m :
  costBearing pricing (Json m) = bool_decide (is_Some (billed pricing m)).
Proof. reflexivity. Qed.

(** What one line adds to the three totals. *)
Lemma processLine_totals pricing st line :
  Conversation.totalCost (conv (processLine pricing st line))
  = (Conversation.totalCost (conv st) + lineCost pricing line)%Qc
  ∧ Conversation.totalTokens (conv (processLine pricing st line))
    = Tokens.add (Conversation.totalTokens (conv st)) (lineTokens pricing line)
  ∧ Conversation.messageCount (conv (processLine pricing st line))
    = Conversation.messageCount (conv st)
      + (if costBearing pricing line then 1 else 0).
Proof.
  destruct line as [| |m]; simpl;
    try (rewrite Qcplus_0_r, Tokens_add_zero, Z.add_0_r; done).
  destruct (front_fields m (conv st)) as (F1 & F2 & F3 & _).
  match goal with |- context [processAssistant pricing m ?s] =>
    destruct (processAssistant_cases pricing m s)
      as [(_ & Hb & e & ->)|[(_ & Hb & ->)|(_ & cost & tokens & model & c & Hb & -> & A1 & A2 & A3 & _)]]
  end; rewrite Hb; simpl.
  - rewrite F1, F2, F3, Qcplus_0_r, Tokens_add_zero, Z.add_0_r. done.
  - match goal with |- context [trackTimeRange m (pushMessage m ?c)] =>
      destruct (back_fields m c) as (B1 & B2 & B3 & _) end.
    rewrite B1, B2, B3, F1, F2, F3, Qcplus_0_r, Tokens_add_zero, Z.add_0_r. done.
  - destruct (back_fields m c) as (B1 & B2 & B3 & _).
    simpl in A1, A2, A3. rewrite B1, B2, B3, A1, A2, A3, F1, F2, F3. done.
Qed.

Lemma finish_fields (conversationId : string) (c : Conversation.t) :
  let c' := finish conversationId c in
  Conversation.totalCost c' = Conversation.totalCost c
  ∧ Conversation.totalTokens c' = Conversation.totalTokens c
  ∧ Conversation.messageCount c' = Conversation.messageCount c
  ∧ Conversation.models c' = Conversation.models c
  ∧ Conversation.toolUsage c' = Conversation.toolUsage c
  ∧ Conversation.sessionId c' = Conversation.sessionId c
  ∧ Conversation.messages c' = Conversation.messages c
  ∧ Conversation.startTime c' = Conversation.startTime c
  ∧ Conversation.endTime c' = Conversation.endTime c
  ∧ Conversation.conversationId c' = conversationId.
Proof.
  cbv zeta. unfold finish. destruct c as [].
  cbn [Conversation.endTime Conversation.startTime].
  match goal with |- context [match ?e with Some _ => _ | None => _ end] =>
    destruct e end;
  match goal with |- context [match ?e with Some _ => _ | None => _ end] =>
    destruct e | _ => idtac end; done.
Qed.

Lemma sumZ_nil {A} (f : A → Z) : sumZ f [] = 0.
Proof. reflexivity. Qed.

Lemma sumQc_nil {A} (f : A → Qc) : sumQc f [] = 0%Qc.
Proof. reflexivity. Qed.

Lemma sumQc_acc {A} (f : A → Qc) (a : Qc) (l : list A) :
  foldl (λ sum c, (sum + f c)%Qc) a l = (a + sumQc f l)%Qc.
Proof.
  unfold sumQc. revert a. induction l as [|x l IH]; intros a; simpl.
  - by rewrite Qcplus_0_r.
  - rewrite IH, (IH (0 + f x)%Qc). ring.
Qed.

Lemma sumQc_snoc {A} (f : A → Qc) (l : list A) (x : A) :
  sumQc f (l ++ [x]) = (sumQc f l + f x)%Qc.
Proof. unfold sumQc. by rewrite foldl_app. Qed.

Lemma sumQc_cons {A} (f : A → Qc) (x : A) (l : list A) :
  sumQc f (x :: l) = (f x + sumQc f l)%Qc.
Proof. unfold sumQc at 1. simpl. rewrite sumQc_acc. ring. Qed.

Lemma sumZ_acc {A} (f : A → Z) (a : Z) (l : list A) :
  foldl (λ sum c, sum + f c) a l = a + sumZ f l.
Proof.
  unfold sumZ. revert a. induction l as [|x l IH]; intros a; simpl; [lia|].
  rewrite IH, (IH (0 + f x)). lia.
Qed.

Lemma sumZ_snoc {A} (f : A → Z) (l : list A) (x : A) :
  sumZ f (l ++ [x]) = sumZ f l + f x.
Proof. unfold sumZ. by rewrite foldl_app. Qed.

Lemma sumZ_cons {A} (f : A → Z) (x : A) (l : list A) :
  sumZ f (x :: l) = f x + sumZ f l.
Proof. unfold sumZ at 1. simpl. rewrite sumZ_acc. lia. Qed.

Lemma parseLines_totals pricing lines :
  Conversation.totalCost (conv (parseLines pricing lines)) = sumQc (lineCost pricing) lines
  ∧ Conversation.totalTokens (conv (parseLines pricing lines))
    = foldl (λ t line, Tokens.add t (lineTokens pricing line)) Tokens.zero lines
  ∧ Conversation.messageCount (conv (parseLines pricing lines))
    = Z.of_nat (length (filter (λ line, costBearing pricing line = true) lines)).
Proof.
  induction lines as [|line lines (IH1 & IH2 & IH3)] using rev_ind; [done|].
  rewrite parseLines_app. cbn [foldl].
  destruct (processLine_totals pricing (parseLines pricing lines) line) as (-> & -> & ->).
  rewrite IH1, IH2, IH3, sumQc_snoc, foldl_app, filter_app, length_app. cbn [foldl].
  split; [done|]. split; [done|].
  rewrite filter_cons, filter_nil.
  destruct (costBearing pricing line); case_decide; try done; simpl; lia.
Qed.



(** *** Per-model figures *)

Lemma sumQc_objSet {V} (g : V → Qc) (k : string) (v : V) (o : list (string * V)) :
  sumQc (λ kv, g kv.2) (objSet k v o)
  = (sumQc (λ kv, g kv.2) o + g v - default 0%Qc (g <$> objGet k o))%Qc.
Proof.
  induction o as [|[k0 v0] o IH]; cbn [objSet objGet].
  - rewrite sumQc_cons. unfold sumQc. simpl. ring.
  - destruct (decide (k0 = k)) as [->|Hne].
    + rewrite !sumQc_cons. simpl. ring.
    + rewrite !sumQc_cons, IH. simpl. ring.
Qed.

Lemma sumZ_objSet {V} (g : V → Z) (k : string) (v : V) (o : list (string * V)) :
  sumZ (λ kv, g kv.2) (objSet k v o)
  = sumZ (λ kv, g kv.2) o + g v - default 0 (g <$> objGet k o).
Proof.
  induction o as [|[k0 v0] o IH]; cbn [objSet objGet].
  - rewrite sumZ_cons. unfold sumZ. simpl. lia.
  - destruct (decide (k0 = k)) as [->|Hne].
    + rewrite !sumZ_cons. simpl. lia.
    + rewrite !sumZ_cons, IH. simpl. lia.
Qed.

Lemma tokenFields_add p a b :
  p ∈ tokenFields → p (Tokens.add a b) = p a + p b.
Proof.
  unfold tokenFields. rewrite !elem_of_cons, elem_of_nil.
  intros [->|[->|[->|[->|[->|[]]]]]]; done.
Qed.

Lemma tokenFields_zero p : p ∈ tokenFields → p Tokens.zero = 0.
Proof.
  unfold tokenFields. rewrite !elem_of_cons, elem_of_nil.
  intros [->|[->|[->|[->|[->|[]]]]]]; done.
Qed.

Lemma modelsAgree_ext c c' :
  Conversation.models c' = Conversation.models c →
  Conversation.totalCost c' = Conversation.totalCost c →
  Conversation.messageCount c' = Conversation.messageCount c →
  Conversation.totalTokens c' = Conversation.totalTokens c →
  modelsAgree c → modelsAgree c'.
Proof. unfold modelsAgree. by intros -> -> -> ->. Qed.

Lemma processLine_modelsAgree pricing st line :
  modelsAgree (conv st) → modelsAgree (conv (processLine pricing st line)).
Proof.
  intros Hinv. destruct line as [| |m]; simpl; try done.
  destruct (front_fields m (conv st)) as (F1 & F2 & F3 & F4 & _).
  match goal with |- context [processAssistant pricing m ?s] =>
    destruct (processAssistant_cases pricing m s)
      as [(_ & _ & e & ->)|[(_ & _ & ->)|(_ & cost & tokens & model & c & _ & -> & A1 & A2 & A3 & A4 & _)]]
  end; simpl.
  - by apply (modelsAgree_ext (conv st)).
  - match goal with |- context [trackTimeRange m (pushMessage m ?c)] =>
      destruct (back_fields m c) as (B1 & B2 & B3 & B4 & _) end.
    apply (modelsAgree_ext (conv st)); [| | | |done]; congruence.
  - destruct (back_fields m c) as (B1 & B2 & B3 & B4 & _).
    simpl in A1, A2, A3, A4. rewrite F1 in A1. rewrite F2 in A2. rewrite F3 in A3.
    rewrite F4 in A4. destruct Hinv as (I1 & I2 & I3).
    unfold modelsAgree. rewrite B1, B2, B3, B4, A1, A2, A3, A4.
    split; [|split].
    + rewrite (sumQc_objSet ModelData.cost), I1.
      destruct (objGet model (Conversation.models (conv st))); simpl; ring.
    + rewrite (sumZ_objSet ModelData.count), I2.
      destruct (objGet model (Conversation.models (conv st))); simpl; lia.
    + intros p Hp. rewrite (sumZ_objSet (λ d, p (ModelData.tokens d))), (I3 p Hp).
      cbn [ModelData.tokens]. rewrite !(tokenFields_add p) by done.
      destruct (objGet model (Conversation.models (conv st))); simpl.
      * lia.
      * rewrite (tokenFields_zero p) by done. lia.
Qed.

Lemma parseLines_modelsAgree pricing lines :
  modelsAgree (conv (parseLines pricing lines)).
Proof.
  induction lines as [|line lines IH] using rev_ind.
  - split; [done|]. split; [done|]. intros p Hp. symmetry.
    apply (tokenFields_zero p Hp).
  - rewrite parseLines_app. cbn [foldl]. by apply processLine_modelsAgree.
Qed.


(** *** Tool usage *)

Lemma parsedObjects_snoc lines line :
  parsedObjects (lines ++ [line])
  = parsedObjects lines ++ match line with Json m => [m] | _ => [] end.
Proof.
  unfold parsedObjects. rewrite omap_app. f_equal. by destruct line.
Qed.

Lemma attributeToolCost_keeps (P : string * ToolData.t → Prop) parent cost tools :
  (∀ name d cost', P (name, d) →
     P (name, ToolData.Build (ToolData.count d) cost' (ToolData.errors d)
                (ToolData.executions d))) →
  Forall P tools → Forall P (attributeToolCost parent cost tools).
Proof.
  intros HP. induction 1 as [|[name d] tools Hd Htools IH]; simpl; [done|].
  destruct (existsb _ _); constructor; auto.
Qed.

Lemma attributeToolCost_keys parent cost tools :
  (attributeToolCost parent cost tools).*1 = tools.*1.
Proof.
  induction tools as [|[name d] tools IH]; cbn [attributeToolCost]; [done|].
  destruct (existsb _ _); cbn [fmap list_fmap fst]; [done|]. f_equal. exact IH.
Qed.

Lemma attributeToolCost_count parent cost tools :
  sumZ (λ kv, ToolData.count kv.2) (attributeToolCost parent cost tools)
  = sumZ (λ kv, ToolData.count kv.2) tools.
Proof.
  induction tools as [|[name d] tools IH]; cbn [attributeToolCost]; [done|].
  destruct (existsb _ _); rewrite !sumZ_cons; simpl; by rewrite ?IH.
Qed.

Lemma objSet_Forall {V} (P : string * V → Prop) k v (o : list (string * V)) :
  Forall P o → P (k, v) → Forall P (objSet k v o).
Proof.
  intros Ho Hv. induction Ho as [|[k0 v0] o H0 Ho IH]; simpl.
  - by constructor.
  - destruct (decide (k0 = k)); constructor; auto.
Qed.

Lemma objGet_Forall {V} (P : string * V → Prop) k v (o : list (string * V)) :
  Forall P o → objGet k o = Some v → P (k, v).
Proof.
  induction 1 as [|[k0 v0] o H0 Ho IH]; simpl; [done|].
  destruct (decide (k0 = k)) as [->|]; [by intros [= ->]|done].
Qed.

Lemma processLine_toolUsage pricing st line :
  let tools := Conversation.toolUsage (conv st) in
  let tools' := Conversation.toolUsage (conv (processLine pricing st line)) in
  match line with
  | Json m =>
      ∃ recorded,
        recorded = Conversation.toolUsage (recordToolUse m (conv st))
        ∧ (tools' = recorded
           ∨ ∃ parent cost tokens, billed pricing m = Some (cost, tokens)
               ∧ truthy (Message.parentUUID m) = Some parent
               ∧ tools' = attributeToolCost parent cost recorded)
  | _ => tools' = tools
  end.
Proof.
  cbv zeta. destruct line as [| |m]; simpl; try done.
  destruct (front_fields m (conv st)) as (_ & _ & _ & _ & _ & _ & _ & F8 & _).
  eexists. split; [reflexivity|].
  match goal with |- context [processAssistant pricing m ?s] =>
    destruct (processAssistant_cases pricing m s)
      as [(_ & _ & e & ->)|[(_ & _ & ->)|(_ & cost & tokens & model & c & Hb & -> & _ & _ & _ & _ & A5 & _)]]
  end; simpl.
  - by left.
  - match goal with |- context [trackTimeRange m (pushMessage m ?c)] =>
      destruct (back_fields m c) as (_ & _ & _ & _ & B5 & _) end.
    left. by rewrite B5.
  - destruct (back_fields m c) as (_ & _ & _ & _ & B5 & _).
    rewrite B5, A5. simpl. rewrite F8.
    destruct (truthy (Message.parentUUID m)) as [parent|]; [|by left].
    right. by exists parent, cost, tokens.
Qed.

Lemma attributeToolCost_toolsCounted n parent cost tools :
  toolsCounted n tools → toolsCounted n (attributeToolCost parent cost tools).
Proof.
  intros (H1 & H2 & H3). split; [|split].
  - by rewrite attributeToolCost_count.
  - by apply attributeToolCost_keeps.
  - by rewrite attributeToolCost_keys.
Qed.

Lemma recordToolUse_toolsCounted n m c :
  toolsCounted n (Conversation.toolUsage c) →
  toolsCounted (n + (if isType m "tool_use" then 1 else 0))
    (Conversation.toolUsage (recordToolUse m c)).
Proof.
  intros (H1 & H2 & H3). unfold recordToolUse.
  destruct (isType m "tool_use"); [|by rewrite Nat.add_0_r].
  cbv zeta. set (toolName := default "unknown" _).
  simpl. split; [|split].
  - rewrite (sumZ_objSet ToolData.count), H1.
    destruct (objGet toolName (Conversation.toolUsage c)); simpl; lia.
  - apply objSet_Forall; [done|]. simpl.
    destruct (objGet toolName (Conversation.toolUsage c)) as [old|] eqn:Hold; simpl.
    + apply (objGet_Forall _ _ _ _ H2) in Hold as (E1 & E2 & E3). simpl in *.
      rewrite length_app. simpl. lia.
    + done.
  - by apply objSet_NoDup.
Qed.

Lemma parseLines_toolsCounted pricing lines :
  toolsCounted (length (filter (λ m, isType m "tool_use" = true) (parsedObjects lines)))
    (Conversation.toolUsage (conv (parseLines pricing lines))).
Proof.
  induction lines as [|line lines IH] using rev_ind.
  - split; [done|]. split; [constructor|]. simpl. constructor.
  - rewrite parseLines_app, parsedObjects_snoc, filter_app, length_app. cbn [foldl].
    pose proof (processLine_toolUsage pricing (parseLines pricing lines) line) as H.
    cbv zeta in H. destruct line as [| |m].
    + rewrite H. simpl. by rewrite Nat.add_0_r.
    + rewrite H. simpl. by rewrite Nat.add_0_r.
    + assert (length (filter (λ m, isType m "tool_use" = true) [m])
              = if isType m "tool_use" then 1%nat else 0%nat) as ->.
      { rewrite filter_cons, filter_nil. destruct (isType m "tool_use"); by case_decide. }
      destruct H as (recorded & -> & [->|(parent & cost & tokens & _ & _ & ->)]).
      * by apply recordToolUse_toolsCounted.
      * by apply attributeToolCost_toolsCounted, recordToolUse_toolsCounted.
Qed.


Lemma attributeToolCost_totalCost (parent : string) (cost : Qc)
    (tools : list (string * ToolData.t)) :
  sumQc (λ kv, ToolData.totalCost kv.2) (attributeToolCost parent cost tools)
  = (sumQc (λ kv, ToolData.totalCost kv.2) tools
     + (if existsb (λ kv, existsb (relatedExecution parent) (ToolData.executions kv.2)) tools
        then cost else 0))%Qc.
Proof.
  induction tools as [|[name d] tools IH]; cbn [attributeToolCost existsb snd].
  - rewrite sumQc_nil. ring.
  - destruct (existsb (relatedExecution parent) (ToolData.executions d)); simpl.
    + rewrite !sumQc_cons. simpl. ring.
    + rewrite !sumQc_cons, IH. simpl. ring.
Qed.


Lemma recordToolUse_totalCost m c :
  sumQc (λ kv, ToolData.totalCost kv.2) (Conversation.toolUsage (recordToolUse m c))
  = sumQc (λ kv, ToolData.totalCost kv.2) (Conversation.toolUsage c).
Proof.
  unfold recordToolUse. destruct (isType m "tool_use"); [|done].
  cbv zeta. set (toolName := default "unknown" _). simpl.
  rewrite (sumQc_objSet ToolData.totalCost).
  destruct (objGet toolName (Conversation.toolUsage c)); simpl; ring.
Qed.

Lemma processLine_toolCostBounded pricing st line :
  (0 ≤ lineCost pricing line)%Qc →
  toolCostBounded (conv st) → toolCostBounded (conv (processLine pricing st line)).
Proof.
  intros Hcost (H1 & H2).
  destruct (processLine_totals pricing st line) as (T1 & _).
  pose proof (processLine_toolUsage pricing st line) as H. cbv zeta in H.
  unfold toolCostBounded. rewrite T1.
  destruct line as [| |m].
  - rewrite H. simpl. by rewrite Qcplus_0_r.
  - rewrite H. simpl. by rewrite Qcplus_0_r.
  - destruct H as (recorded & -> & [->|(parent & cost & tokens & Hb & _ & ->)]).
    + rewrite recordToolUse_totalCost. split; [done|].
      rewrite <-(Qcplus_0_r (sumQc _ _)). by apply Qcplus_le_compat.
    + rewrite attributeToolCost_totalCost, recordToolUse_totalCost.
      simpl in Hcost |- *. rewrite Hb in Hcost |- *. simpl in Hcost |- *.
      destruct (existsb _ _).
      * split; [|by apply Qcplus_le_compat].
        rewrite <-(Qcplus_0_r 0). by apply Qcplus_le_compat.
      * rewrite Qcplus_0_r. split; [done|].
        rewrite <-(Qcplus_0_r (sumQc _ _)). by apply Qcplus_le_compat.
Qed.



(** *** Messages, time range and session id *)

Lemma storedObjects_snoc pricing lines line :
  storedObjects pricing (lines ++ [line])
  = storedObjects pricing lines
    ++ match line with
       | Json m => if throwsInCost pricing m then [] else [m]
       | _ => []
       end.
Proof.
  unfold storedObjects. rewrite parsedObjects_snoc, filter_app. f_equal.
  destruct line as [| |m]; try done.
  rewrite filter_cons, filter_nil. destruct (throwsInCost pricing m); by case_decide.
Qed.

(** What one line does to the messages, the time range and the session id. *)
Lemma processLine_stored pricing st line :
  let c := conv st in
  let c' := conv (processLine pricing st line) in
  match line with
  | Json m =>
      Conversation.sessionId c' = Conversation.sessionId (extractSessionId m c)
      ∧ if throwsInCost pricing m
        then Conversation.messages c' = Conversation.messages c
             ∧ Conversation.startTime c' = Conversation.startTime c
             ∧ Conversation.endTime c' = Conversation.endTime c
        else Conversation.messages c' = Conversation.messages c ++ [entryOf m]
             ∧ ∃ c0, Conversation.startTime c0 = Conversation.startTime c
                     ∧ Conversation.endTime c0 = Conversation.endTime c
                     ∧ Conversation.startTime c' = Conversation.startTime (trackTimeRange m c0)
                     ∧ Conversation.endTime c' = Conversation.endTime (trackTimeRange m c0)
  | _ => c' = c
  end.
Proof.
  cbv zeta. destruct line as [| |m]; simpl; try done.
  destruct (front_fields m (conv st)) as (_ & _ & _ & _ & F5 & F6 & F7 & _ & F9).
  match goal with |- context [processAssistant pricing m ?s] =>
    destruct (processAssistant_cases pricing m s)
      as [(-> & _ & e & ->)|[(-> & _ & ->)|(-> & cost & tokens & model & c & _ & -> & _ & _ & _ & _ & _ & A6 & A7 & A8 & A9)]]
  end; simpl.
  - done.
  - match goal with |- context [trackTimeRange m (pushMessage m ?c)] =>
      destruct (back_fields m c) as (_ & _ & _ & _ & _ & B6 & B7 & B8 & B9) end.
    rewrite B6, B7, B8, B9, F5. split; [done|]. split; [done|]. eauto.
  - destruct (back_fields m c) as (_ & _ & _ & _ & _ & B6 & B7 & B8 & B9).
    simpl in *. rewrite B6, B7, B8, B9, A6, A9, F5. split; [done|]. split; [done|].
    exists c. split; [congruence|]. split; [congruence|done].
Qed.

Lemma parseLines_messages pricing lines :
  Conversation.messages (conv (parseLines pricing lines))
  = entryOf <$> storedObjects pricing lines.
Proof.
  induction lines as [|line lines IH] using rev_ind; [done|].
  rewrite parseLines_app, storedObjects_snoc, fmap_app, <-IH. cbn [foldl].
  pose proof (processLine_stored pricing (parseLines pricing lines) line) as H.
  cbv zeta in H. destruct line as [| |m].
  - rewrite H. by rewrite app_nil_r.
  - rewrite H. by rewrite app_nil_r.
  - destruct H as [_ H]. destruct (throwsInCost pricing m).
    + destruct H as (-> & _). by rewrite app_nil_r.
    + by destruct H as (-> & _).
Qed.


Lemma trackTimeRange_spans m c ts :
  spans ts (Conversation.startTime c) (Conversation.endTime c) →
  spans (ts ++ match Message.timestamp m with Some t => [t] | None => [] end)
    (Conversation.startTime (trackTimeRange m c))
    (Conversation.endTime (trackTimeRange m c)).
Proof.
  unfold trackTimeRange, spans.
  destruct (Message.timestamp m) as [t|]; [|by rewrite app_nil_r].
  destruct (Conversation.startTime c) as [s|] eqn:Es,
    (Conversation.endTime c) as [e|] eqn:Ee; try done.
  - intros (Hs & He & Hall).
    assert (s ≤ e) by (rewrite Forall_forall in Hall; apply (Hall s Hs)).
    destruct (decide (t < s)) as [Hts|Hts]; simpl; rewrite ?Ee, ?Es;
      destruct (decide (e < t)) as [Het|Het]; simpl; rewrite ?Ee, ?Es;
      rewrite !elem_of_app, !list_elem_of_singleton, Forall_app, Forall_singleton;
      (split; [auto|]); (split; [auto|]);
      (split; [|lia]); eapply Forall_impl; [exact Hall|simpl; lia
                                           |exact Hall|simpl; lia
                                           |exact Hall|simpl; lia
                                           |exact Hall|simpl; lia].
  - intros ->. simpl. rewrite Ee. simpl.
    rewrite !list_elem_of_singleton, Forall_singleton. lia.
Qed.

Lemma minutesBetween_nonneg (e s : Z) : s ≤ e → (0 ≤ minutesBetween e s)%Qc.
Proof.
  intros H. unfold minutesBetween, Qcdiv.
  repeat apply Qcmult_nonneg_nonneg.
  - rewrite <-Z2Qc_inj_0. apply (Z2Qc_inj_le 0 (e - s)). lia.
  - by vm_compute.
  - by vm_compute.
Qed.

Lemma processLine_duration pricing st line :
  Conversation.duration (conv (processLine pricing st line))
  = Conversation.duration (conv st).
Proof.
  destruct line as [| |m]; simpl; try done.
  set (c0 := recordToolUse m _).
  assert (H0 : Conversation.duration c0 = Conversation.duration (conv st)).
  { unfold c0, recordToolUse, captureFirstUserMessage, extractMetadata, extractSessionId.
    repeat (case_match; simpl; try done). }
  assert (Hback : ∀ c, Conversation.duration (trackTimeRange m (pushMessage m c))
                       = Conversation.duration c).
  { intros c. unfold trackTimeRange, pushMessage.
    repeat (case_match; simpl; try done). }
  destruct (processAssistant pricing m (MkParserState c0 (lastTimestamp st)))
    as [st2|e] eqn:Hst2; simpl; [|done].
  rewrite Hback, <-H0. revert Hst2. unfold processAssistant.
  repeat (case_match; simpl; try done); intros [= <-]; simpl; try done.
Qed.

Lemma parseLines_spans pricing lines :
  spans (omap Message.timestamp (storedObjects pricing lines))
    (Conversation.startTime (conv (parseLines pricing lines)))
    (Conversation.endTime (conv (parseLines pricing lines))).
Proof.
  induction lines as [|line lines IH] using rev_ind; [done|].
  rewrite parseLines_app, storedObjects_snoc, omap_app. cbn [foldl].
  pose proof (processLine_stored pricing (parseLines pricing lines) line) as H.
  cbv zeta in H. destruct line as [| |m].
  - rewrite H. by rewrite app_nil_r.
  - rewrite H. by rewrite app_nil_r.
  - destruct H as [_ H]. destruct (throwsInCost pricing m).
    + destruct H as (_ & -> & ->). by rewrite app_nil_r.
    + destruct H as (_ & c0 & E1 & E2 & -> & ->).
      rewrite <-E1, <-E2 in IH.
      apply (trackTimeRange_spans m) in IH.
      simpl. by destruct (Message.timestamp m).
Qed.

Lemma parseLines_duration pricing lines :
  Conversation.duration (conv (parseLines pricing lines)) = 0%Qc.
Proof.
  induction lines as [|line lines IH] using rev_ind; [done|].
  rewrite parseLines_app. cbn [foldl]. by rewrite processLine_duration.
Qed.

(** What the end of [parseJSONLFile] makes of a time range. *)
Lemma finish_time_range conversationId c ts :
  spans ts (Conversation.startTime c) (Conversation.endTime c) →
  Conversation.duration c = 0%Qc →
  let c' := finish conversationId c in
  match Conversation.startTime c', Conversation.endTime c' with
  | Some s, Some e =>
      s ∈ ts ∧ e ∈ ts ∧ Forall (λ t, s ≤ t ≤ e) ts
      ∧ Conversation.duration c' = minutesBetween e s
      ∧ (0 ≤ Conversation.duration c')%Qc
  | None, None => ts = [] ∧ Conversation.duration c' = 0%Qc
  | _, _ => False
  end.
Proof.
  intros Hspans Hduration. cbv zeta.
  destruct (finish_fields conversationId c) as (_ & _ & _ & _ & _ & _ & _ & -> & -> & _).
  unfold spans in Hspans. unfold finish.
  destruct (Conversation.startTime c) as [s|], (Conversation.endTime c) as [e|]; try done.
  destruct Hspans as (Hs & He & Hall). simpl.
  repeat (split; [done|]). apply minutesBetween_nonneg.
  rewrite Forall_forall in Hall. apply (Hall s Hs).
Qed.


(** X13.  The session id of a parsed conversation is the first session id,
    present and not empty, among the lines that parse to an object, and the
    empty string when there is none; later ids do not replace it, and a
    line on which the cost calculation throws still gives its id. *)
Theorem sessionId_is_first (pricing : gmap string Rate.t) (conversationId : string)
    (lines : list Line) :
  Conversation.sessionId (parseJSONLFile pricing conversationId lines)
  = default "" (head (omap (λ m, truthy (Message.sessionId m)) (parsedObjects lines))).
Proof.
  unfold parseJSONLFile.
  destruct (finish_fields conversationId (conv (parseLines pricing lines)))
    as (_ & _ & _ & _ & _ & -> & _).
  set (ids ls := omap (λ m, truthy (Message.sessionId m)) (parsedObjects ls)).
  assert (H : Conversation.sessionId (conv (parseLines pricing lines))
              = default "" (head (ids lines))
              ∧ Forall (λ v, nonEmpty v = true) (ids lines)); [|by destruct H].
  induction lines as [|line lines (IH1 & IH2)] using rev_ind; [by split|].
  unfold ids. rewrite parseLines_app, parsedObjects_snoc, omap_app. fold (ids lines).
  cbn [foldl].
  pose proof (processLine_stored pricing (parseLines pricing lines) line) as H.
  cbv zeta in H. destruct line as [| |m].
  - rewrite H. simpl. by rewrite app_nil_r.
  - rewrite H. simpl. by rewrite app_nil_r.
  - destruct H as [-> _]. unfold extractSessionId. cbn [omap list_omap].
    destruct (truthy (Message.sessionId m)) as [v|] eqn:Hv; cbn [omap list_omap].
    + split.
      * rewrite IH1. destruct (ids lines) as [|v0 rest]; simpl; [done|].
        apply Forall_cons in IH2 as [-> _]. done.
      * apply Forall_app. split; [done|]. apply Forall_singleton.
        by apply truthy_nonEmpty in Hv.
    + by rewrite app_nil_r.
Qed.

(** ** The monitor's running totals *)

Lemma applyUpdate_totals session update :
  Session.totalCost (applyUpdate session update)
  = (Session.totalCost session + updateCost update)%Qc
  ∧ Session.totalTokens (applyUpdate session update)
    = Session.totalTokens session + updateTokens update
  ∧ Session.messages (applyUpdate session update)
    = Session.messages session
      + (if bool_decide (Update.type update = Some "assistant") then 1 else 0)
  ∧ Session.startTime (applyUpdate session update) = Session.startTime session
  ∧ Session.sessionId (applyUpdate session update) = Session.sessionId session.
Proof.
  unfold applyUpdate, updateCost, updateTokens, truthyQc, truthyZ. simpl.
  split; [|split; [|split; [|done]]].
  - destruct (Update.cost update) as [q|]; simpl; [|ring].
    destruct (decide (q = 0%Qc)) as [->|]; ring.
  - destruct (Update.tokens update) as [n|]; simpl; [|lia].
    destruct (decide (n = 0)) as [->|]; lia.
  - destruct (bool_decide _); lia.
Qed.

Lemma foldl_applyUpdate_totals session updates :
  let session' := foldl applyUpdate session updates in
  Session.totalCost session' = (Session.totalCost session + sumQc updateCost updates)%Qc
  ∧ Session.totalTokens session' = Session.totalTokens session + sumZ updateTokens updates
  ∧ Session.messages session'
    = Session.messages session
      + Z.of_nat (length (filter (λ u, Update.type u = Some "assistant") updates))
  ∧ Session.startTime session' = Session.startTime session
  ∧ Session.sessionId session' = Session.sessionId session.
Proof.
  cbv zeta. induction updates as [|update updates IH] using rev_ind.
  - simpl. split; [unfold sumQc; simpl; ring|]. split; [unfold sumZ; simpl; lia|].
    split; [lia|done].
  - rewrite foldl_app. cbn [foldl].
    destruct (applyUpdate_totals (foldl applyUpdate session updates) update)
      as (-> & -> & -> & -> & ->).
    destruct IH as (-> & -> & -> & -> & ->).
    rewrite sumQc_snoc, sumZ_snoc, filter_app, length_app, filter_cons, filter_nil.
    split; [ring|]. split; [lia|]. split; [|done].
    destruct (decide (Update.type update = Some "assistant")) as [H|H].
    + rewrite bool_decide_eq_true_2 by done. simpl. lia.
    + rewrite bool_decide_eq_false_2 by done. simpl. lia.
Qed.

Lemma keepRecentActivity_totals session :
  let session' := keepRecentActivity session in
  Session.totalCost session' = Session.totalCost session
  ∧ Session.totalTokens session' = Session.totalTokens session
  ∧ Session.messages session' = Session.messages session
  ∧ Session.startTime session' = Session.startTime session
  ∧ Session.sessionId session' = Session.sessionId session.
Proof. cbv zeta. unfold keepRecentActivity. by case_decide. Qed.



Lemma modelPricing_resolvePricing pricing model rate :
  resolvePricing pricing model = Some rate → modelPricing pricing model = rate.
Proof.
  unfold resolvePricing, modelPricing.
  destruct (pricing !! model); [by intros [= ->]|]. by intros ->.
Qed.

(** What the monitor and the parser make of the same line, for a table in
    which the model of the line resolves. *)
Lemma makeUpdate_billed pricing now sessionId m :
  throwsInCost pricing m = false →
  updateCost (makeUpdate pricing now sessionId m) = lineCost pricing (Json m)
  ∧ updateTokens (makeUpdate pricing now sessionId m)
    = Tokens.total (lineTokens pricing (Json m)).
Proof.
  unfold throwsInCost, makeUpdate, updateCost, updateTokens, lineCost, lineTokens, billed.
  destruct (isType m "assistant"); [|done].
  destruct (Message.message m) as [payload|]; simpl; [|done].
  destruct (Payload.usage payload) as [usage|]; simpl; [|done].
  destruct (truthy (Payload.model payload)) as [model|]; simpl; [|done].
  destruct (resolvePricing pricing model) as [rate|] eqn:Hr; simpl.
  - intros _. by rewrite (modelPricing_resolvePricing _ _ _ Hr).
  - done.
Qed.

Lemma resolvePricing_default pricing model :
  is_Some (pricing !! "default") → is_Some (resolvePricing pricing model).
Proof. unfold resolvePricing. by destruct (pricing !! model). Qed.

Lemma throwsInCost_default pricing m :
  is_Some (pricing !! "default") → throwsInCost pricing m = false.
Proof.
  intros Hd. unfold throwsInCost. repeat (case_match; try done).
  apply bool_decide_eq_false. intros Hn.
  destruct (resolvePricing_default pricing s Hd) as [r Hr]. congruence.
Qed.

Lemma sumZ_lineTokens pricing lines :
  Tokens.total (foldl (λ t line, Tokens.add t (lineTokens pricing line)) Tokens.zero lines)
  = sumZ (λ line, Tokens.total (lineTokens pricing line)) lines.
Proof.
  induction lines as [|line lines IH] using rev_ind; [done|].
  rewrite foldl_app, sumZ_snoc, <-IH. done.
Qed.



(** ** Reading the tail of a file *)

Lemma splitNewline_nonempty s : splitNewline s ≠ [].
Proof.
  destruct s as [|c rest]; simpl; [done|].
  destruct (Ascii.eqb c newline); [done|]. by destruct (splitNewline rest).
Qed.

Lemma withoutLast_cons {A} (x : A) (l : list A) :
  l ≠ [] → withoutLast (x :: l) = x :: withoutLast l.
Proof.
  intros H. unfold withoutLast. destruct l as [|y l]; [done|].
  simpl. by rewrite Nat.sub_0_r.
Qed.

Lemma withoutLast_app {A} (l l' : list A) :
  l' ≠ [] → withoutLast (l ++ l') = l ++ withoutLast l'.
Proof.
  intros H. induction l as [|x l IH]; [done|].
  simpl. rewrite withoutLast_cons, IH; [done|]. by destruct l, l'.
Qed.

Lemma last_cons_nonempty {A} (x : A) (l : list A) : l ≠ [] → last (x :: l) = last l.
Proof. by destruct l. Qed.

Lemma last_app_nonempty {A} (l l' : list A) : l' ≠ [] → last (l ++ l') = last l'.
Proof.
  intros H. rewrite last_app. destruct (last l') eqn:E; [done|].
  by apply last_None in E.
Qed.

Lemma string_append_nil_r (s : string) : String.append s EmptyString = s.
Proof.
  induction s as [|c s IH]; [done|]. by rewrite string_append_cons, IH.
Qed.

(** Splitting a concatenation: the pieces of the first string but the
    last, then the pieces of that last piece followed by the second
    string. *)
Lemma splitNewline_append (a b : string) :
  splitNewline (String.append a b)
  = withoutLast (splitNewline a)
    ++ splitNewline (String.append (default EmptyString (last (splitNewline a))) b).
Proof.
  induction a as [|c a IH]; [done|].
  rewrite string_append_cons. cbn [splitNewline].
  pose proof (splitNewline_nonempty a) as Ha.
  destruct (Ascii.eqb c newline) eqn:Ec.
  - rewrite withoutLast_cons, last_cons_nonempty, IH by done. done.
  - rewrite IH. destruct (splitNewline a) as [|p ps]; [done|].
    destruct ps as [|p' ps].
    + cbn. rewrite string_append_cons. cbn [splitNewline]. by rewrite Ec.
    + rewrite (withoutLast_cons p), (withoutLast_cons (String c p)) by done.
      by rewrite (last_cons_nonempty p), (last_cons_nonempty (String c p)).
Qed.

Lemma lastN_all {A} (n : nat) (l : list A) : (length l ≤ n)%nat → lastN n l = l.
Proof. intros H. unfold lastN. by replace (length l - n)%nat with 0%nat by lia. Qed.

Lemma lastN_app_lastN {A} (n : nat) (l l' : list A) :
  lastN n (lastN n l ++ l') = lastN n (l ++ l').
Proof.
  unfold lastN. rewrite !length_app, length_drop.
  destruct (decide (length l ≤ n)%nat) as [H|H].
  - replace (length l - n)%nat with 0%nat by lia.
    by rewrite drop_0, Nat.sub_0_r.
  - rewrite !drop_app, drop_drop, length_drop.
    replace (length l - n + (length l - (length l - n) + length l' - n))%nat
      with (length l + length l' - n)%nat by lia.
    f_equal. f_equal. lia.
Qed.

Lemma trim_lastN {A} (n : nat) (l : list A) :
  (if decide (n < length l)%nat then drop (length l - n) l else l) = lastN n l.
Proof. case_decide; [done|]. by rewrite lastN_all by lia. Qed.

Lemma fileContent_snoc chunks chunk :
  fileContent (chunks ++ [chunk]) = String.append (fileContent chunks) chunk.
Proof.
  unfold fileContent. induction chunks as [|c chunks IH]; simpl.
  - by rewrite string_append_nil_r.
  - by rewrite IH, string_append_assoc.
Qed.

(** The state of the reader after the chunks delivered so far. *)
Lemma onData_state (numLines : nat) (chunks : list string) :
  let st := foldl (onData numLines) ReadState.initial chunks in
  let parts := splitNewline (fileContent chunks) in
  ReadState.lines st = lastN numLines (withoutLast parts)
  ∧ ReadState.remainder st = default EmptyString (last parts).
Proof.
  cbv zeta. induction chunks as [|chunk chunks [IH1 IH2]] using rev_ind; [done|].
  rewrite foldl_app, fileContent_snoc, splitNewline_append. cbn [foldl].
  set (st := foldl (onData numLines) ReadState.initial chunks) in *.
  unfold onData. cbv zeta. cbn [ReadState.lines ReadState.remainder].
  rewrite trim_lastN, IH1, IH2.
  pose proof (splitNewline_nonempty
                (String.append (default EmptyString (last (splitNewline (fileContent chunks))))
                   chunk)) as Hne.
  rewrite withoutLast_app, last_app_nonempty, lastN_app_lastN by done. done.
Qed.

(** X16.  For a positive [numLines], [readLastLines] returns the last
    [numLines] lines of the content of the file, in whatever chunks the
    stream delivers that content; a piece after the last newline counts as
    a line when it is not empty. *)
Theorem readLastLines_chunk_independent (numLines : nat) (chunks : list string) :
  (0 < numLines)%nat →
  readLastLines numLines chunks = lastN numLines (fileLines (fileContent chunks))
  ∧ (length (readLastLines numLines chunks) ≤ numLines)%nat.
Proof.
  intros Hn.
  assert (H : readLastLines numLines chunks
              = lastN numLines (fileLines (fileContent chunks))).
  { unfold readLastLines, onEnd, fileLines, sliceLast.
    destruct (onData_state numLines chunks) as [-> ->].
    rewrite decide_False by lia.
    destruct (nonEmpty _).
    - by rewrite lastN_app_lastN.
    - rewrite app_nil_r. apply lastN_all. rewrite lastN_length. lia. }
  split; [done|]. rewrite H, lastN_length. lia.
Qed.

Lemma readLastLines_chunk_independent_witness :
  readLastLines 2 ["a" +:+ String newline "b"; "c" +:+ String newline "d"]
  = lastN 2 (fileLines (fileContent ["a" +:+ String newline "b"; "c" +:+ String newline "d"])).
Proof.
  exact (proj1 (readLastLines_chunk_independent 2 _ ltac:(lia))).
Defined.

(** ** What the reports of the analyzer add up to *)

Lemma sumQc_map_insert {V} (g : V → Qc) (i : Z) (x : V) (m : gmap Z V) :
  sumQc (λ kv, g kv.2) (map_to_list (<[i:=x]> m))
  = (sumQc (λ kv, g kv.2) (map_to_list m) + g x - default 0%Qc (g <$> m !! i))%Qc.
Proof.
  destruct (m !! i) as [y|] eqn:E; simpl.
  - rewrite <-insert_delete_eq.
    rewrite (sumQc_Permutation _ _ _ (map_to_list_insert (delete i m) i x
                                        (lookup_delete_eq m i))).
    rewrite <-(sumQc_Permutation _ _ _ (map_to_list_delete m i y E)).
    rewrite !sumQc_cons. simpl. ring.
  - rewrite (sumQc_Permutation _ _ _ (map_to_list_insert m i x E)).
    rewrite sumQc_cons. simpl. ring.
Qed.

Lemma sumZ_map_insert {V} (g : V → Z) (i : Z) (x : V) (m : gmap Z V) :
  sumZ (λ kv, g kv.2) (map_to_list (<[i:=x]> m))
  = sumZ (λ kv, g kv.2) (map_to_list m) + g x - default 0 (g <$> m !! i).
Proof.
  destruct (m !! i) as [y|] eqn:E; simpl.
  - rewrite <-insert_delete_eq.
    rewrite (sumZ_Permutation _ _ _ (map_to_list_insert (delete i m) i x
                                       (lookup_delete_eq m i))).
    rewrite <-(sumZ_Permutation _ _ _ (map_to_list_delete m i y E)).
    rewrite !sumZ_cons. simpl. lia.
  - rewrite (sumZ_Permutation _ _ _ (map_to_list_insert m i x E)).
    rewrite sumZ_cons. simpl. lia.
Qed.

Lemma sumQc_fmap {A B} (f : B → Qc) (g : A → B) (l : list A) :
  sumQc f (g <$> l) = sumQc (λ x, f (g x)) l.
Proof.
  induction l as [|x l IH]; [done|].
  by rewrite fmap_cons, !sumQc_cons, IH.
Qed.

Lemma sumZ_fmap {A B} (f : B → Z) (g : A → B) (l : list A) :
  sumZ f (g <$> l) = sumZ (λ x, f (g x)) l.
Proof.
  induction l as [|x l IH]; [done|].
  by rewrite fmap_cons, !sumZ_cons, IH.
Qed.

Lemma fillHour_sums (m : gmap Z HourBucket.t) (i : Z) :
  sumQc (λ kv, HourBucket.totalCost kv.2) (map_to_list (fillHour m i))
  = sumQc (λ kv, HourBucket.totalCost kv.2) (map_to_list m)
  ∧ sumZ (λ kv, HourBucket.totalTokens kv.2) (map_to_list (fillHour m i))
    = sumZ (λ kv, HourBucket.totalTokens kv.2) (map_to_list m)
  ∧ sumZ (λ kv, HourBucket.conversationCount kv.2) (map_to_list (fillHour m i))
    = sumZ (λ kv, HourBucket.conversationCount kv.2) (map_to_list m).
Proof.
  unfold fillHour. destruct (m !! i) eqn:E; [done|].
  rewrite (sumQc_map_insert HourBucket.totalCost),
    (sumZ_map_insert HourBucket.totalTokens),
    (sumZ_map_insert HourBucket.conversationCount), E. simpl.
  split; [ring|]. split; lia.
Qed.

Lemma addHourly_sums getHours (m : gmap Z HourBucket.t) (c : Conversation.t) :
  let counted := bool_decide (is_Some (bucketHour getHours c)) in
  sumQc (λ kv, HourBucket.totalCost kv.2) (map_to_list (addHourly getHours m c))
  = (sumQc (λ kv, HourBucket.totalCost kv.2) (map_to_list m)
     + if counted then Conversation.totalCost c else 0)%Qc
  ∧ sumZ (λ kv, HourBucket.totalTokens kv.2) (map_to_list (addHourly getHours m c))
    = sumZ (λ kv, HourBucket.totalTokens kv.2) (map_to_list m)
      + (if counted then Tokens.total (Conversation.totalTokens c) else 0)
  ∧ sumZ (λ kv, HourBucket.conversationCount kv.2) (map_to_list (addHourly getHours m c))
    = sumZ (λ kv, HourBucket.conversationCount kv.2) (map_to_list m)
      + (if counted then 1 else 0).
Proof.
  cbv zeta. unfold addHourly, bucketHour.
  destruct (decide (0 < Conversation.totalCost c)%Qc);
    [|split; [simpl; ring|split; simpl; lia]].
  destruct (Conversation.startTime c) as [start|];
    [|split; [simpl; ring|split; simpl; lia]].
  cbv zeta.
  rewrite (sumQc_map_insert HourBucket.totalCost),
    (sumZ_map_insert HourBucket.totalTokens),
    (sumZ_map_insert HourBucket.conversationCount).
  destruct (m !! getHours start); simpl; (split; [ring|split; lia]).
Qed.


(** *** Tools *)

Lemma addTool_sums (o : list (string * ToolAgg.t)) (e : string * ToolData.t) :
  sumZ (λ kv, ToolAgg.totalCount kv.2) (addTool o e)
  = sumZ (λ kv, ToolAgg.totalCount kv.2) o + ToolData.count e.2
  ∧ sumQc (λ kv, ToolAgg.totalCost kv.2) (addTool o e)
    = (sumQc (λ kv, ToolAgg.totalCost kv.2) o + ToolData.totalCost e.2)%Qc
  ∧ sumZ (λ kv, ToolAgg.totalErrors kv.2) (addTool o e)
    = sumZ (λ kv, ToolAgg.totalErrors kv.2) o + ToolData.errors e.2
  ∧ sumZ (λ kv, ToolAgg.conversations kv.2) (addTool o e)
    = sumZ (λ kv, ToolAgg.conversations kv.2) o + 1.
Proof.
  destruct e as [toolName toolData]. unfold addTool. cbv zeta.
  rewrite (sumZ_objSet ToolAgg.totalCount), (sumQc_objSet ToolAgg.totalCost),
    (sumZ_objSet ToolAgg.totalErrors), (sumZ_objSet ToolAgg.conversations).
  destruct (objGet toolName o); simpl; (split; [lia|split; [ring|split; lia]]).
Qed.

Lemma foldl_addTool_sums (o : list (string * ToolAgg.t)) (tools : list (string * ToolData.t)) :
  sumZ (λ kv, ToolAgg.totalCount kv.2) (foldl addTool o tools)
  = sumZ (λ kv, ToolAgg.totalCount kv.2) o + sumZ (λ kv, ToolData.count kv.2) tools
  ∧ sumQc (λ kv, ToolAgg.totalCost kv.2) (foldl addTool o tools)
    = (sumQc (λ kv, ToolAgg.totalCost kv.2) o
       + sumQc (λ kv, ToolData.totalCost kv.2) tools)%Qc
  ∧ sumZ (λ kv, ToolAgg.totalErrors kv.2) (foldl addTool o tools)
    = sumZ (λ kv, ToolAgg.totalErrors kv.2) o + sumZ (λ kv, ToolData.errors kv.2) tools
  ∧ sumZ (λ kv, ToolAgg.conversations kv.2) (foldl addTool o tools)
    = sumZ (λ kv, ToolAgg.conversations kv.2) o + Z.of_nat (length tools).
Proof.
  induction tools as [|e tools (IH1 & IH2 & IH3 & IH4)] using rev_ind.
  - cbn [foldl length]. rewrite !sumZ_nil, sumQc_nil.
    split; [lia|split; [ring|split; lia]].
  - rewrite foldl_app. cbn [foldl].
    destruct (addTool_sums (foldl addTool o tools) e) as (-> & -> & -> & ->).
    rewrite IH1, IH2, IH3, IH4, !sumZ_snoc, sumQc_snoc, length_app. simpl.
    split; [lia|split; [ring|split; lia]].
Qed.

Lemma toolTotals_sums (conversations : list Conversation.t) :
  sumZ (λ kv, ToolAgg.totalCount kv.2) (toolTotals conversations)
  = sumZ (λ c, sumZ (λ kv, ToolData.count kv.2) (Conversation.toolUsage c)) conversations
  ∧ sumQc (λ kv, ToolAgg.totalCost kv.2) (toolTotals conversations)
    = sumQc (λ c, sumQc (λ kv, ToolData.totalCost kv.2) (Conversation.toolUsage c))
        conversations
  ∧ sumZ (λ kv, ToolAgg.totalErrors kv.2) (toolTotals conversations)
    = sumZ (λ c, sumZ (λ kv, ToolData.errors kv.2) (Conversation.toolUsage c)) conversations
  ∧ sumZ (λ kv, ToolAgg.conversations kv.2) (toolTotals conversations)
    = sumZ (λ c, Z.of_nat (length (Conversation.toolUsage c))) conversations.
Proof.
  unfold toolTotals.
  induction conversations as [|c conversations (IH1 & IH2 & IH3 & IH4)] using rev_ind;
    [done|].
  rewrite foldl_app. cbn [foldl].
  match goal with |- context [foldl addTool ?o ?t] =>
    destruct (foldl_addTool_sums o t) as (-> & -> & -> & ->) end.
  by rewrite IH1, IH2, IH3, IH4, !sumZ_snoc, sumQc_snoc.
Qed.


Lemma analyzeAllConversations_snoc pricing files file :
  analyzeAllConversations pricing (files ++ [file])
  = analyzeAllConversations pricing files
    ++ [Conversation.set_projectName (LogFile.projectDir file)
          (parseJSONLFile pricing (LogFile.name file) (LogFile.lines file))].
Proof. unfold analyzeAllConversations. by rewrite fmap_app. Qed.

(** The tools of a conversation that was loaded from a file. *)
Lemma loaded_toolsCounted pricing files c :
  c ∈ analyzeAllConversations pricing files →
  ∃ file, file ∈ files
    ∧ toolsCounted
        (length (filter (λ m, isType m "tool_use" = true)
                   (parsedObjects (LogFile.lines file))))
        (Conversation.toolUsage c).
Proof.
  unfold analyzeAllConversations. intros (file & -> & Hfile)%list_elem_of_fmap.
  exists file. split; [done|]. unfold parseJSONLFile.
  change (Conversation.toolUsage (Conversation.set_projectName ?p ?c))
    with (Conversation.toolUsage c).
  destruct (finish_fields (LogFile.name file)
              (conv (parseLines pricing (LogFile.lines file))))
    as (_ & _ & _ & _ & -> & _).
  apply parseLines_toolsCounted.
Qed.

Lemma addTool_no_errors (o : list (string * ToolAgg.t)) (e : string * ToolData.t) :
  ToolData.errors e.2 = 0 →
  Forall (λ kv, ToolAgg.totalErrors kv.2 = 0) o →
  Forall (λ kv, ToolAgg.totalErrors kv.2 = 0) (addTool o e).
Proof.
  destruct e as [toolName toolData]. simpl. intros He Ho. unfold addTool.
  apply objSet_Forall; [done|]. simpl.
  destruct (objGet toolName o) as [old|] eqn:Hold; simpl; [|lia].
  apply (objGet_Forall _ _ _ _ Ho) in Hold. simpl in Hold. lia.
Qed.

Lemma foldl_addTool_no_errors (o : list (string * ToolAgg.t))
    (tools : list (string * ToolData.t)) :
  Forall (λ kv, ToolData.errors kv.2 = 0) tools →
  Forall (λ kv, ToolAgg.totalErrors kv.2 = 0) o →
  Forall (λ kv, ToolAgg.totalErrors kv.2 = 0) (foldl addTool o tools).
Proof.
  revert o. induction tools as [|e tools IH]; intros o Ht Ho; [done|].
  apply Forall_cons in Ht as [He Ht]. cbn [foldl].
  apply IH; [done|]. by apply addTool_no_errors.
Qed.

Lemma foldl_addToolErrors_none (o : list (string * Z)) (tools : list (string * ToolData.t)) :
  Forall (λ kv, ToolData.errors kv.2 = 0) tools → foldl addToolErrors o tools = o.
Proof.
  induction 1 as [|[toolName toolData] tools He Ht IH]; [done|].
  cbn [foldl]. unfold addToolErrors at 2. simpl in He.
  rewrite decide_False by lia. exact IH.
Qed.


(** *** Models *)

Lemma addModel_sums (o : list (string * ModelAgg.t)) (e : string * ModelData.t) :
  sumQc (λ kv, ModelAgg.totalCost kv.2) (addModel o e)
  = (sumQc (λ kv, ModelAgg.totalCost kv.2) o + ModelData.cost e.2)%Qc
  ∧ sumZ (λ kv, ModelAgg.totalCount kv.2) (addModel o e)
    = sumZ (λ kv, ModelAgg.totalCount kv.2) o + ModelData.count e.2
  ∧ ∀ p, p ∈ tokenFields →
      sumZ (λ kv, p (ModelAgg.totalTokens kv.2)) (addModel o e)
      = sumZ (λ kv, p (ModelAgg.totalTokens kv.2)) o + p (ModelData.tokens e.2).
Proof.
  destruct e as [model data]. unfold addModel. cbv zeta.
  rewrite (sumQc_objSet ModelAgg.totalCost), (sumZ_objSet ModelAgg.totalCount).
  split; [|split].
  - destruct (objGet model o); simpl; ring.
  - destruct (objGet model o); simpl; lia.
  - intros p Hp. rewrite (sumZ_objSet (λ a, p (ModelAgg.totalTokens a))).
    cbn [ModelAgg.totalTokens]. rewrite (tokenFields_add p) by done.
    destruct (objGet model o); simpl; [lia|].
    rewrite (tokenFields_zero p) by done. lia.
Qed.

Lemma foldl_addModel_sums (o : list (string * ModelAgg.t))
    (models : list (string * ModelData.t)) :
  sumQc (λ kv, ModelAgg.totalCost kv.2) (foldl addModel o models)
  = (sumQc (λ kv, ModelAgg.totalCost kv.2) o + sumQc (λ kv, ModelData.cost kv.2) models)%Qc
  ∧ sumZ (λ kv, ModelAgg.totalCount kv.2) (foldl addModel o models)
    = sumZ (λ kv, ModelAgg.totalCount kv.2) o + sumZ (λ kv, ModelData.count kv.2) models
  ∧ ∀ p, p ∈ tokenFields →
      sumZ (λ kv, p (ModelAgg.totalTokens kv.2)) (foldl addModel o models)
      = sumZ (λ kv, p (ModelAgg.totalTokens kv.2)) o
        + sumZ (λ kv, p (ModelData.tokens kv.2)) models.
Proof.
  induction models as [|e models (IH1 & IH2 & IH3)] using rev_ind.
  - cbn [foldl]. rewrite sumQc_nil, sumZ_nil.
    split; [ring|]. split; [lia|]. intros p _. rewrite sumZ_nil. lia.
  - rewrite foldl_app. cbn [foldl].
    destruct (addModel_sums (foldl addModel o models) e) as (-> & -> & H3).
    rewrite IH1, IH2, sumQc_snoc, sumZ_snoc.
    split; [ring|]. split; [lia|]. intros p Hp.
    rewrite (H3 p Hp), (IH3 p Hp), sumZ_snoc. lia.
Qed.

Lemma modelTotals_sums (conversations : list Conversation.t) :
  Forall modelsAgree conversations →
  sumQc (λ kv, ModelAgg.totalCost kv.2) (modelTotals conversations)
  = sumQc Conversation.totalCost conversations
  ∧ sumZ (λ kv, ModelAgg.totalCount kv.2) (modelTotals conversations)
    = sumZ Conversation.messageCount conversations
  ∧ ∀ p, p ∈ tokenFields →
      sumZ (λ kv, p (ModelAgg.totalTokens kv.2)) (modelTotals conversations)
      = sumZ (λ c, p (Conversation.totalTokens c)) conversations.
Proof.
  unfold modelTotals.
  induction conversations as [|c conversations IH] using rev_ind; intros Hall.
  - split; [done|]. split; [done|]. done.
  - apply Forall_app in Hall as [Hall Hc]. apply Forall_cons in Hc as [(C1 & C2 & C3) _].
    destruct (IH Hall) as (IH1 & IH2 & IH3).
    rewrite foldl_app. cbn [foldl].
    match goal with |- context [foldl addModel ?o ?t] =>
      destruct (foldl_addModel_sums o t) as (-> & -> & H3) end.
    rewrite IH1, IH2, C1, C2, sumQc_snoc, sumZ_snoc.
    split; [done|]. split; [done|]. intros p Hp.
    by rewrite (H3 p Hp), (IH3 p Hp), (C3 p Hp), sumZ_snoc.
Qed.

Lemma loaded_modelsAgree pricing files :
  Forall modelsAgree (analyzeAllConversations pricing files).
Proof.
  unfold analyzeAllConversations. apply Forall_fmap, Forall_forall. intros file _.
  apply (modelsAgree_ext
           (conv (parseLines pricing (LogFile.lines file)))); unfold parseJSONLFile;
    [| | | |apply parseLines_modelsAgree];
    destruct (finish_fields (LogFile.name file)
                (conv (parseLines pricing (LogFile.lines file))))
      as (F1 & F2 & F3 & F4 & _); done.
Qed.


(** *** Projects *)

Lemma addProject_sums (o : list (string * ProjectStats.t)) (c : Conversation.t) :
  sumQc (λ kv, ProjectStats.totalCost kv.2) (addProject o c)
  = (sumQc (λ kv, ProjectStats.totalCost kv.2) o + Conversation.totalCost c)%Qc
  ∧ sumZ (λ kv, ProjectStats.totalTokens kv.2) (addProject o c)
    = sumZ (λ kv, ProjectStats.totalTokens kv.2) o
      + Tokens.total (Conversation.totalTokens c)
  ∧ sumZ (λ kv, ProjectStats.conversationCount kv.2) (addProject o c)
    = sumZ (λ kv, ProjectStats.conversationCount kv.2) o + 1
  ∧ sumQc (λ kv, ProjectStats.totalDuration kv.2) (addProject o c)
    = (sumQc (λ kv, ProjectStats.totalDuration kv.2) o + Conversation.duration c)%Qc.
Proof.
  unfold addProject. cbv zeta.
  rewrite (sumQc_objSet ProjectStats.totalCost), (sumZ_objSet ProjectStats.totalTokens),
    (sumZ_objSet ProjectStats.conversationCount),
    (sumQc_objSet ProjectStats.totalDuration).
  destruct (objGet (Conversation.projectName c) o); simpl;
    (split; [ring|split; [lia|split; [lia|ring]]]).
Qed.

Lemma projectTotals_sums (conversations : list Conversation.t) :
  sumQc (λ kv, ProjectStats.totalCost kv.2) (projectTotals conversations)
  = sumQc Conversation.totalCost conversations
  ∧ sumZ (λ kv, ProjectStats.totalTokens kv.2) (projectTotals conversations)
    = sumZ (λ c, Tokens.total (Conversation.totalTokens c)) conversations
  ∧ sumZ (λ kv, ProjectStats.conversationCount kv.2) (projectTotals conversations)
    = Z.of_nat (length conversations)
  ∧ sumQc (λ kv, ProjectStats.totalDuration kv.2) (projectTotals conversations)
    = sumQc Conversation.duration conversations.
Proof.
  unfold projectTotals.
  induction conversations as [|c conversations (IH1 & IH2 & IH3 & IH4)] using rev_ind;
    [done|].
  rewrite foldl_app. cbn [foldl].
  destruct (addProject_sums (foldl addProject [] conversations) c) as (-> & -> & -> & ->).
  rewrite IH1, IH2, IH3, IH4, !sumQc_snoc, sumZ_snoc, length_app. simpl.
  repeat (split; [done|]). split; [lia|done].
Qed.


(** *** Token burn statistics *)

Lemma sumQc_le_bound {A} (f : A → Qc) (M : Qc) (l : list A) :
  Forall (λ x, (f x ≤ M)%Qc) l →
  (sumQc f l ≤ Qc_of_Z (Z.of_nat (length l)) * M)%Qc.
Proof.
  induction 1 as [|x l Hx Hl IH].
  - rewrite sumQc_nil. cbn [length]. change (Z.of_nat 0) with 0.
    rewrite Z2Qc_inj_0, Qcmult_0_l. apply Qcle_refl.
  - rewrite sumQc_cons. cbn [length]. rewrite Nat2Z.inj_succ, <-Z.add_1_l.
    rewrite Z2Qc_inj_add, Z2Qc_inj_1, Qcmult_plus_distr_l, Qcmult_1_l.
    by apply Qcplus_le_compat.
Qed.

Lemma Qcdiv_le_bound (a M n : Qc) : (0 < n)%Qc → (a ≤ n * M)%Qc → (a / n ≤ M)%Qc.
Proof.
  intros Hn H. apply (Qcmult_lt_0_le_reg_r _ _ n Hn).
  assert (n ≠ 0%Qc) as Hne by (apply not_eq_sym, Qclt_not_eq, Hn).
  replace (a / n * n)%Qc with a by (field; exact Hne).
  by rewrite Qcmult_comm.
Qed.


(** ** What [safeMerge] returns, key by key *)

Lemma mergeProperty_objSet target output key value :
  mergeProperty safeMerge target output key value
  = if isForbidden key then output else objSet key (mergedValue target key value) output.
Proof.
  unfold mergeProperty, mergedValue. destruct (isForbidden key); [done|].
  destruct value; try done. destruct (objGet key target) as [tv|]; [|done].
  by destruct (isObjectLike tv).
Qed.

Lemma foldl_mergeProperty_lookup target fields output key :
  NoDup fields.*1 →
  objGet key
    (foldl (λ output entry, mergeProperty safeMerge target output entry.1 entry.2)
       output fields)
  = if isForbidden key then objGet key output
    else match objGet key fields with
         | Some value => Some (mergedValue target key value)
         | None => objGet key output
         end.
Proof.
  revert output. induction fields as [|[k v] fields IH]; intros output Hnd.
  - cbn [foldl objGet]. by destruct (isForbidden key).
  - apply NoDup_cons in Hnd as [Hk Hnd]. cbn [foldl fst snd objGet].
    rewrite (IH _ Hnd), mergeProperty_objSet.
    destruct (isForbidden key) eqn:Ekey.
    + destruct (isForbidden k) eqn:Ek; [done|].
      rewrite objGet_objSet_ne; [done|]. intros ->. congruence.
    + destruct (decide (k = key)) as [->|Hne].
      * assert (objGet key fields = None) as -> by (by apply objGet_None).
        by rewrite Ekey, objGet_objSet_eq.
      * destruct (objGet key fields); [done|].
        destruct (isForbidden k); [done|]. by rewrite objGet_objSet_ne.
Qed.

(** X23.  The result of [safeMerge] for a source that is an object with
    distinct keys, key by key.  A forbidden key, and a key that the source
    does not have, keep what the target has for them, so that no property
    of the target is lost.  For any other key the result has the value of
    the source, except that an object of the source is merged, by
    [safeMerge] again, into the target's value when that is an object or
    an array. *)
Theorem safeMerge_lookup (target fields : list (string * JsValue)) (key : string) :
  NoDup fields.*1 →
  let merged := safeMerge target (JObj fields) in
  objGet key merged
  = (if isForbidden key then objGet key target
     else match objGet key fields with
          | Some (JObj sub) =>
              match objGet key target with
              | Some (JObj targetFields) =>
                  Some (JObj (safeMerge targetFields (JObj sub)))
              | Some (JArr items) =>
                  Some (JObj (safeMerge (ownProperties (JArr items)) (JObj sub)))
              | _ => Some (JObj sub)
              end
          | Some value => Some value
          | None => objGet key target
          end)
  ∧ (is_Some (objGet key target) → is_Some (objGet key merged)).
Proof.
  intros Hnd. cbv zeta.
  assert (H : objGet key (safeMerge target (JObj fields))
    = if isForbidden key then objGet key target
      else match objGet key fields with
           | Some value => Some (mergedValue target key value)
           | None => objGet key target
           end).
  { cbn [safeMerge]. by apply foldl_mergeProperty_lookup. }
  split.
  - rewrite H. destruct (isForbidden key); [done|].
    destruct (objGet key fields) as [value|]; [|done].
    unfold mergedValue. destruct value; try done.
    destruct (objGet key target) as [[]|]; done.
  - rewrite H. destruct (isForbidden key); [done|].
    by destruct (objGet key fields).
Qed.

Lemma safeMerge_lookup_witness :
  objGet "alerts"
    (safeMerge configDefaults (JObj [("alerts", JObj [("enabled", JBool false)])]))
  = Some (JObj (safeMerge
                  [ ("enabled", JBool true);
                    ("dailyCostThreshold", JNum (dec 10 1));
                    ("sessionCostThreshold", JNum (dec 2 1));
                    ("tokenBurnRateThreshold", JNum (dec 10000 1));
                    ("soundEnabled", JBool false) ]
                  (JObj [("enabled", JBool false)]))).
Proof.
  exact (proj1 (safeMerge_lookup configDefaults
                  [("alerts", JObj [("enabled", JBool false)])] "alerts"
                  ltac:(apply NoDup_singleton))).
Defined.

(** *** Session durations and idle time *)

Lemma sumQc_ge_bound {A} (f : A → Qc) (M : Qc) (l : list A) :
  Forall (λ x, (M ≤ f x)%Qc) l →
  (Qc_of_Z (Z.of_nat (length l)) * M ≤ sumQc f l)%Qc.
Proof.
  induction 1 as [|x l Hx Hl IH].
  - rewrite sumQc_nil. cbn [length]. change (Z.of_nat 0) with 0.
    rewrite Z2Qc_inj_0, Qcmult_0_l. apply Qcle_refl.
  - rewrite sumQc_cons. cbn [length]. rewrite Nat2Z.inj_succ, <-Z.add_1_l.
    rewrite Z2Qc_inj_add, Z2Qc_inj_1, Qcmult_plus_distr_l, Qcmult_1_l.
    by apply Qcplus_le_compat.
Qed.

Lemma Qcdiv_ge_bound (a M n : Qc) : (0 < n)%Qc → (n * M ≤ a)%Qc → (M ≤ a / n)%Qc.
Proof.
  intros Hn H. apply (Qcmult_lt_0_le_reg_r _ _ n Hn).
  assert (n ≠ 0%Qc) as Hne by (apply not_eq_sym, Qclt_not_eq, Hn).
  replace (a / n * n)%Qc with a by (field; exact Hne).
  by rewrite Qcmult_comm.
Qed.

Lemma Qc_of_nat_pos (n : nat) : (0 < n)%nat → (0 < Qc_of_Z (Z.of_nat n))%Qc.
Proof.
  intros H. rewrite <-Z2Qc_inj_0. apply (proj1 (Z2Qc_inj_lt 0 (Z.of_nat n))). lia.
Qed.

Lemma StronglySorted_head {A} (R : relation A) (l : list A) x :
  (∀ y, R y y) → StronglySorted R l → head l = Some x → Forall (R x) l.
Proof.
  intros Hrefl. destruct 1 as [|y l Hl Hy]; [done|]. intros [= ->]. by constructor.
Qed.

Lemma StronglySorted_last {A} (R : relation A) (l : list A) x :
  (∀ y, R y y) → StronglySorted R l → last l = Some x → Forall (λ y, R y x) l.
Proof.
  intros Hrefl Hl Hx. destruct l as [|y l _] using rev_ind; [done|].
  rewrite last_snoc in Hx. injection Hx as ->.
  apply StronglySorted_app in Hl as (H & _ & _).
  apply Forall_app. split; [|by constructor].
  apply Forall_forall. intros z Hz. apply H; [done|]. by apply list_elem_of_singleton.
Qed.


Lemma minutesBetween_mono (a b c d : Z) :
  a - b ≤ c - d → (minutesBetween a b ≤ minutesBetween c d)%Qc.
Proof.
  intros H. unfold minutesBetween, Qcdiv.
  repeat apply Qcmult_le_compat_r; try by vm_compute.
  by apply (proj1 (Z2Qc_inj_le (a - b) (c - d))).
Qed.

Lemma messageGaps_positive messages :
  Forall (λ gap, (0 < gap)%Qc) (messageGaps messages).
Proof.
  induction messages as [|previous rest IH]; [constructor|].
  cbn [messageGaps]. destruct rest as [|current rest]; [constructor|].
  destruct (Entry.timestamp current) as [t|]; [|exact IH].
  destruct (Entry.timestamp previous) as [t'|]; [|exact IH].
  cbv zeta. destruct (decide (0 < minutesBetween t t')%Qc); [by constructor|exact IH].
Qed.

Lemma messageGaps_bound (s e : Z) messages :
  Forall (λ entry, ∀ t, Entry.timestamp entry = Some t → s ≤ t ≤ e) messages →
  Forall (λ gap, (gap ≤ minutesBetween e s)%Qc) (messageGaps messages).
Proof.
  induction 1 as [|previous rest Hprevious Hrest IH]; [constructor|].
  cbn [messageGaps]. destruct rest as [|current rest]; [constructor|].
  destruct (Entry.timestamp current) as [t|] eqn:Et; [|exact IH].
  destruct (Entry.timestamp previous) as [t'|] eqn:Et'; [|exact IH].
  cbv zeta. destruct (decide (0 < minutesBetween t t')%Qc); [|exact IH].
  constructor; [|exact IH]. apply minutesBetween_mono.
  apply Forall_cons in Hrest as [Hcurrent _].
  specialize (Hprevious t' eq_refl). specialize (Hcurrent t Et). lia.
Qed.

Lemma mathMax_spec (first : Qc) (rest : list Qc) :
  mathMax first rest ∈ first :: rest
  ∧ Forall (λ x, (x ≤ mathMax first rest)%Qc) (first :: rest).
Proof.
  unfold mathMax. revert first. induction rest as [|x rest IH]; intros first.
  - cbn [foldl]. split; [by left|]. constructor; [apply Qcle_refl|constructor].
  - cbn [foldl]. destruct (decide (first < x)%Qc) as [Hlt|Hge].
    + destruct (IH x) as [Hin Hall]. split; [by right|].
      apply Forall_cons in Hall as [Hx Hall].
      constructor; [|by constructor].
      etrans; [apply Qclt_le_weak, Hlt|exact Hx].
    + destruct (IH first) as [Hin Hall]. split.
      * apply elem_of_cons in Hin as [->|Hin]; [by left|by right; right].
      * apply Forall_cons in Hall as [Hfirst Hall].
        constructor; [done|]. constructor; [|done].
        etrans; [apply Qcnot_lt_le, Hge|exact Hfirst].
Qed.

Lemma sumQc_positive {A} (f : A → Qc) (l : list A) :
  l ≠ [] → Forall (λ x, (0 < f x)%Qc) l → (0 < sumQc f l)%Qc.
Proof.
  intros Hne Hall. destruct Hall as [|x l Hx Hl]; [done|].
  rewrite sumQc_cons.
  assert (0 ≤ sumQc f l)%Qc as Hsum.
  { clear Hne Hx. induction Hl as [|y l Hy Hl IH]; [by rewrite sumQc_nil|].
    rewrite sumQc_cons, <-(Qcplus_0_r 0).
    apply Qcplus_le_compat; [by apply Qclt_le_weak|done]. }
  by apply Qcplus_pos_nonneg.
Qed.

(** The idle figures of a session whose gaps are positive and at most its
    duration. *)
Lemma idleTimeOf_bounded (session : Conversation.t) :
  (0 < Conversation.duration session)%Qc →
  Forall (λ gap, (0 < gap)%Qc ∧ (gap ≤ Conversation.duration session)%Qc)
    (messageGaps (Conversation.messages session)) →
  messageGaps (Conversation.messages session) ≠ [] →
  let idle := idleTimeOf session in
  (0 < IdleTime.averageGap idle)%Qc
  ∧ (IdleTime.averageGap idle ≤ IdleTime.maxGap idle)%Qc
  ∧ (IdleTime.maxGap idle ≤ Conversation.duration session)%Qc
  ∧ (0 < IdleTime.idlePercentage idle)%Qc
  ∧ (IdleTime.idlePercentage idle ≤ Qc_of_Z 100)%Qc.
Proof.
  intros Hduration Hgaps Hne. cbv zeta. unfold idleTimeOf. cbv zeta.
  destruct (messageGaps (Conversation.messages session)) as [|first rest] eqn:Egaps;
    [done|].
  set (gaps := first :: rest) in *.
  cbn [IdleTime.averageGap IdleTime.maxGap IdleTime.idlePercentage].
  destruct (mathMax_spec first rest) as [Hin Hmax]. fold gaps in Hin, Hmax.
  set (maxGap := mathMax first rest) in *.
  rewrite Forall_forall in Hgaps. destruct (Hgaps maxGap Hin) as [Hpos Hle].
  assert (Hn : (0 < Qc_of_Z (Z.of_nat (length gaps)))%Qc).
  { apply Qc_of_nat_pos. simpl. lia. }
  change (foldl Qcplus 0%Qc gaps) with (sumQc (λ gap : Qc, gap) gaps).
  rewrite decide_True by done.
  split; [|split; [|split; [done|split]]].
  - unfold Qcdiv. apply Qcmult_pos_pos; [|by apply Qcinv_pos].
    apply sumQc_positive; [done|]. apply Forall_forall. intros g Hg.
    by destruct (Hgaps g Hg).
  - apply Qcdiv_le_bound; [done|]. by apply sumQc_le_bound.
  - unfold Qcdiv. repeat apply Qcmult_pos_pos; [done|by apply Qcinv_pos|by vm_compute].
  - rewrite <-(Qcmult_1_l (Qc_of_Z 100)) at 2.
    apply Qcmult_le_compat_r; [|by vm_compute].
    apply Qcdiv_le_bound; [done|]. by rewrite Qcmult_1_r.
Qed.

(** The gaps of a conversation that was loaded from a file lie within its
    duration. *)
Lemma loaded_gaps_bounded pricing files c :
  c ∈ analyzeAllConversations pricing files →
  (0 < Conversation.duration c)%Qc →
  Forall (λ gap, (0 < gap)%Qc ∧ (gap ≤ Conversation.duration c)%Qc)
    (messageGaps (Conversation.messages c)).
Proof.
  unfold analyzeAllConversations. intros (file & -> & _)%list_elem_of_fmap.
  change (Conversation.duration (Conversation.set_projectName ?p ?c))
    with (Conversation.duration c).
  change (Conversation.messages (Conversation.set_projectName ?p ?c))
    with (Conversation.messages c).
  unfold parseJSONLFile. intros Hduration.
  pose proof (finish_time_range (LogFile.name file) _ _
                (parseLines_spans pricing (LogFile.lines file))
                (parseLines_duration pricing (LogFile.lines file))) as Hrange.
  cbv zeta in Hrange.
  destruct (finish_fields (LogFile.name file)
              (conv (parseLines pricing (LogFile.lines file))))
    as (_ & _ & _ & _ & _ & _ & Hmessages & _).
  rewrite Hmessages, parseLines_messages.
  set (c := finish _ _) in *.
  destruct (Conversation.startTime c) as [s|], (Conversation.endTime c) as [e|];
    try done.
  - destruct Hrange as (_ & _ & Hall & Hd & _). rewrite Hd.
    apply Forall_and. split; [apply messageGaps_positive|].
    apply messageGaps_bound. apply Forall_fmap, Forall_forall.
    intros m Hm t Ht. simpl in Ht. rewrite Forall_forall in Hall. apply Hall.
    apply list_elem_of_omap. by exists m.
  - destruct Hrange as [_ Hd]. rewrite Hd in Hduration. by vm_compute in Hduration.
Qed.


(** A session of two messages ten minutes apart is reported. *)
Example idle_time_of_two_messages :
  length
    (DurationStats.idleTimeAnalysis
       (ConversationAnalyzer.getSessionStats
          (analyzeAllConversations CLAUDE_PRICING
             [LogFile.Build "p" "c"
                [Json (assistantLine 0 1000); Json (assistantLine 600000 1000)]])))
  = 1%nat.
Proof. vm_compute. reflexivity. Qed.

(** *** The reports agree on the total cost *)

Lemma sumQc_nonneg {A} (f : A → Qc) (l : list A) :
  Forall (λ x, (0 ≤ f x)%Qc) l → (0 ≤ sumQc f l)%Qc.
Proof.
  induction 1 as [|x l Hx Hl IH]; [by rewrite sumQc_nil|].
  rewrite sumQc_cons, <-(Qcplus_0_r 0). by apply Qcplus_le_compat.
Qed.

Lemma sumQc_filter_positive {A} (f : A → Qc) (l : list A) :
  Forall (λ x, (0 ≤ f x)%Qc) l →
  sumQc f (filter (λ x, (0 < f x)%Qc) l) = sumQc f l.
Proof.
  induction 1 as [|x l Hx Hl IH]; [done|].
  rewrite filter_cons. destruct (decide (0 < f x)%Qc) as [Hpos|Hzero].
  - by rewrite !sumQc_cons, IH.
  - rewrite sumQc_cons, IH.
    assert (f x = 0%Qc) as ->; [|ring].
    apply Qcle_antisym; [by apply Qcnot_lt_le|done].
Qed.

Lemma sumQc_ext {A} (f g : A → Qc) (l : list A) :
  Forall (λ x, f x = g x) l → sumQc f l = sumQc g l.
Proof.
  induction 1 as [|x l Hx Hl IH]; [done|]. by rewrite !sumQc_cons, Hx, IH.
Qed.

Lemma loaded_totalCost pricing files :
  sumQc Conversation.totalCost (analyzeAllConversations pricing files)
  = sumQc (λ file, sumQc (lineCost pricing) (LogFile.lines file)) files.
Proof.
  unfold analyzeAllConversations. rewrite sumQc_fmap. apply sumQc_ext, Forall_forall.
  intros file _.
  change (Conversation.totalCost (Conversation.set_projectName ?p ?c))
    with (Conversation.totalCost c).
  unfold parseJSONLFile.
  destruct (finish_fields (LogFile.name file)
              (conv (parseLines pricing (LogFile.lines file)))) as (-> & _).
  by destruct (parseLines_totals pricing (LogFile.lines file)) as (-> & _).
Qed.



(** ** Which file changes are processed *)

Section WatchingFacts.
Variable sessionIdOf : string → string.

Lemma handleFileChanges_snoc events event :
  handleFileChanges sessionIdOf (events ++ [event])
  = (let '(st, started) := handleFileChanges sessionIdOf events in
     let '(st', processing) := handleFileChange sessionIdOf st event.1 event.2 in
     (st', started ++ option_list processing)).
Proof. unfold handleFileChanges. by rewrite foldl_app. Qed.

Lemma mtimesOf_snoc filePath events event :
  mtimesOf filePath (events ++ [event])
  = mtimesOf filePath events ++ (if decide (event.1 = filePath) then [event.2] else []).
Proof.
  unfold mtimesOf. rewrite filter_app, fmap_app, filter_cons, filter_nil.
  by destruct (decide (event.1 = filePath)).
Qed.

Lemma elem_of_mtimesOf filePath events t :
  t ∈ mtimesOf filePath events ↔ (filePath, t) ∈ events.
Proof.
  unfold mtimesOf. rewrite list_elem_of_fmap. split.
  - intros ([f t'] & -> & [Hf Hin]%list_elem_of_filter). simpl in *. by subst.
  - intros H. exists (filePath, t). split; [done|]. by apply list_elem_of_filter.
Qed.

Lemma handleFileChanges_invariant events :
  watchInvariant sessionIdOf events (handleFileChanges sessionIdOf events).1
    (handleFileChanges sessionIdOf events).2.
Proof.
  induction events as [|[f t] events IH] using rev_ind.
  { split; [|split; [|split]]; try done; intros; constructor. }
  rewrite handleFileChanges_snoc.
  destruct (handleFileChanges sessionIdOf events) as [st started].
  destruct IH as (I1 & I2 & I3 & I4). cbn [fst snd] in *.
  unfold handleFileChange.
  pose proof (I1 f) as Hf.
  destruct (WatchState.lastCheckedFiles st !! f) as [lastChecked|] eqn:Elast.
  - destruct Hf as [Hlast Hall].
    destruct (bool_decide (lastChecked < t)) eqn:Efresh.
    + apply bool_decide_eq_true in Efresh. cbn [fst snd option_list].
      split; [|split; [|split]].
      * intros g. cbn [WatchState.lastCheckedFiles]. change (option_list (Some (f, t))) with [(f, t)]. rewrite !mtimesOf_snoc. cbn [fst snd].
        destruct (decide (f = g)) as [<-|Hne].
        -- cbv iota.
           rewrite lookup_insert_eq, last_snoc. split; [done|].
           apply Forall_app. split; [|by apply Forall_singleton].
           eapply Forall_impl; [exact Hall|]. simpl. lia.
        -- cbv iota.
           rewrite lookup_insert_ne, !app_nil_r by done. apply I1.
      * by apply sublist_app.
      * intros g. change (option_list (Some (f, t))) with [(f, t)]. rewrite mtimesOf_snoc. cbn [fst snd].
        destruct (decide (f = g)) as [<-|Hne];
          [cbv iota
          |cbv iota; rewrite app_nil_r; apply I3].
        apply StronglySorted_app. split; [|split; [apply I3|repeat constructor]].
        intros t1 t2 Ht1 ->%list_elem_of_singleton.
        specialize (I3 f).
        destruct (mtimesOf f started) as [|t0 ts _] using rev_ind; [by apply elem_of_nil in Ht1|].
        rewrite last_snoc in Hlast. injection Hlast as ->.
        apply elem_of_app in Ht1 as [Ht1| ->%list_elem_of_singleton]; [|done].
        apply StronglySorted_app in I3 as (H & _ & _).
        specialize (H t1 lastChecked Ht1). rewrite list_elem_of_singleton in H.
        specialize (H eq_refl). lia.
      * cbn [WatchState.activeSession].
        change (option_list (Some (f, t))) with [(f, t)]. by rewrite last_snoc.
    + apply bool_decide_eq_false in Efresh. cbn [fst snd option_list].
      rewrite app_nil_r. split; [|split; [|split]]; [| |done|done].
      * intros g. change (option_list (Some (f, t))) with [(f, t)]. rewrite mtimesOf_snoc. cbn [fst snd].
        destruct (decide (f = g)) as [<-|Hne];
          [cbv iota
          |cbv iota; rewrite app_nil_r; apply I1].
        rewrite Elast. split; [done|].
        apply Forall_app. split; [done|]. apply Forall_singleton. lia.
      * by apply sublist_inserts_r.
  - cbn [fst snd option_list]. split; [|split; [|split]].
    + intros g. cbn [WatchState.lastCheckedFiles]. change (option_list (Some (f, t))) with [(f, t)]. rewrite !mtimesOf_snoc. cbn [fst snd].
      destruct (decide (f = g)) as [<-|Hne].
      * cbv iota.
        rewrite lookup_insert_eq, last_snoc, Hf. split; [done|].
        by apply Forall_singleton.
      * cbv iota.
        rewrite lookup_insert_ne, !app_nil_r by done. apply I1.
    + by apply sublist_app.
    + intros g. change (option_list (Some (f, t))) with [(f, t)]. rewrite mtimesOf_snoc. cbn [fst snd].
      destruct (decide (f = g)) as [<-|Hne];
        [cbv iota
        |cbv iota; rewrite app_nil_r; apply I3].
      assert (mtimesOf f started = []) as ->; [|repeat constructor].
      apply elem_of_nil_inv. intros t' Ht'%elem_of_mtimesOf.
      assert ((f, t') ∈ events) as Hin by (by eapply elem_of_sublist).
      apply elem_of_mtimesOf in Hin. rewrite Hf in Hin. by apply elem_of_nil in Hin.
    + cbn [WatchState.activeSession].
        change (option_list (Some (f, t))) with [(f, t)]. by rewrite last_snoc.
Qed.

(** X27.  After any sequence of change notifications, handled from the
    initial state: the time recorded for a file is the latest modification
    time notified for it; the processings started are some of the
    notifications, in their order, and for each file their modification
    times increase strictly, so that a notification whose modification
    time is not later than one seen before for the file starts nothing;
    the active session is that of the last processing started. *)
Theorem handleFileChange_processes_newer_only (events : list (string * Z)) :
  let st := (handleFileChanges sessionIdOf events).1 in
  let started := (handleFileChanges sessionIdOf events).2 in
  (∀ filePath,
     match WatchState.lastCheckedFiles st !! filePath with
     | Some lastChecked =>
         (filePath, lastChecked) ∈ events
         ∧ ∀ t, (filePath, t) ∈ events → t ≤ lastChecked
     | None => ∀ t, (filePath, t) ∉ events
     end)
  ∧ started `sublist_of` events
  ∧ (∀ filePath, StronglySorted Z.lt (mtimesOf filePath started))
  ∧ WatchState.activeSession st = (λ event, sessionIdOf event.1) <$> last started.
Proof.
  cbv zeta. destruct (handleFileChanges_invariant events) as (I1 & I2 & I3 & I4).
  split; [|done]. intros f. specialize (I1 f).
  destruct (WatchState.lastCheckedFiles _ !! f) as [lastChecked|].
  - destruct I1 as [Hlast Hall]. split.
    + eapply elem_of_sublist; [|exact I2].
      apply elem_of_mtimesOf. by apply last_Some_elem_of.
    + intros t Ht%elem_of_mtimesOf. rewrite Forall_forall in Hall. by apply Hall.
  - intros t Ht%elem_of_mtimesOf. rewrite I1 in Ht. by apply elem_of_nil in Ht.
Qed.
End WatchingFacts.
